(** * pca_analysis: a shallow embedding of [pca_analysis.py]

    The script reads a table, optionally standardises or log-transforms it,
    runs scikit-learn's PCA, prints two self-checks, writes a report and
    plots the first two or three score columns.

    Conventions of the embedding:
    - Python [str] is [string]; [str.replace] and [str.split] are written
      out as Python defines them.
    - Text is ASCII: a character is its code, below 128.
    - float64 is idealised: feature cells are reals ([R]) and the values
      numpy can produce outside the reals are explicit ([npfloat]); the
      colour components, which only need division, are exact rationals
      ([pyfloat]) so that [makeColor] evaluates.  Rounding error and signed
      zeros are not modelled.  The range of float64 is modelled where a
      result that leaves it changes what the script reports: overflow in
      [float], overflow and underflow in the variances of the fit and in
      [round]; a text that spells a number too small for float64 keeps its
      exact value.
    - Exceptions are values of [exn]; a function that prints, writes files
      or raises returns its events together with its result ([io]).
    - scikit-learn, numpy and matplotlib are libraries, not code of this
      repository.  The LAPACK singular value decomposition is a parameter
      ([svd]); what scikit-learn does around it (input validation, centring,
      variance ratios, zero-variance handling in [StandardScaler]) is
      modelled after the library, and so is what matplotlib checks when a
      point is drawn and when a figure is saved. *)

From Stdlib Require Import List String Ascii Bool Arith ZArith Lia.
From Stdlib Require Import Decimal DecimalString.
From Stdlib Require Import QArith Qround.
From Stdlib Require Import Reals Lra.
Import ListNotations.

Close Scope R_scope.
Close Scope Q_scope.

Set Implicit Arguments.

(** ** Python strings *)

Module PyStr.

Local Open Scope string_scope.

(** [s.startswith(p)] *)
Fixpoint startswith (p s : string) : bool :=
  match p, s with
  | EmptyString, _ => true
  | String _ _, EmptyString => false
  | String a p', String b s' => Ascii.eqb a b && startswith p' s'
  end.

(** [c in s] for a single character *)
Fixpoint char_in (c : ascii) (s : string) : bool :=
  match s with
  | EmptyString => false
  | String d s' => Ascii.eqb c d || char_in c s'
  end.

(** [p in s]: some suffix of [s] starts with [p] *)
Fixpoint occurs (p s : string) : bool :=
  startswith p s ||
  match s with
  | EmptyString => false
  | String _ s' => occurs p s'
  end.

(** The scan of [str.replace] for a non-empty pattern: left to right,
    non-overlapping; [skip] counts the characters of a match still to drop. *)
Fixpoint replace_from (old new : string) (skip : nat) (s : string) : string :=
  match s with
  | EmptyString => EmptyString
  | String c s' =>
      match skip with
      | S k => replace_from old new k s'
      | O =>
          if startswith old s
          then new ++ replace_from old new (String.length old - 1) s'
          else String c (replace_from old new 0 s')
      end
  end.

(** [s.replace("", new)] puts [new] before every character and at the end. *)
Fixpoint interleave (new s : string) : string :=
  match s with
  | EmptyString => new
  | String c s' => new ++ String c (interleave new s')
  end.

(** [s.replace(old, new)] *)
Definition replace (s old new : string) : string :=
  match old with
  | EmptyString => interleave new s
  | _ => replace_from old new 0 s
  end.

(** [s.split(sep)] for a one-character separator: always at least one
    token, empty tokens are kept. *)
Fixpoint split (sep : ascii) (s : string) : list string :=
  match s with
  | EmptyString => [EmptyString]
  | String c s' =>
      if Ascii.eqb c sep then EmptyString :: split sep s'
      else match split sep s' with
           | t :: ts => String c t :: ts
           | [] => [String c EmptyString]
           end
  end.

(** [s.count(c)] for a single character *)
Fixpoint count_char (c : ascii) (s : string) : nat :=
  match s with
  | EmptyString => O
  | String d s' => if Ascii.eqb d c then S (count_char c s') else count_char c s'
  end.

(** [sep.join(ts)] *)
Fixpoint join (sep : string) (ts : list string) : string :=
  match ts with
  | [] => EmptyString
  | [t] => t
  | t :: ts' => t ++ sep ++ join sep ts'
  end.

(** [s.isascii()] *)
Fixpoint is_ascii (s : string) : bool :=
  match s with
  | EmptyString => true
  | String c s' => (nat_of_ascii c <? 128)%nat && is_ascii s'
  end.

End PyStr.

(** ** Exceptions and results *)

(** The exceptions the script can meet; [msg] abbreviates the library's
    message, and [IndexError] records the index, the axis and its size. *)
Inductive exn : Type :=
| ValueError (msg : string)
| IndexError (index axis size : nat).

Definition result (A : Type) : Type := (exn + A)%type.

Definition Ok {A : Type} (a : A) : result A := inr a.
Definition Raise {A : Type} (e : exn) : result A := inl e.

Definition rbind {A B : Type} (m : result A) (k : A -> result B) : result B :=
  match m with
  | inl e => inl e
  | inr a => k a
  end.

Declare Scope result_scope.
Delimit Scope result_scope with result.
Notation "x <- m ;; k" := (rbind m (fun x => k))
  (at level 61, m at next level, right associativity) : result_scope.

Definition is_ok {A : Type} (m : result A) : bool :=
  match m with inr _ => true | inl _ => false end.

(** A list comprehension whose body may raise: elements are evaluated from
    left to right and the first exception wins. *)
Fixpoint comprehension {A B : Type} (f : A -> result B) (l : list A) : result (list B) :=
  match l with
  | [] => Ok []
  | a :: l' =>
      match f a with
      | inl e => inl e
      | inr b =>
          match comprehension f l' with
          | inl e => inl e
          | inr bs => Ok (b :: bs)
          end
      end
  end.

(** ** Python floats built from text: [float(str)] *)

(** A Python float whose finite values are exact rationals in lowest
    terms; a value too large for float64 is an infinity. *)
Inductive pyfloat : Type :=
| PFin (q : Q)
| PPosInf
| PNegInf
| PNaN.

Module PyFloat.

Local Open Scope string_scope.

Definition code (c : ascii) : nat := nat_of_ascii c.

(** White space as [float] strips it from ASCII text ([Py_ISSPACE]): TAB,
    LF, VT, FF, CR and space.  The separators FS..US, which [str.strip]
    removes, are not among them. *)
Definition is_space (c : ascii) : bool :=
  (((9 <=? code c) && (code c <=? 13)) || (code c =? 32))%nat.

Definition is_digit (c : ascii) : bool := ((48 <=? code c) && (code c <=? 57))%nat.

Definition digit_val (c : ascii) : Z := Z.of_nat (code c - 48)%nat.

Definition lower (c : ascii) : ascii :=
  if ((65 <=? code c) && (code c <=? 90))%nat then ascii_of_nat (code c + 32)%nat else c.

Fixpoint lower_str (s : string) : string :=
  match s with
  | EmptyString => EmptyString
  | String c s' => String (lower c) (lower_str s')
  end.

Fixpoint lstrip (s : string) : string :=
  match s with
  | String c s' => if is_space c then lstrip s' else s
  | EmptyString => EmptyString
  end.

Fixpoint rstrip (s : string) : string :=
  match s with
  | EmptyString => EmptyString
  | String c s' =>
      match rstrip s' with
      | EmptyString => if is_space c then EmptyString else String c EmptyString
      | t => String c t
      end
  end.

Definition strip (s : string) : string := rstrip (lstrip s).

(** [digitpart ::= digit (["_"] digit)*], longest match.  Returns the value
    of the digits read on top of [acc], how many were read on top of [cnt],
    and the rest of the text. *)
Fixpoint scan_digits (acc : Z) (cnt : nat) (s : string) : Z * nat * string :=
  match s with
  | EmptyString => (acc, cnt, s)
  | String c s' =>
      if is_digit c then scan_digits (acc * 10 + digit_val c)%Z (S cnt) s'
      else if Ascii.eqb c "_" then
        match s' with
        | String d _ =>
            if is_digit d && (0 <? cnt)%nat then scan_digits acc cnt s'
            else (acc, cnt, s)
        | EmptyString => (acc, cnt, s)
        end
      else (acc, cnt, s)
  end.

(** An optional sign: [true] for "-". *)
Definition scan_sign (s : string) : bool * string :=
  match s with
  | String "-" s' => (true, s')
  | String "+" s' => (false, s')
  | _ => (false, s)
  end.

(** [exponent ::= ("e" | "E") [sign] digitpart], up to the end of the text. *)
Definition scan_exponent (s : string) : option Z :=
  match s with
  | EmptyString => Some 0%Z
  | String c s' =>
      if Ascii.eqb (lower c) "e" then
        let '(neg, s1) := scan_sign s' in
        match scan_digits 0%Z 0%nat s1 with
        | (_, O, _) => None
        | (e, S _, EmptyString) => Some (if neg then (- e)%Z else e)
        | (_, S _, String _ _) => None
        end
      else None
  end.

(** [floatnumber ::= ([digitpart] "." digitpart | digitpart ["."]) [exponent]] *)
Definition scan_number (s : string) : option Q :=
  let '(ip, ni, r1) := scan_digits 0%Z 0%nat s in
  let '(fp, nf, r2) :=
    match r1 with
    | String "." r => scan_digits 0%Z 0%nat r
    | _ => (0%Z, O, r1)
    end in
  if (ni + nf =? 0)%nat then None
  else
    match scan_exponent r2 with
    | None => None
    | Some e =>
        Some (Qred (inject_Z (ip * 10 ^ Z.of_nat nf + fp)%Z
                    * Qpower (inject_Z 10) (e - Z.of_nat nf)%Z)%Q)
    end.

(** Half-way between the largest float64 and [2^1024]: a decimal text
    whose magnitude reaches it is read as an infinity. *)
Definition overflow_bound : Z := (2 ^ 1024 - 2 ^ 970)%Z.

(** Is the magnitude [q] too large for float64? *)
Definition overflows (q : Q) : bool := Qle_bool (inject_Z overflow_bound) q.

(** [float(s)] on ASCII text: [None] is Python's [ValueError]. *)
Definition py_float (s : string) : option pyfloat :=
  let '(neg, body) := scan_sign (strip s) in
  let name := lower_str body in
  if (name =? "inf") || (name =? "infinity")
  then Some (if neg then PNegInf else PPosInf)
  else if name =? "nan" then Some PNaN
  else
    match scan_number body with
    | None => None
    | Some q =>
        if overflows q then Some (if neg then PNegInf else PPosInf)
        else Some (PFin (if neg then Qred (- q)%Q else q))
    end.

(** [x / 255.] *)
Definition div255 (x : pyfloat) : pyfloat :=
  match x with
  | PFin q => PFin (Qred (q / inject_Z 255)%Q)
  | other => other
  end.

(** Value of a run of decimal digits, most significant first. *)
Fixpoint horner (acc : Z) (s : string) : Z :=
  match s with
  | EmptyString => acc
  | String c s' => horner (acc * 10 + digit_val c)%Z s'
  end.

Fixpoint all_digits (s : string) : bool :=
  match s with
  | EmptyString => true
  | String c s' => is_digit c && all_digits s'
  end.

(** A decimal integer token: one or more ASCII digits. *)
Definition int_token (s : string) : bool :=
  match s with
  | EmptyString => false
  | _ => all_digits s
  end.

End PyFloat.

(** ** [makeColor] *)

Local Open Scope string_scope.

(** [return [float(col)/255. for col in colorRGB.split(":")]] *)
Definition makeColor (colorRGB : string) : result (list pyfloat) :=
  comprehension
    (fun col =>
       match PyFloat.py_float col with
       | None => Raise (ValueError "could not convert string to float")
       | Some x => Ok (PyFloat.div255 x)
       end)
    (PyStr.split ":" colorRGB).

(** The value of a colour channel written as the digit run [t]: the
    integer it spells over 255, in lowest terms. *)
Definition channel (t : string) : Q :=
  Qred (inject_Z (PyFloat.horner 0 t) / inject_Z 255).

(** ** numpy floats *)

(** A float64 cell: a real, or one of the three values outside the reals. *)
Inductive npfloat : Type :=
| Fin (r : R)
| PosInf
| NegInf
| NaN.

Module Np.

Local Open Scope R_scope.

Definition Rleb (x y : R) : bool := if Rle_dec x y then true else false.
Definition Rltb (x y : R) : bool := if Rlt_dec x y then true else false.
Definition Reqb (x y : R) : bool := if Req_dec_T x y then true else false.

Definition is_finite (x : npfloat) : bool :=
  match x with Fin _ => true | _ => false end.

(** [np.log]: minus infinity at zero and NaN below it (numpy only warns). *)
Definition log (x : R) : npfloat :=
  if Rltb x 0 then NaN
  else if Reqb x 0 then NegInf
  else Fin (ln x).

Definition signed_inf (positive : bool) : npfloat := if positive then PosInf else NegInf.

Definition add (a b : npfloat) : npfloat :=
  match a, b with
  | NaN, _ | _, NaN => NaN
  | Fin x, Fin y => Fin (x + y)
  | PosInf, NegInf | NegInf, PosInf => NaN
  | PosInf, _ | _, PosInf => PosInf
  | NegInf, _ | _, NegInf => NegInf
  end.

(** Sign of a finite factor applied to an infinity; zero gives NaN. *)
Definition scale_inf (positive : bool) (y : R) : npfloat :=
  if Reqb y 0 then NaN
  else if Rltb 0 y then signed_inf positive
  else signed_inf (negb positive).

Definition mul (a b : npfloat) : npfloat :=
  match a, b with
  | NaN, _ | _, NaN => NaN
  | Fin x, Fin y => Fin (x * y)
  | PosInf, Fin y | Fin y, PosInf => scale_inf true y
  | NegInf, Fin y | Fin y, NegInf => scale_inf false y
  | PosInf, PosInf | NegInf, NegInf => PosInf
  | PosInf, NegInf | NegInf, PosInf => NegInf
  end.

(** True division of float64 arrays: a zero divisor gives an infinity, or
    NaN for [0/0]; numpy warns and carries on. *)
Definition div (a b : npfloat) : npfloat :=
  match a, b with
  | NaN, _ | _, NaN => NaN
  | Fin x, Fin y =>
      if Reqb y 0 then
        (if Reqb x 0 then NaN else signed_inf (Rltb 0 x))
      else Fin (x / y)
  | Fin _, _ => Fin 0
  | PosInf, Fin y => signed_inf (Rleb 0 y)
  | NegInf, Fin y => signed_inf (Rltb y 0)
  | _, _ => NaN
  end.

(** [a.sum()] *)
Definition sum (l : list npfloat) : npfloat := fold_right add (Fin 0) l.

(** The range of float64.  A result whose magnitude reaches [too_large]
    (half-way between the largest float64 and [2^1024]) is an infinity, and
    one whose magnitude is at most [too_small] (half the smallest
    subnormal) is zero. *)
Definition too_large : R := 2 ^ 1024 - 2 ^ 970.
Definition too_small : R := / 2 ^ 1075.

Definition float64 (r : R) : npfloat :=
  if Rleb too_large (Rabs r) then signed_inf (Rltb 0 r)
  else if Rleb (Rabs r) too_small then Fin 0
  else Fin r.

Definition in_range (x : npfloat) : npfloat :=
  match x with
  | Fin r => float64 r
  | other => other
  end.

(** Bounds with room for rounding: a computation whose exact results stay
    between [normal_min], the smallest normal float64, and [normal_max]
    neither underflows nor overflows in float64. *)
Definition normal_max : R := 2 ^ 1023.
Definition normal_min : R := / 2 ^ 1022.

(** A bound on the columns of a table, as sums of absolute values, under
    which no sum, square or sum of squares that the script and its
    libraries form from the table overflows. *)
Definition moderate : R := 2 ^ 510.

Definition Rsum (l : list R) : R := fold_right Rplus 0 l.

(** A 2-D array or data frame: [shape = (length rows, ncols)]. *)
Record frame (A : Type) : Type := Frame { ncols : nat; rows : list (list A) }.

Definition nrows {A : Type} (f : frame A) : nat := List.length (rows f).

(** Every row has [ncols] cells. *)
Definition wf {A : Type} (f : frame A) : Prop :=
  Forall (fun r => List.length r = ncols f) (rows f).

Definition fmap {A B : Type} (g : A -> B) (f : frame A) : frame B :=
  Frame (ncols f) (map (map g) (rows f)).

(** Column [j] without a bounds check. *)
Definition column {A : Type} (d : A) (j : nat) (f : frame A) : list A :=
  map (fun r => nth j r d) (rows f).

(** [X[i, j]] without a bounds check *)
Definition cell (f : frame R) (i j : nat) : R := nth j (nth i (rows f) []) 0.

(** Row [i] without a bounds check *)
Definition row (f : frame R) (i : nat) : list R := nth i (rows f) [].

(** The sum of [f 0], ..., [f (n - 1)] *)
Definition bigsum (n : nat) (f : nat -> R) : R := Rsum (map f (seq 0 n)).

(** Inner product of two real vectors *)
Definition row_dot (u v : list R) : R :=
  Rsum (map (fun p => fst p * snd p) (combine u v)).

(** [X[:, j]] *)
Definition slice_column {A : Type} (d : A) (j : nat) (f : frame A) : result (list A) :=
  if (j <? ncols f)%nat then Ok (column d j f)
  else Raise (IndexError j 1 (ncols f)).

(** [X.T] *)
Definition transpose (f : frame R) : frame R :=
  Frame (nrows f) (map (fun j => column 0 j f) (seq 0 (ncols f))).

(** [l[i]] on a Python list *)
Definition getitem {A : Type} (l : list A) (i : nat) : result A :=
  match nth_error l i with
  | Some a => Ok a
  | None => Raise (IndexError i 0 (List.length l))
  end.

(** Mean and population variance ([ddof=0]) of column [j], for at least
    one row *)
Definition col_mean (f : frame R) (j : nat) : R :=
  Rsum (column 0 j f) / INR (nrows f).

Definition col_var (f : frame R) (j : nat) : R :=
  Rsum (map (fun x => (x - col_mean f j) * (x - col_mean f j)) (column 0 j f))
  / INR (nrows f).

(** [np.mean(X, axis=0)] *)
Definition mean_axis0 (f : frame R) : list R :=
  map (col_mean f) (seq 0 (ncols f)).

(** [np.var(X, axis=0)] *)
Definition var_axis0 (f : frame R) : list R :=
  map (col_var f) (seq 0 (ncols f)).

(** [X - v] and [X / v], the vector broadcast over the rows *)
Definition sub_rows (f : frame R) (v : list R) : frame R :=
  Frame (ncols f) (map (fun r => map (fun p => fst p - snd p) (combine r v)) (rows f)).

Definition div_rows (f : frame R) (v : list R) : frame R :=
  Frame (ncols f) (map (fun r => map (fun p => fst p / snd p) (combine r v)) (rows f)).

Definition mul_rows (f : frame R) (v : list R) : frame R :=
  Frame (ncols f) (map (fun r => map (fun p => fst p * snd p) (combine r v)) (rows f)).

(** [np.linalg.norm(M, axis=0)]: the Euclidean norm of every column *)
Definition norm_axis0 (f : frame R) : list R :=
  map (fun j => sqrt (Rsum (map (fun x => x * x) (column 0 j f)))) (seq 0 (ncols f)).


(** Inner product of a row of cells with a real vector *)
Definition dot1 (r : list npfloat) (v : list R) : npfloat :=
  sum (map (fun p => mul (fst p) (Fin (snd p))) (combine r v)).

(** [A.dot(B)] for 2-D arrays; the inner dimensions must agree. *)
Definition dot (a : frame npfloat) (b : frame R) : result (frame npfloat) :=
  if (ncols a =? nrows b)%nat then
    Ok (Frame (ncols b)
          (map (fun r => map (fun k => dot1 r (column 0 k b)) (seq 0 (ncols b)))
               (rows a)))
  else Raise (ValueError "shapes not aligned").

Definition rtol : R := 1 / 100000.
Definition atol : R := 1 / 100000000.

(** [np.isclose(a, b)] with the default tolerances, [b] finite *)
Definition isclose (a : npfloat) (b : R) : bool :=
  match a with
  | Fin x => Rleb (Rabs (x - b)) (atol + rtol * Rabs b)
  | _ => false
  end.

Fixpoint all2 {A B : Type} (p : A -> B -> bool) (l : list A) (m : list B) : bool :=
  match l, m with
  | [], [] => true
  | a :: l', b :: m' => p a b && all2 p l' m'
  | _, _ => false
  end.

(** [np.allclose(a, b)] for arrays of one shape (broadcasting between
    different shapes is not modelled: numpy's error for shapes that do not
    broadcast is raised for all of them). *)
Definition allclose (a : frame npfloat) (b : frame R) : result bool :=
  if ((nrows a =? nrows b) && (ncols a =? ncols b))%nat then
    Ok (all2 (all2 isclose) (rows a) (rows b))
  else Raise (ValueError "operands could not be broadcast together").

(** Round half to even, as [round] and [np.round] do. *)
Definition round_half_even (x : R) : Z :=
  let f := Int_part x in
  let d := x - IZR f in
  if Rltb d (1 / 2) then f
  else if Rltb (1 / 2) d then (f + 1)%Z
  else if Z.even f then f else (f + 1)%Z.

(** [np.rint] *)
Definition rint (x : npfloat) : npfloat :=
  match x with
  | Fin r => Fin (IZR (round_half_even r))
  | other => other
  end.

(** [round(x, ndigits)] on a float64 scalar, which is [np.round]: [rint]
    for zero digits; otherwise multiply by the power of ten, [rint] and
    divide, or divide, [rint] and multiply for negative digits.  The power
    of ten is a float64 itself: from [10^309] on it is an infinity and the
    result is NaN. *)
Definition round (x : npfloat) (ndigits : Z) : npfloat :=
  if (ndigits =? 0)%Z then rint x
  else
    let f := float64 (powerRZ 10 (Z.abs ndigits)) in
    if (0 <? ndigits)%Z then in_range (div (rint (in_range (mul x f))) f)
    else in_range (mul (rint (in_range (div x f))) f).

End Np.

Import Np.

(** ** Events of a run *)

(** The table read by [pd.read_csv(..., index_col=0)]: sample labels, the
    [color] column and the numeric feature columns. *)
Record DataFrame : Type := {
  index : list string;
  color : list string;
  columns : list string;
  data : frame R
}.

(** What the script prints or writes; number formatting is not modelled:
    a printed line or an axis label carries the number handed to the
    formatter. *)
Inductive shown : Type :=
| Text (s : string)
| DataTable (df : DataFrame)
| Cells (f : frame npfloat)
| Norms (l : list R)
| PcLine (name : string) (percent : npfloat)
| LoadingsTable (names features : list string) (values : frame R).

(** [SaveFig] carries the name of the file that was written. *)
Inductive event : Type :=
| Print (x : shown)
| WriteFile (path : string) (content : list shown)
| Scatter (label : string) (rgb : list pyfloat) (coords : list R)
| AxisLabel (axis : string) (percent : npfloat)
| SaveFig (path : string)
| ShowFigures.

(** A computation that emits events and then returns or raises; the events
    emitted before an exception stay. *)
Definition io (A : Type) : Type := (list event * result A)%type.

Definition ret {A : Type} (a : A) : io A := ([], Ok a).
Definition emit (e : event) : io unit := ([e], Ok tt).
Definition lift {A : Type} (r : result A) : io A := ([], r).

Definition bind {A B : Type} (m : io A) (k : A -> io B) : io B :=
  match m with
  | (ev, inl e) => (ev, inl e)
  | (ev, inr a) => let '(ev', r) := k a in ((ev ++ ev')%list, r)
  end.

Declare Scope io_scope.
Delimit Scope io_scope with io.
Notation "x <- m ;; k" := (bind m (fun x => k))
  (at level 61, m at next level, right associativity) : io_scope.
Notation "' pat <- m ;; k" := (bind m (fun x => let 'pat := x in k))
  (at level 61, pat pattern, m at next level, right associativity) : io_scope.
Notation "m ;; k" := (bind m (fun _ => k))
  (at level 61, right associativity) : io_scope.

(** A [for] loop whose body is an [io] action. *)
Fixpoint for_each {A : Type} (l : list A) (body : A -> io unit) : io unit :=
  match l with
  | [] => ret tt
  | a :: l' => bind (body a) (fun _ => for_each l' body)
  end.

(** The files a run has written. *)
Definition written (ev : list event) : list string :=
  flat_map (fun e => match e with
                     | WriteFile p _ => [p]
                     | SaveFig p => [p]
                     | _ => []
                     end) ev.

(** What a run leaves behind, read off its events with [f]. *)
Definition observe {A : Type} (f : event -> list A) (ev : list event) : list A :=
  flat_map f ev.

(** The figures a run has saved, the number of times it has shown the
    figures, and the labels of the points it has drawn. *)
Definition saved_figures (ev : list event) : list string :=
  observe (fun e => match e with SaveFig p => [p] | _ => [] end) ev.

Definition shown_figures (ev : list event) : nat :=
  List.length (observe (fun e => match e with ShowFigures => [tt] | _ => [] end) ev).

Definition scatter_labels (ev : list event) : list string :=
  observe (fun e => match e with Scatter l _ _ => [l] | _ => [] end) ev.

(** ** matplotlib *)

(** What matplotlib checks when a point is drawn and when a figure is
    saved; rendering is not modelled. *)
Module Mpl.

Local Open Scope string_scope.

(** A colour component that [colors.to_rgba] lets pass: not below 0 and not
    above 1.  NaN fails neither comparison. *)
Definition channel_ok (x : pyfloat) : bool :=
  match x with
  | PFin q => Qle_bool 0 q && Qle_bool q 1
  | PNaN => true
  | PPosInf | PNegInf => false
  end.

(** A list of numbers is a colour when it has three or four components,
    all of them in range. *)
Definition is_rgba (c : list pyfloat) : bool :=
  ((List.length c =? 3) || (List.length c =? 4))%nat && forallb channel_ok c.

(** [ax.scatter(..., label=label, color=rgb)]: the colour is validated
    before the point is added to the axes. *)
Definition scatter (label : string) (rgb : list pyfloat) (coords : list R) : io unit :=
  if is_rgba rgb then emit (Scatter label rgb coords)
  else lift (Raise (ValueError ("'color' kwarg must be a color or sequence of color specs.  "
                               ++ "For a sequence of values to be color-mapped, use the 'c' "
                               ++ "argument instead."))).

(** The suffix of [s] that starts at its last [c]. *)
Fixpoint last_from (c : ascii) (s : string) : option string :=
  match s with
  | EmptyString => None
  | String d s' =>
      match last_from c s' with
      | Some t => Some t
      | None => if Ascii.eqb d c then Some s else None
      end
  end.

(** [os.path.basename(p)] *)
Definition basename (p : string) : string :=
  match last_from "/" p with
  | Some (String _ t) => t
  | _ => p
  end.

Fixpoint lstrip_dots (s : string) : string :=
  match s with
  | String c s' => if Ascii.eqb c "." then lstrip_dots s' else s
  | EmptyString => EmptyString
  end.

(** [s.rstrip('.')] *)
Fixpoint rstrip_dots (s : string) : string :=
  match s with
  | EmptyString => EmptyString
  | String c s' =>
      match rstrip_dots s' with
      | EmptyString => if Ascii.eqb c "." then EmptyString else String c EmptyString
      | t => String c t
      end
  end.

(** [os.path.splitext(p)[1]]: the last path component from its last dot
    on, the leading dots of the component not counting. *)
Definition extension (p : string) : string :=
  match last_from "." (lstrip_dots (basename p)) with
  | Some e => e
  | None => EmptyString
  end.

(** The formats the Agg canvas writes. *)
Definition supported_filetypes : list string :=
  ["eps"; "jpeg"; "jpg"; "pdf"; "pgf"; "png"; "ps"; "raw"; "rgba"; "svg"; "svgz";
   "tif"; "tiff"; "webp"].

(** The file that [savefig(fname)] writes.  The format is the extension of
    the name in lower case; a name without one gets [.png] appended, and a
    format the canvas cannot write is a [ValueError], raised before any
    file is opened (its message, which quotes the format and lists the
    supported ones, is abridged here). *)
Definition output_file (fname : string) : result string :=
  match extension fname with
  | EmptyString | String _ EmptyString => Ok (rstrip_dots fname ++ ".png")
  | String _ format =>
      if existsb (String.eqb (PyFloat.lower_str format)) supported_filetypes
      then Ok fname
      else Raise (ValueError "Format is not supported")
  end.

(** [fig.savefig(fname)] *)
Definition savefig (fname : string) : io unit :=
  match output_file fname with
  | inl e => lift (inl e)
  | inr file => emit (SaveFig file)
  end.

End Mpl.

(** Colour strings as the script expects them: colon-separated runs of
    digits ([digit_text]), three or four of them and none above 255
    ([rgb_text]). *)
Definition digit_text (c : string) : bool :=
  forallb PyFloat.int_token (PyStr.split ":" c).

Definition rgb_text (c : string) : bool :=
  ((List.length (PyStr.split ":" c) =? 3) || (List.length (PyStr.split ":" c) =? 4))%nat
  && forallb (fun t => PyFloat.int_token t && (PyFloat.horner 0 t <=? 255)%Z)
             (PyStr.split ":" c).

(** The files that saving a figure under [pngPath] and its legend leaves:
    none when the first [savefig] raises, one when the second does. *)
Definition figure_files (pngPath : string) : list string :=
  match Mpl.output_file pngPath with
  | inl _ => []
  | inr f =>
      f :: match Mpl.output_file (PyStr.replace pngPath ".png" "_legend.png") with
           | inl _ => []
           | inr g => [g]
           end
  end.

(** ** scikit-learn *)

Module Sklearn.

Local Open Scope R_scope.

Fixpoint finite_row (r : list npfloat) : option (list R) :=
  match r with
  | [] => Some []
  | Fin x :: r' => option_map (cons x) (finite_row r')
  | _ :: _ => None
  end.

Fixpoint finite_rows (m : list (list npfloat)) : option (list (list R)) :=
  match m with
  | [] => Some []
  | r :: m' =>
      match finite_row r, finite_rows m' with
      | Some x, Some xs => Some (x :: xs)
      | _, _ => None
      end
  end.

(** [check_array]'s shape requirements, with its defaults
    [ensure_min_samples=1] and [ensure_min_features=1] *)
Definition check_shape {A : Type} (X : frame A) : result unit :=
  if (nrows X <? 1)%nat then Raise (ValueError "Found array with 0 sample(s)")
  else if (ncols X <? 1)%nat then Raise (ValueError "Found array with 0 feature(s)")
  else Ok tt.

(** [check_array(X)]: every cell finite, then the shape *)
Definition check_array (X : frame npfloat) : result (frame R) :=
  match finite_rows (rows X) with
  | None => Raise (ValueError "Input contains NaN, infinity or a value too large")
  | Some m =>
      match check_shape X with
      | inl e => inl e
      | inr _ => Ok (Frame (ncols X) m)
      end
  end.

(** [StandardScaler]'s divisor: the population standard deviation, with a
    zero replaced by one ([_handle_zeros_in_scale]) *)
Definition scale_of_var (v : R) : R :=
  if Reqb (sqrt v) 0 then 1 else sqrt v.

(** [StandardScaler().fit_transform(X)] *)
Definition StandardScaler_fit_transform (X : frame R) : result (frame R) :=
  match check_shape X with
  | inl e => inl e
  | inr _ =>
      let mean_ := mean_axis0 X in
      let scale_ := map scale_of_var (var_axis0 X) in
      Ok (div_rows (sub_rows X mean_) scale_)
  end.

(** What [linalg.svd(X, full_matrices=False)] and [svd_flip] hand back. *)
Record SVD : Type := { svd_U : frame R; svd_S : list R; svd_Vt : frame R }.

(** The fitted attributes of a [PCA] object that the script reads. *)
Record PCA : Type := {
  mean_ : list R;
  components_ : frame R;
  explained_variance_ : list npfloat;
  explained_variance_ratio_ : list npfloat
}.

Section Decomposition.

(** The LAPACK routine behind [PCA]: deterministic, and not part of this
    repository. *)
Variable svd : frame R -> SVD.

(** [PCA._fit_full] on a validated array, with the default
    [n_components=None]: all [min(n_samples, n_features)] components are
    kept.  Returns the fitted object and [U * S], the scores.

    The variances [S ** 2 / (n_samples - 1)] and their total are kept in
    the range of float64: a square that overflows is an infinity, and a
    variance that underflows is zero.  The terms of the total are not
    negative, so the order of the summation does not matter for either.  A
    ratio is at most 1 and is not divided by; its underflow is a rounding
    error like any other. *)
Definition PCA_fit_full (Xv : frame R) : PCA * frame R :=
  let n_samples := nrows Xv in
  let n_components := Nat.min n_samples (ncols Xv) in
  let mean := mean_axis0 Xv in
  let d := svd (sub_rows Xv mean) in
  let variance :=
    map (fun s => Np.in_range (Np.div (Np.float64 (s * s)) (Fin (INR n_samples - 1))))
        (svd_S d) in
  let total_var := Np.in_range (Np.sum variance) in
  let ratio := map (fun v => Np.div v total_var) variance in
  let Uk := Frame (Nat.min n_components (ncols (svd_U d)))
                  (map (firstn n_components) (rows (svd_U d))) in
  ({| mean_ := mean;
      components_ := Frame (ncols (svd_Vt d)) (firstn n_components (rows (svd_Vt d)));
      explained_variance_ := firstn n_components variance;
      explained_variance_ratio_ := firstn n_components ratio |},
   mul_rows Uk (firstn n_components (svd_S d))).

(** [PCA().fit_transform(X)] *)
Definition PCA_fit_transform (X : frame npfloat) : result (PCA * frame R) :=
  match check_array X with
  | inl e => inl e
  | inr Xv => Ok (PCA_fit_full Xv)
  end.

End Decomposition.

End Sklearn.

Import Sklearn.

(** ** What the decomposition routine guarantees *)

(** [X - X.mean(axis=0)] *)
Definition centered (X : frame R) : frame R := sub_rows X (mean_axis0 X).

(** The contract of [linalg.svd(X, full_matrices=False)] in exact
    arithmetic, for an [N] by [P] array and [K = min(N, P)]: [U] is [N] by
    [K], [S] has [K] entries, [Vt] is [K] by [P]; the rows of [Vt] are
    orthonormal; the singular values are non-negative and in descending
    order; and [X = U diag(S) Vt]. *)
Record svd_spec (X : frame R) (d : SVD) : Prop := {
  spec_U_wf : wf (svd_U d);
  spec_U_rows : nrows (svd_U d) = nrows X;
  spec_U_cols : ncols (svd_U d) = Nat.min (nrows X) (ncols X);
  spec_S_length : List.length (svd_S d) = Nat.min (nrows X) (ncols X);
  spec_Vt_wf : wf (svd_Vt d);
  spec_Vt_rows : nrows (svd_Vt d) = Nat.min (nrows X) (ncols X);
  spec_Vt_cols : ncols (svd_Vt d) = ncols X;
  spec_Vt_orthonormal :
    forall k l, (k < Nat.min (nrows X) (ncols X))%nat ->
                (l < Nat.min (nrows X) (ncols X))%nat ->
                row_dot (row (svd_Vt d) k) (row (svd_Vt d) l)
                = if (k =? l)%nat then 1%R else 0%R;
  spec_S_nonneg :
    forall k, (k < Nat.min (nrows X) (ncols X))%nat -> (0 <= nth k (svd_S d) 0)%R;
  spec_S_descending :
    forall k, (k + 1 < Nat.min (nrows X) (ncols X))%nat ->
              (nth (k + 1) (svd_S d) 0 <= nth k (svd_S d) 0)%R;
  spec_factorisation :
    forall i j, (i < nrows X)%nat -> (j < ncols X)%nat ->
                cell X i j
                = bigsum (Nat.min (nrows X) (ncols X))
                    (fun l => cell (svd_U d) i l * nth l (svd_S d) 0
                              * cell (svd_Vt d) l j)%R
}.

(** The variance [s ** 2 / (n_samples - 1)] of a component as float64
    holds it when the square does not overflow: zero when it underflows. *)
Definition variance_of (n_samples : nat) (s : R) : R :=
  if Rleb (s * s / (INR n_samples - 1)) too_small then 0%R
  else (s * s / (INR n_samples - 1))%R.

(** ** The script *)

Section Script.

Variable svd : frame R -> SVD.

Local Open Scope io_scope.

Definition nl : string := String (ascii_of_nat 10) EmptyString.

(** [str(n)] for a natural number *)
Definition str_nat (n : nat) : string := NilEmpty.string_of_uint (Nat.to_uint n).

(** [str(b)] for a boolean *)
Definition str_bool (b : bool) : string := if b then "True" else "False".

(** The parsed command line ([argparse.Namespace]).  [--rounded] is an
    integer that fits a C [int], which is what [round] takes. *)
Record Namespace : Type := {
  arg_csvPath : string;
  arg_rounded : option Z;
  arg_proj3D : bool;
  arg_save : bool;
  arg_std : bool;
  arg_log : bool
}.

(** [parsing], after [parser.parse_args()]: an absent or zero [--rounded]
    is zero. *)
Definition parsing (args : Namespace) : string * Z * bool * bool * bool * bool :=
  let rounded :=
    match arg_rounded args with
    | Some r => if (r =? 0)%Z then 0%Z else r
    | None => 0%Z
    end in
  (arg_csvPath args, rounded, arg_proj3D args, arg_save args, arg_std args, arg_log args).

(** [main], lines 34-40: the requested transformation and the renamed path. *)
Definition apply_transformation (fl_std fl_log : bool) (csvPath : string)
    (dfData : frame R) : result (string * frame npfloat) :=
  if fl_std then
    match StandardScaler_fit_transform dfData with
    | inl e => inl e
    | inr scaled => Ok (PyStr.replace csvPath ".csv" "-std.csv", fmap Fin scaled)
    end
  else if fl_log then
    Ok (PyStr.replace csvPath ".csv" "-log.csv", fmap Np.log dfData)
  else Ok (csvPath, fmap Fin dfData).

(** [np.linalg.norm(pca.components_.T, axis=0)] *)
Definition coeffVectorNorms (pca : PCA) : list R :=
  norm_axis0 (transpose (components_ pca)).

(** [getPCA]: fit, print the norms of the coefficient vectors, fit again
    and print whether the raw table times the transposed components is
    close to the new scores; return scores, variance ratios and
    components. *)
Definition getPCA (dfData : frame npfloat) : io (frame R * list npfloat * frame R) :=
  '(pca, X_r) <- lift (PCA_fit_transform svd dfData) ;;
  emit (Print (Text "Variance of PCs, check if equal to 1")) ;;
  emit (Print (Norms (coeffVectorNorms pca))) ;;
  projected <- lift (dot dfData (transpose (components_ pca))) ;;
  '(pca', X_r') <- lift (PCA_fit_transform svd dfData) ;;
  dotProduct <- lift (allclose projected X_r') ;;
  emit (Print (Text ("PCs can be calculated as dot product of loadings and"
                     ++ " original values: " ++ str_bool dotProduct))) ;;
  ret (X_r, explained_variance_ratio_ pca', components_ pca').

Definition dataTitle : string := nl ++ "## Data table ##" ++ nl.
Definition pcTitle : string := nl ++ "## Principal Components ##" ++ nl.
Definition loadTitle : string := nl ++ "## Loadings ##" ++ nl.

(** [displaySaveLog]: print the tables and, with the save flag, write the
    loadings and the report next to the input. *)
Definition displaySaveLog (csvPath : string) (df : DataFrame) (dfData : frame npfloat)
    (PCs : list npfloat) (loadings : frame R) (features : list string)
    (fl_save fl_std fl_log : bool) : io unit :=
  emit (Print (Text dataTitle)) ;;
  emit (Print (DataTable df)) ;;
  emit (Print (Text (nl ++ "## Transformed data ##" ++ nl))) ;;
  (if fl_std then emit (Print (Text "Standardised"))
   else if fl_log then emit (Print (Text "Logarithmic"))
   else ret tt) ;;
  emit (Print (Cells dfData)) ;;
  emit (Print (Text pcTitle)) ;;
  let PC_names := map (fun i => "PC" ++ str_nat (i + 1)) (seq 0 (List.length PCs)) in
  let pcLines :=
    map (fun p => PcLine (fst p) (Np.round (Np.mul (Fin 100) (snd p)) 6))
        (combine PC_names PCs) in
  for_each pcLines (fun l => emit (Print l)) ;;
  (* pd.DataFrame(loadings, index=PC_names, columns=features) *)
  loadingsDf <-
    lift (if ((nrows loadings =? List.length PC_names)
              && (ncols loadings =? List.length features))%nat
          then Ok (LoadingsTable PC_names features loadings)
          else Raise (ValueError "Shape of passed values")) ;;
  emit (Print (Text loadTitle)) ;;
  emit (Print loadingsDf) ;;
  if fl_save then
    emit (WriteFile (PyStr.replace csvPath ".csv" "_loadings.csv") [loadingsDf]) ;;
    emit (WriteFile (PyStr.replace csvPath ".csv" "_info.txt")
            ([Text dataTitle; DataTable df; Text pcTitle] ++ pcLines
             ++ [Text loadTitle; loadingsDf])%list)
  else ret tt.

(** [plotPCA]: one scatter call per sample on the first two or three score
    columns, the axis labels, then save or show the figure and its legend.
    The arguments of [zip] are evaluated from left to right. *)
Definition plotPCA (proj3D : bool) (X_r : frame R) (PCs : list npfloat)
    (ligs colors : list string) (csvPath : string) (fl_save : bool) : io unit :=
  pngPath <-
    (if proj3D then
       xs <- lift (slice_column 0%R 0 X_r) ;;
       ys <- lift (slice_column 0%R 1 X_r) ;;
       zs <- lift (slice_column 0%R 2 X_r) ;;
       for_each (combine ligs (combine colors (combine xs (combine ys zs))))
         (fun t =>
            let '(label, (col, (x, (y, z)))) := t in
            newCol <- lift (makeColor col) ;;
            Mpl.scatter label newCol [x; y; z]) ;;
       pc1 <- lift (getitem PCs 0) ;; emit (AxisLabel "PC1" pc1) ;;
       pc2 <- lift (getitem PCs 1) ;; emit (AxisLabel "PC2" pc2) ;;
       pc3 <- lift (getitem PCs 2) ;; emit (AxisLabel "PC3" pc3) ;;
       ret (PyStr.replace csvPath ".csv" "_3D.png")
     else
       xs <- lift (slice_column 0%R 0 X_r) ;;
       ys <- lift (slice_column 0%R 1 X_r) ;;
       for_each (combine ligs (combine colors (combine xs ys)))
         (fun t =>
            let '(label, (col, (x, y))) := t in
            newCol <- lift (makeColor col) ;;
            Mpl.scatter label newCol [x; y]) ;;
       pc1 <- lift (getitem PCs 0) ;; emit (AxisLabel "PC1" pc1) ;;
       pc2 <- lift (getitem PCs 1) ;; emit (AxisLabel "PC2" pc2) ;;
       ret (PyStr.replace csvPath ".csv" "_2D.png")) ;;
  if fl_save then
    emit (Print (Text (nl ++ "SAVING figures" ++ nl))) ;;
    Mpl.savefig pngPath ;;
    Mpl.savefig (PyStr.replace pngPath ".png" "_legend.png")
  else
    emit (Print (Text (nl ++ "SHOWING figures" ++ nl))) ;;
    emit ShowFigures.

(** [main], with the table already read by [pd.read_csv]. *)
Definition main (args : Namespace) (df : DataFrame) : io unit :=
  let '(csvPath, rounded, proj3D, fl_save, fl_std, fl_log) := parsing args in
  let colors := color df in
  let samples := index df in
  let features := columns df in
  '(csvPath, dfData) <- lift (apply_transformation fl_std fl_log csvPath (data df)) ;;
  '(X_r, PCs, loadings) <- getPCA dfData ;;
  displaySaveLog csvPath df dfData PCs loadings features fl_save fl_std fl_log ;;
  let PCs_round := map (fun pc => Np.round (Np.mul (Fin 100) pc) rounded) PCs in
  plotPCA proj3D X_r PCs_round samples colors csvPath fl_save.

End Script.

(** ** Names the specification gives to the output files *)

(** The suffix the specification attaches to the base name. *)
Definition spec_suffix (fl_std fl_log : bool) : string :=
  if fl_std then "-std" else if fl_log then "-log" else "".

(** The derived names as the specification words them: base name, suffix
    of the applied transformation, derived-name part. *)
Definition spec_derived_names (base : string) (fl_std fl_log proj3D : bool) : list string :=
  let stem := base ++ spec_suffix fl_std fl_log in
  [stem ++ "_loadings.csv";
   stem ++ "_info.txt";
   stem ++ (if proj3D then "_3D.png" else "_2D.png");
   stem ++ (if proj3D then "_3D_legend.png" else "_2D_legend.png")].

(** ** A worked data set *)

Module Demo.

Local Open Scope R_scope.

(** Four samples, two features; column means 3 and 5. *)
Definition table : frame R :=
  Frame 2 [[5; 6]; [5; 4]; [1; 6]; [1; 4]].

Definition df : DataFrame :=
  {| index := ["a"; "b"; "c"; "d"];
     color := ["255:0:0"; "0:128:255"; "0:0:0"; "10:20:30"];
     columns := ["f1"; "f2"];
     data := table |}.

(** The decomposition of a centred table of the shape
    [[a, b], [a, -b], [-a, b], [-a, -b]] with [a >= b >= 0]: singular values
    [2a] and [2b], axes the coordinate axes. *)
Definition svd (X : frame R) : SVD :=
  {| svd_U := Frame 2 [[1/2; 1/2]; [1/2; -1/2]; [-1/2; 1/2]; [-1/2; -1/2]];
     svd_S := [2 * cell X 0 0; 2 * cell X 0 1];
     svd_Vt := Frame 2 [[1; 0]; [0; 1]] |}.

Definition args (path : string) (proj3D save std log : bool) : Namespace :=
  {| arg_csvPath := path; arg_rounded := None; arg_proj3D := proj3D;
     arg_save := save; arg_std := std; arg_log := log |}.

(** A decomposition of an all-zero table that has a single row or a single
    column: one singular value, zero. *)
Definition svd_zero (X : frame R) : SVD :=
  {| svd_U := Frame 1 (map (fun i => [if (i =? 0)%nat then 1 else 0])
                           (seq 0 (nrows X)));
     svd_S := [0];
     svd_Vt := Frame (ncols X)
                 [map (fun j => if (j =? 0)%nat then 1 else 0) (seq 0 (ncols X))] |}.

Definition single_sample : frame R := Frame 2 [[1; 2]].

(** The worked table after centring, and after standardising. *)
Definition centred_table : frame R :=
  Frame 2 [[2; 1]; [2; -1]; [-2; 1]; [-2; -1]].
Definition standardised_table : frame R :=
  Frame 2 [[1; 1]; [1; -1]; [-1; 1]; [-1; -1]].

(** [pca_analysis.py data.csv -std -save], and the same on [data.tsv], on
    [p.png.csv] and on [data] *)
Definition std_save : Namespace := args "data.csv" false true true false.
Definition std_save_tsv : Namespace := args "data.tsv" false true true false.
Definition std_save_bare : Namespace := args "data" false true true false.

End Demo.

(** * Properties *)

Unset Implicit Arguments.

(** Evaluates the cells of a concrete table down to real arithmetic. *)
Ltac real_cells :=
  cbv -[Rplus Rminus Rmult Rdiv Rinv Ropp sqrt INR IZR Rabs ln
        Rle_dec Rlt_dec Req_dec_T Int_part powerRZ Rle Rlt Rge Rgt
        pow too_large too_small normal_max normal_min moderate];
  simpl INR; try lra.

(** Runs the script on concrete data, leaving real arithmetic alone. *)
Ltac run_script :=
  cbv -[Rplus Rminus Rmult Rdiv Rinv Ropp sqrt INR IZR Rabs ln
        Rle_dec Rlt_dec Req_dec_T Int_part powerRZ pow too_large too_small
        normal_max normal_min moderate].

(** ** [str.replace] on paths *)

Section ReplaceFacts.

Import PyStr.

Lemma startswith_refl (p : string) : startswith p p = true.
Proof.
  induction p as [|c p IH]; simpl; [reflexivity|].
  rewrite Ascii.eqb_refl. exact IH.
Qed.

Lemma get_char_in (n : nat) (s : string) (d : ascii) :
  String.get n s = Some d -> char_in d s = true.
Proof.
  revert n. induction s as [|c s IH]; intros n H; simpl in *; [discriminate|].
  destruct n as [|n].
  - inversion H; subst. rewrite Ascii.eqb_refl. reflexivity.
  - rewrite (IH _ H). apply orb_true_r.
Qed.

(** A match that runs past the end of [x] has the next character at that
    place. *)
Lemma startswith_app_inv (p x : string) (d : ascii) (y : string) :
  startswith p (x ++ String d y) = true ->
  startswith p x = true \/ String.get (String.length x) p = Some d.
Proof.
  revert x. induction p as [|a p IH]; intros x H; simpl in *.
  - left; reflexivity.
  - destruct x as [|c x]; simpl in *.
    + apply andb_prop in H as [Ha _]. apply Ascii.eqb_eq in Ha. subst.
      right; reflexivity.
    + apply andb_prop in H as [Ha Hp]. rewrite Ha. simpl.
      destruct (IH _ Hp) as [Hq | Hg]; [left | right]; assumption.
Qed.

Lemma startswith_app_fresh (p x : string) (d : ascii) (y : string) :
  startswith p x = false -> char_in d p = false ->
  startswith p (x ++ String d y) = false.
Proof.
  intros Hx Hd. destruct (startswith p (x ++ String d y)) eqn:E; [|reflexivity].
  destruct (startswith_app_inv _ _ _ _ E) as [H | H].
  - congruence.
  - apply get_char_in in H. congruence.
Qed.

Lemma occurs_cons (p : string) (c : ascii) (s : string) :
  occurs p (String c s) = startswith p (String c s) || occurs p s.
Proof. reflexivity. Qed.

(** Appending text that starts with a character foreign to the pattern
    creates no new match across the seam. *)
Lemma occurs_app_fresh (p base : string) (d : ascii) (y : string) :
  occurs p base = false -> occurs p (String d y) = false ->
  char_in d p = false ->
  occurs p (base ++ String d y) = false.
Proof.
  intros Hb Hy Hd. induction base as [|c b IH].
  - exact Hy.
  - rewrite occurs_cons in Hb. apply orb_false_elim in Hb as [H1 H2].
    change (String c b ++ String d y) with (String c (b ++ String d y)).
    rewrite occurs_cons. apply orb_false_intro.
    + apply (startswith_app_fresh p (String c b)); assumption.
    + apply IH; exact H2.
Qed.

Lemma replace_from_skip_all (old new : string) (k : nat) (s : string) :
  (String.length s <= k)%nat -> replace_from old new k s = EmptyString.
Proof.
  revert k. induction s as [|c s IH]; intros k H; simpl in *; [reflexivity|].
  destruct k as [|k]; [lia|]. apply IH. lia.
Qed.

Lemma append_empty_r (s : string) : s ++ EmptyString = s.
Proof. induction s as [|c s IH]; simpl; congruence. Qed.

Lemma append_assoc (a b c : string) : (a ++ b) ++ c = a ++ (b ++ c).
Proof. induction a as [|x a IH]; simpl; congruence. Qed.

(** The pattern at the end of a text that holds no other match, the
    pattern's first character not reappearing in it, is the only thing
    replaced. *)
Lemma replace_suffix (d : ascii) (rest new base : string) :
  char_in d rest = false ->
  occurs (String d rest) base = false ->
  replace (base ++ String d rest) (String d rest) new = base ++ new.
Proof.
  intros Hd Hb. unfold replace. induction base as [|c b IH].
  - change (EmptyString ++ String d rest) with (String d rest).
    cbn [replace_from]. rewrite startswith_refl.
    rewrite replace_from_skip_all by (simpl; lia).
    simpl. apply append_empty_r.
  - rewrite occurs_cons in Hb. apply orb_false_elim in Hb as [H1 H2].
    change (String c b ++ String d rest) with (String c (b ++ String d rest)).
    cbn [replace_from].
    assert (Hs : startswith (String d rest) (String c (b ++ String d rest)) = false).
    { destruct (startswith (String d rest) (String c (b ++ String d rest))) eqn:E;
        [|reflexivity].
      destruct (startswith_app_inv (String d rest) (String c b) d rest E) as [H | H].
      - congruence.
      - simpl in H. apply get_char_in in H. congruence. }
    rewrite Hs. rewrite (IH H2). reflexivity.
Qed.

(** A text without the pattern is left alone. *)
Lemma replace_absent (d : ascii) (rest new s : string) :
  occurs (String d rest) s = false ->
  replace s (String d rest) new = s.
Proof.
  intros H. unfold replace. induction s as [|c s IH]; [reflexivity|].
  rewrite occurs_cons in H. apply orb_false_elim in H as [H1 H2].
  cbn [replace_from]. rewrite H1, (IH H2). reflexivity.
Qed.

End ReplaceFacts.

(** ** Events of composed actions *)

Section IoFacts.

Lemma written_app (a b : list event) : written (a ++ b)%list = (written a ++ written b)%list.
Proof. unfold written. apply flat_map_app. Qed.

Lemma fst_bind {A B : Type} (m : io A) (k : A -> io B) :
  fst (bind m k) =
  (fst m ++ match snd m with inr a => fst (k a) | inl _ => [] end)%list.
Proof.
  destruct m as [ev [e | a]]; simpl.
  - symmetry; apply app_nil_r.
  - destruct (k a); reflexivity.
Qed.

Lemma snd_bind {A B : Type} (m : io A) (k : A -> io B) :
  snd (bind m k) = match snd m with inr a => snd (k a) | inl e => inl e end.
Proof.
  destruct m as [ev [e | a]]; simpl; [reflexivity|].
  destruct (k a); reflexivity.
Qed.

Lemma written_bind {A B : Type} (m : io A) (k : A -> io B) :
  written (fst (bind m k)) =
  (written (fst m)
   ++ match snd m with inr a => written (fst (k a)) | inl _ => [] end)%list.
Proof.
  rewrite fst_bind, written_app. destruct (snd m); reflexivity.
Qed.

Lemma for_each_print_ok (l : list shown) :
  snd (for_each l (fun x => emit (Print x))) = Ok tt.
Proof.
  induction l as [|x l IH]; [reflexivity|].
  cbn [for_each]. rewrite snd_bind. exact IH.
Qed.

Lemma for_each_print_written (l : list shown) :
  written (fst (for_each l (fun x => emit (Print x)))) = [].
Proof.
  induction l as [|x l IH]; [reflexivity|].
  cbn [for_each]. rewrite written_bind. simpl. exact IH.
Qed.

(** A loop writes no file when its body writes none. *)
Lemma for_each_written {A : Type} (l : list A) (body : A -> io unit) :
  (forall a, written (fst (body a)) = []) ->
  written (fst (for_each l body)) = [].
Proof.
  intros Hb. induction l as [|x l IH]; [reflexivity|].
  cbn [for_each]. rewrite written_bind, Hb. simpl.
  destruct (snd (body x)); [reflexivity | exact IH].
Qed.

End IoFacts.

Ltac io_simpl :=
  repeat first
    [ rewrite written_bind
    | rewrite snd_bind
    | rewrite for_each_print_written
    | rewrite for_each_print_ok
    | progress cbn [lift emit ret fst snd written flat_map app Ok Raise is_ok] ].

Section ScriptFiles.

Variable svd : frame R -> SVD.

Lemma getPCA_written (dfData : frame npfloat) :
  written (fst (getPCA svd dfData)) = [].
Proof.
  unfold getPCA. io_simpl.
  destruct (PCA_fit_transform svd dfData) as [e | [pca X_r]]; [reflexivity|].
  io_simpl.
  destruct (dot dfData (transpose (components_ pca))) as [e | pr]; [reflexivity|].
  io_simpl.
  destruct (allclose pr X_r) as [e | b]; reflexivity.
Qed.

(** [displaySaveLog] writes its two files exactly when it is asked to save
    and the loadings table can be built. *)
Lemma displaySaveLog_written csvPath df dfData PCs loadings features fl_save fl_std fl_log :
  written (fst (displaySaveLog csvPath df dfData PCs loadings features
                  fl_save fl_std fl_log)) =
  if fl_save && is_ok (snd (displaySaveLog csvPath df dfData PCs loadings features
                              fl_save fl_std fl_log))
  then [PyStr.replace csvPath ".csv" "_loadings.csv";
        PyStr.replace csvPath ".csv" "_info.txt"]
  else [].
Proof.
  unfold displaySaveLog.
  destruct fl_std, fl_log; io_simpl;
    (destruct ((nrows loadings =? _)%nat && _); io_simpl;
     [destruct fl_save; reflexivity | rewrite andb_false_r; reflexivity]).
Qed.

(** One pass of the scatter loop writes no file. *)
Lemma point_written (label col : string) (coords : list R) :
  written (fst (bind (lift (makeColor col))
                     (fun newCol => Mpl.scatter label newCol coords))) = [].
Proof.
  io_simpl. destruct (makeColor col) as [e | c]; [reflexivity|].
  unfold Mpl.scatter. destruct (Mpl.is_rgba c); reflexivity.
Qed.

Lemma scatter2_written (l : list (string * (string * (R * R)))) :
  written (fst (for_each l (fun t =>
     let '(label, (col, (x, y))) := t in
     bind (lift (makeColor col)) (fun newCol => Mpl.scatter label newCol [x; y])))) = [].
Proof.
  apply for_each_written. intros [label [col [x y]]]. apply point_written.
Qed.

Lemma scatter3_written (l : list (string * (string * (R * (R * R))))) :
  written (fst (for_each l (fun t =>
     let '(label, (col, (x, (y, z)))) := t in
     bind (lift (makeColor col)) (fun newCol => Mpl.scatter label newCol [x; y; z])))) = [].
Proof.
  apply for_each_written. intros [label [col [x [y z]]]]. apply point_written.
Qed.

Ltac plot_step :=
  match goal with
  | |- context [slice_column ?d ?j ?X] => destruct (slice_column d j X)
  | |- context [getitem ?l ?i] => destruct (getitem l i)
  | |- context [snd (for_each ?l ?f)] => destruct (snd (for_each l f))
  | |- context [Mpl.output_file ?p] => destruct (Mpl.output_file p)
  | H : inl _ = inr _ |- _ => discriminate H
  | H : inr _ = inr _ |- _ => inversion H; clear H
  end.

(** Without the save flag [plotPCA] writes nothing; with it, what it has
    written is nothing or the figures. *)
Lemma plotPCA_written proj3D X_r PCs ligs colors csvPath fl_save :
  written (fst (plotPCA proj3D X_r PCs ligs colors csvPath fl_save)) = []
  \/ (fl_save = true
      /\ written (fst (plotPCA proj3D X_r PCs ligs colors csvPath fl_save))
         = figure_files
             (PyStr.replace csvPath ".csv" (if proj3D then "_3D.png" else "_2D.png"))).
Proof.
  unfold plotPCA, figure_files, Mpl.savefig.
  destruct proj3D; io_simpl;
    rewrite ?scatter3_written, ?scatter2_written;
    repeat (plot_step; io_simpl;
            rewrite ?scatter3_written, ?scatter2_written;
            try (left; reflexivity));
    destruct fl_save; io_simpl;
    try (left; reflexivity);
    repeat (plot_step; io_simpl); right; split; reflexivity.
Qed.

Lemma plotPCA_unsaved proj3D X_r PCs ligs colors csvPath :
  written (fst (plotPCA proj3D X_r PCs ligs colors csvPath false)) = [].
Proof.
  destruct (plotPCA_written proj3D X_r PCs ligs colors csvPath false) as [H | [H _]];
    [exact H | discriminate H].
Qed.

(** A plot that completes with the save flag has saved both figures. *)
Lemma plotPCA_written_ok proj3D X_r PCs ligs colors csvPath :
  snd (plotPCA proj3D X_r PCs ligs colors csvPath true) = Ok tt ->
  exists f g,
    Mpl.output_file
      (PyStr.replace csvPath ".csv" (if proj3D then "_3D.png" else "_2D.png")) = Ok f
    /\ Mpl.output_file
         (PyStr.replace
            (PyStr.replace csvPath ".csv" (if proj3D then "_3D.png" else "_2D.png"))
            ".png" "_legend.png") = Ok g
    /\ written (fst (plotPCA proj3D X_r PCs ligs colors csvPath true)) = [f; g].
Proof.
  unfold plotPCA, Mpl.savefig.
  destruct proj3D; io_simpl;
    rewrite ?scatter3_written, ?scatter2_written;
    repeat (plot_step; io_simpl;
            rewrite ?scatter3_written, ?scatter2_written;
            try discriminate);
    intros _; do 2 eexists; repeat split; reflexivity.
Qed.

Lemma main_written (args : Namespace) (df : DataFrame) :
  written (fst (main svd args df)) =
  match apply_transformation (arg_std args) (arg_log args) (arg_csvPath args) (data df) with
  | inl _ => []
  | inr (csvPath, dfData) =>
      match snd (getPCA svd dfData) with
      | inl _ => []
      | inr (X_r, PCs, loadings) =>
          let shown := displaySaveLog csvPath df dfData PCs loadings (columns df)
                         (arg_save args) (arg_std args) (arg_log args) in
          (written (fst shown)
           ++ match snd shown with
              | inl _ => []
              | inr _ =>
                  written (fst (plotPCA (arg_proj3D args) X_r
                                  (map (fun pc => Np.round (Np.mul (Fin 100) pc)
                                                    (snd (fst (fst (fst (fst (parsing args)))))))
                                       PCs)
                                  (index df) (color df) csvPath (arg_save args)))
              end)%list
      end
  end.
Proof.
  unfold main, parsing. cbn [fst snd]. io_simpl.
  destruct (apply_transformation _ _ _ _) as [e | [csvPath dfData]]; [reflexivity|].
  io_simpl. rewrite getPCA_written. cbn [app].
  destruct (snd (getPCA svd dfData)) as [e | [[X_r PCs] loadings]]; [reflexivity|].
  io_simpl. reflexivity.
Qed.

Lemma main_ok_inv (args : Namespace) (df : DataFrame) :
  snd (main svd args df) = Ok tt ->
  exists csvPath dfData X_r PCs loadings,
    apply_transformation (arg_std args) (arg_log args) (arg_csvPath args) (data df)
      = Ok (csvPath, dfData)
    /\ snd (getPCA svd dfData) = Ok (X_r, PCs, loadings)
    /\ snd (displaySaveLog csvPath df dfData PCs loadings (columns df)
              (arg_save args) (arg_std args) (arg_log args)) = Ok tt
    /\ snd (plotPCA (arg_proj3D args) X_r
              (map (fun pc => Np.round (Np.mul (Fin 100) pc)
                                (snd (fst (fst (fst (fst (parsing args))))))) PCs)
              (index df) (color df) csvPath (arg_save args)) = Ok tt.
Proof.
  unfold main, parsing. cbn [fst snd]. io_simpl.
  destruct (apply_transformation _ _ _ _) as [e | [csvPath dfData]] eqn:Et;
    [discriminate|].
  io_simpl.
  destruct (snd (getPCA svd dfData)) as [e | [[X_r PCs] loadings]] eqn:Eg;
    [discriminate|].
  io_simpl.
  destruct (snd (displaySaveLog _ _ _ _ _ _ _ _ _)) as [e | []] eqn:Ed; [discriminate|].
  intros H. exists csvPath, dfData, X_r, PCs, loadings. repeat split; assumption.
Qed.

End ScriptFiles.

(** ** Precedence of the two transformations *)


(** ** The file a figure is saved to *)

Section FigureFiles.

Import Mpl.







End FigureFiles.

(** ** Names of the output files *)

Section Names.

Import PyStr.

Lemma occurs_stem (p base : string) (fl_std fl_log : bool) :
  occurs p base = false ->
  occurs p "-std" = false -> occurs p "-log" = false -> char_in "-" p = false ->
  occurs p (base ++ spec_suffix fl_std fl_log) = false.
Proof.
  intros Hb Hs Hl Hc. unfold spec_suffix.
  destruct fl_std; [apply occurs_app_fresh; assumption|].
  destruct fl_log; [apply occurs_app_fresh; assumption|].
  rewrite append_empty_r. exact Hb.
Qed.


Lemma derived_csv_name (stem new : string) :
  occurs ".csv" stem = false ->
  replace (stem ++ ".csv") ".csv" new = stem ++ new.
Proof. intros H. apply (replace_suffix "." "csv" new stem eq_refl H). Qed.

Lemma derived_legend_name (stem dim : string) :
  occurs ".png" (stem ++ dim) = false ->
  replace (stem ++ dim ++ ".png") ".png" "_legend.png" = stem ++ dim ++ "_legend.png".
Proof.
  intros H. rewrite <- !append_assoc.
  apply (replace_suffix "." "png" "_legend.png" (stem ++ dim) eq_refl H).
Qed.

Lemma stem_names (base : string) (fl_std fl_log proj3D : bool) :
  occurs ".csv" base = false -> occurs ".png" base = false ->
  let stem := base ++ spec_suffix fl_std fl_log in
  let png := replace (stem ++ ".csv") ".csv" (if proj3D then "_3D.png" else "_2D.png") in
  [replace (stem ++ ".csv") ".csv" "_loadings.csv";
   replace (stem ++ ".csv") ".csv" "_info.txt";
   png;
   replace png ".png" "_legend.png"]
  = spec_derived_names base fl_std fl_log proj3D.
Proof.
  intros Hc Hp stem png. unfold spec_derived_names. fold stem.
  assert (Hsc : occurs ".csv" stem = false)
    by (apply occurs_stem; [assumption | reflexivity ..]).
  assert (Hsp : occurs ".png" stem = false)
    by (apply occurs_stem; [assumption | reflexivity ..]).
  assert (Hpng : png = stem ++ (if proj3D then "_3D.png" else "_2D.png"))
    by (apply derived_csv_name; exact Hsc).
  rewrite Hpng, !derived_csv_name by exact Hsc.
  repeat f_equal.
  destruct proj3D.
  - apply (derived_legend_name stem "_3D").
    apply occurs_app_fresh; [assumption | reflexivity ..].
  - apply (derived_legend_name stem "_2D").
    apply occurs_app_fresh; [assumption | reflexivity ..].
Qed.


End Names.


Lemma append_inj_l (s a b : string) : s ++ a = s ++ b -> a = b.
Proof.
  induction s as [|c s IH]; simpl; intros H; [exact H|].
  inversion H. auto.
Qed.




(** ** [makeColor] *)

Section ColorFacts.

Import PyStr PyFloat.

Lemma digit_not_colon (c : ascii) : is_digit c = true -> Ascii.eqb c ":" = false.
Proof. destruct c as [[] [] [] [] [] [] [] []]; intros H; try discriminate H; reflexivity. Qed.

Lemma digit_not_space (c : ascii) : is_digit c = true -> is_space c = false.
Proof. destruct c as [[] [] [] [] [] [] [] []]; intros H; try discriminate H; reflexivity. Qed.

Lemma digit_no_sign (c : ascii) (s : string) :
  is_digit c = true -> scan_sign (String c s) = (false, String c s).
Proof. destruct c as [[] [] [] [] [] [] [] []]; intros H; try discriminate H; reflexivity. Qed.

Lemma digit_no_name (c : ascii) (s : string) :
  is_digit c = true ->
  ((lower_str (String c s) =? "inf") || (lower_str (String c s) =? "infinity") = false
   /\ (lower_str (String c s) =? "nan") = false)%string.
Proof.
  destruct c as [[] [] [] [] [] [] [] []]; intros H; try discriminate H;
    split; reflexivity.
Qed.

Lemma digit_val_nonneg (c : ascii) : (0 <= digit_val c)%Z.
Proof. unfold digit_val. lia. Qed.

Lemma horner_nonneg (s : string) (acc : Z) : (0 <= acc)%Z -> (0 <= horner acc s)%Z.
Proof.
  revert acc. induction s as [|c s IH]; intros acc H; simpl; [exact H|].
  apply IH. pose proof (digit_val_nonneg c). lia.
Qed.

Lemma lstrip_digits (s : string) : int_token s = true -> lstrip s = s.
Proof.
  destruct s as [|c s]; [discriminate|]. simpl. intros H.
  apply andb_prop in H as [Hc _]. rewrite (digit_not_space c Hc). reflexivity.
Qed.

Lemma rstrip_digits (s : string) : all_digits s = true -> rstrip s = s.
Proof.
  induction s as [|c s IH]; [reflexivity|]. simpl. intros H.
  apply andb_prop in H as [Hc Hs]. rewrite (IH Hs).
  destruct s; [rewrite (digit_not_space c Hc)|]; reflexivity.
Qed.

Lemma scan_digits_all (s : string) (acc : Z) (cnt : nat) :
  all_digits s = true ->
  scan_digits acc cnt s = (horner acc s, (cnt + String.length s)%nat, EmptyString).
Proof.
  revert acc cnt. induction s as [|c s IH]; intros acc cnt H; simpl in *.
  - rewrite Nat.add_0_r. reflexivity.
  - apply andb_prop in H as [Hc Hs]. rewrite Hc, (IH _ _ Hs).
    f_equal. f_equal. lia.
Qed.

(** Whether a rational equal to the integer [n] is too large for float64. *)
Lemma overflows_integer (q : Q) (n : Z) :
  (q == inject_Z n)%Q -> overflows q = (overflow_bound <=? n)%Z.
Proof.
  intros Hq. unfold overflows.
  destruct (Z.leb_spec overflow_bound n) as [H | H].
  - apply Qle_bool_iff. rewrite Hq. rewrite <- Zle_Qle. exact H.
  - destruct (Qle_bool (inject_Z overflow_bound) q) eqn:E; [|reflexivity].
    apply Qle_bool_iff in E. rewrite Hq in E. rewrite <- Zle_Qle in E. lia.
Qed.

(** A run of digits is read as the integer it spells, or as an infinity
    when that integer is too large for float64. *)
Lemma py_float_digits (t : string) :
  int_token t = true ->
  exists q,
    (q == inject_Z (horner 0 t))%Q
    /\ py_float t = if (overflow_bound <=? horner 0 t)%Z then Some PPosInf
                    else Some (PFin q).
Proof.
  intros Ht. pose proof Ht as Hall.
  destruct t as [|c t]; [discriminate|].
  assert (Hc : is_digit c = true) by (simpl in Ht; apply andb_prop in Ht; tauto).
  unfold py_float, strip. rewrite (lstrip_digits _ Ht), (rstrip_digits _ Hall).
  rewrite (digit_no_sign c t Hc).
  destruct (digit_no_name c t Hc) as [-> ->].
  unfold scan_number. rewrite (scan_digits_all _ 0 0 Hall).
  cbn [String.length Nat.add Nat.eqb scan_exponent].
  match goal with
  | |- context [overflows ?q] =>
      exists q; assert (Hq : (q == inject_Z (horner 0 (String c t)))%Q)
  end.
  { rewrite Qred_correct. cbn [Z.of_nat Z.sub Z.opp Qpower Z.pow].
    unfold inject_Z, Qmult, Qeq. simpl Qnum. simpl Qden. lia. }
  split; [exact Hq|]. rewrite (overflows_integer _ _ Hq). reflexivity.
Qed.

Lemma digits_no_colon (t : string) : all_digits t = true -> char_in ":" t = false.
Proof.
  induction t as [|c t IH]; [reflexivity|]. cbn [all_digits char_in]. intros H.
  apply andb_prop in H as [Hc Ht]. rewrite (IH Ht), orb_false_r.
  rewrite Ascii.eqb_sym. apply digit_not_colon; exact Hc.
Qed.

Lemma split_nonempty (sep : ascii) (s : string) : split sep s <> [].
Proof.
  induction s as [|c s IH]; simpl; [discriminate|].
  destruct (Ascii.eqb c sep); [discriminate|].
  destruct (split sep s); discriminate.
Qed.

Lemma split_no_sep (sep : ascii) (t : string) :
  char_in sep t = false -> split sep t = [t].
Proof.
  induction t as [|c t IH]; [reflexivity|]. simpl. intros H.
  apply orb_false_elim in H as [Hc Ht]. rewrite Ascii.eqb_sym, Hc, (IH Ht).
  reflexivity.
Qed.

Lemma split_app (sep : ascii) (t s : string) :
  char_in sep t = false -> split sep (t ++ String sep s) = t :: split sep s.
Proof.
  induction t as [|c t IH]; simpl; intros H.
  - rewrite Ascii.eqb_refl. reflexivity.
  - apply orb_false_elim in H as [Hc Ht]. rewrite Ascii.eqb_sym, Hc, (IH Ht).
    reflexivity.
Qed.

(** Splitting undoes joining when no token holds the separator. *)
Lemma split_join (toks : list string) :
  toks <> [] -> Forall (fun t => char_in ":" t = false) toks ->
  split ":" (join ":" toks) = toks.
Proof.
  induction toks as [|t toks IH]; intros Hne Hall; [congruence|].
  inversion Hall as [|? ? Ht Hrest]; subst.
  destruct toks as [|t2 toks].
  - simpl. apply split_no_sep; exact Ht.
  - change (join ":" (t :: t2 :: toks)) with (t ++ String ":" (join ":" (t2 :: toks))).
    rewrite (split_app ":" t _ Ht), IH; [reflexivity | discriminate | exact Hrest].
Qed.

Lemma channel_of_token (t : string) :
  int_token t = true -> (horner 0 t < overflow_bound)%Z ->
  match py_float t with
  | None => Raise (ValueError "could not convert string to float")
  | Some x => Ok (div255 x)
  end = Ok (PFin (channel t)).
Proof.
  intros Ht Hlt. destruct (py_float_digits t Ht) as (q & Hq & ->).
  destruct (Z.leb_spec overflow_bound (horner 0 t)); [lia|].
  unfold div255, channel. do 2 f_equal. apply Qred_complete. rewrite Hq. reflexivity.
Qed.

(** A digit run too large for float64 gives an infinite component. *)
Lemma huge_token (t : string) :
  int_token t = true -> (overflow_bound <= horner 0 t)%Z ->
  makeColor t = Ok [PPosInf].
Proof.
  intros Ht Hge. unfold makeColor.
  rewrite split_no_sep by (apply digits_no_colon; destruct t; [discriminate | exact Ht]).
  cbn [comprehension].
  destruct (py_float_digits t Ht) as (q & _ & ->).
  destruct (Z.leb_spec overflow_bound (horner 0 t)); [reflexivity | lia].
Qed.

Lemma comprehension_map {A B : Type} (f : A -> result B) (g : A -> B) (l : list A) :
  Forall (fun a => f a = Ok (g a)) l -> comprehension f l = Ok (map g l).
Proof.
  induction 1 as [|a l Ha _ IH]; [reflexivity|].
  simpl. rewrite Ha. unfold Ok in *. rewrite IH. reflexivity.
Qed.

Lemma comprehension_ok {A B : Type} (f : A -> result B) (l : list A) :
  is_ok (comprehension f l) = forallb (fun a => is_ok (f a)) l.
Proof.
  induction l as [|a l IH]; [reflexivity|]. simpl.
  destruct (f a); [reflexivity|]. simpl. rewrite <- IH.
  destruct (comprehension f l); reflexivity.
Qed.

Lemma forallb_pointwise {A : Type} (f g : A -> bool) (l : list A) :
  (forall a, f a = g a) -> forallb f l = forallb g l.
Proof. intros H. induction l as [|a l IH]; simpl; [reflexivity | rewrite H, IH; reflexivity]. Qed.

Lemma comprehension_length {A B : Type} (f : A -> result B) (l : list A) (bs : list B) :
  comprehension f l = Ok bs -> List.length bs = List.length l.
Proof.
  revert bs. induction l as [|a l IH]; intros bs; simpl.
  - intros H; inversion H; reflexivity.
  - destruct (f a); [discriminate|].
    destruct (comprehension f l) as [e | bs']; [discriminate|].
    intros H; inversion H; subst. simpl. f_equal. apply IH. reflexivity.
Qed.

Lemma channel_range (t : string) :
  (horner 0 t <= 255)%Z -> (0 <= channel t /\ channel t <= 1)%Q.
Proof.
  intros Hle. pose proof (horner_nonneg t 0 (Z.le_refl 0)) as Hge.
  unfold channel. rewrite Qred_correct.
  unfold Qle, Qdiv, Qmult, Qinv, inject_Z. simpl. lia.
Qed.

End ColorFacts.

(** C7 (amended). For a colour string made of one or more colon-separated
    runs of ASCII decimal digits, each spelling a number that float64 can
    hold, [makeColor] returns one component per token, the token's value
    divided by 255; neither the number of tokens nor their range is
    checked, and a digit run too large for float64 gives an infinite
    component.  Three tokens in [0,255] therefore give a triple with every
    component in [0,1], and ["255:0:0"] gives [(1.0, 0.0, 0.0)].  On ASCII
    text [makeColor] raises exactly when [float] rejects one of the
    tokens, and a result has as many components as the string has
    tokens. *)
Theorem C7_makeColor :
  (forall toks : list string,
      toks <> [] ->
      Forall (fun t => PyFloat.int_token t = true
                       /\ (PyFloat.horner 0 t < PyFloat.overflow_bound)%Z) toks ->
      makeColor (PyStr.join ":" toks) = Ok (map (fun t => PFin (channel t)) toks))
  /\ (forall t : string,
        PyFloat.int_token t = true ->
        (PyFloat.overflow_bound <= PyFloat.horner 0 t)%Z ->
        makeColor t = Ok [PPosInf])
  /\ (forall r g b : string,
        PyFloat.int_token r = true -> PyFloat.int_token g = true ->
        PyFloat.int_token b = true ->
        (PyFloat.horner 0 r <= 255)%Z -> (PyFloat.horner 0 g <= 255)%Z ->
        (PyFloat.horner 0 b <= 255)%Z ->
        makeColor (r ++ ":" ++ g ++ ":" ++ b)
          = Ok [PFin (channel r); PFin (channel g); PFin (channel b)]
        /\ Forall (fun q => 0 <= q /\ q <= 1)%Q [channel r; channel g; channel b])
  /\ makeColor "255:0:0" = Ok [PFin 1; PFin 0; PFin 0]
  /\ (forall s : string,
        PyStr.is_ascii s = true ->
        is_ok (makeColor s)
        = forallb (fun t => match PyFloat.py_float t with
                            | Some _ => true
                            | None => false
                            end) (PyStr.split ":" s))
  /\ (forall (s : string) (l : list pyfloat),
        makeColor s = Ok l -> List.length l = List.length (PyStr.split ":" s)).
Proof.
  assert (Hgen : forall toks : list string,
             toks <> [] ->
             Forall (fun t => PyFloat.int_token t = true
                              /\ (PyFloat.horner 0 t < PyFloat.overflow_bound)%Z) toks ->
             makeColor (PyStr.join ":" toks) = Ok (map (fun t => PFin (channel t)) toks)).
  { intros toks Hne Hall. unfold makeColor.
    rewrite split_join.
    - apply comprehension_map.
      eapply Forall_impl; [|exact Hall]. intros t [Ht Hlt].
      apply channel_of_token; assumption.
    - exact Hne.
    - eapply Forall_impl; [|exact Hall]. intros t [Ht _].
      apply digits_no_colon. destruct t; [discriminate | exact Ht]. }
  assert (Hsmall : forall n : Z, (n <= 255)%Z -> (n < PyFloat.overflow_bound)%Z).
  { intros n Hn. apply (Z.le_lt_trans _ 255); [exact Hn | reflexivity]. }
  split; [exact Hgen|]. split; [exact huge_token|]. split; [|split; [|split]].
  - intros r g b Hr Hg Hb Lr Lg Lb. split.
    + apply (Hgen [r; g; b]); [discriminate | repeat constructor; auto].
    + repeat constructor; try (apply channel_range; assumption).
  - vm_compute. reflexivity.
  - intros s _. unfold makeColor. rewrite comprehension_ok.
    apply forallb_pointwise. intros t. destruct (PyFloat.py_float t); reflexivity.
  - intros s l H. unfold makeColor in H. apply comprehension_length in H. exact H.
Qed.

Lemma C7_makeColor_witness :
  makeColor "0:128:255"
    = Ok [PFin (channel "0"); PFin (channel "128"); PFin (channel "255")]
  /\ Forall (fun q => 0 <= q /\ q <= 1)%Q [channel "0"; channel "128"; channel "255"].
Proof.
  apply (proj1 (proj2 (proj2 C7_makeColor)) "0" "128" "255");
    try reflexivity; vm_compute; discriminate.
Defined.

(** Two tokens, four tokens and a token above 255 are all accepted. *)
Lemma C7_counterexample :
  makeColor "1:2" = Ok [PFin (1 # 255); PFin (2 # 255)]
  /\ makeColor "1:2:3:4" = Ok [PFin (1 # 255); PFin (2 # 255); PFin (1 # 85); PFin (4 # 255)]
  /\ makeColor "300:0:0" = Ok [PFin (20 # 17); PFin 0; PFin 0].
Proof. repeat split; vm_compute; reflexivity. Qed.

(** ** The 3-D projection *)

Section Projection.

Lemma slice_column_ok (X : frame R) (j : nat) :
  (j < ncols X)%nat -> slice_column 0%R j X = Ok (column 0%R j X).
Proof.
  intros H. unfold slice_column.
  destruct (Nat.ltb_spec j (ncols X)); [reflexivity | lia].
Qed.

Lemma slice_column_out (X : frame R) (j : nat) :
  (ncols X <= j)%nat -> slice_column 0%R j X = Raise (IndexError j 1 (ncols X)).
Proof.
  intros H. unfold slice_column.
  destruct (Nat.ltb_spec j (ncols X)); [lia | reflexivity].
Qed.

(** With fewer than three score columns the 3-D plot stops at the first
    column that is missing, before anything is drawn. *)
Lemma plot3D_short (X_r : frame R) PCs ligs colors csvPath fl_save :
  (ncols X_r < 3)%nat ->
  plotPCA true X_r PCs ligs colors csvPath fl_save
  = ([], Raise (IndexError (ncols X_r) 1 (ncols X_r))).
Proof.
  intros H. unfold plotPCA.
  destruct (ncols X_r) as [|[|[|k]]] eqn:E; [| | |lia].
  - rewrite (slice_column_out X_r 0) by lia. rewrite E. reflexivity.
  - rewrite (slice_column_ok X_r 0) by lia.
    rewrite (slice_column_out X_r 1) by lia. rewrite E. reflexivity.
  - rewrite (slice_column_ok X_r 0) by lia.
    rewrite (slice_column_ok X_r 1) by lia.
    rewrite (slice_column_out X_r 2) by lia. rewrite E. reflexivity.
Qed.

End Projection.

(** ** The log transform *)

Section LogTransform.

Lemma Rltb_true (x y : R) : (x < y)%R -> Rltb x y = true.
Proof. intros H. unfold Rltb. destruct (Rlt_dec x y); [reflexivity | contradiction]. Qed.

Lemma Rltb_false (x y : R) : (y <= x)%R -> Rltb x y = false.
Proof. intros H. unfold Rltb. destruct (Rlt_dec x y); [lra | reflexivity]. Qed.

Lemma Rleb_true (x y : R) : (x <= y)%R -> Rleb x y = true.
Proof. intros H. unfold Rleb. destruct (Rle_dec x y); [reflexivity | contradiction]. Qed.

Lemma Rleb_false (x y : R) : (y < x)%R -> Rleb x y = false.
Proof. intros H. unfold Rleb. destruct (Rle_dec x y); [lra | reflexivity]. Qed.

Lemma Reqb_true (x y : R) : x = y -> Reqb x y = true.
Proof. intros H. unfold Reqb. destruct (Req_dec_T x y); [reflexivity | contradiction]. Qed.

Lemma Reqb_false (x y : R) : x <> y -> Reqb x y = false.
Proof. intros H. unfold Reqb. destruct (Req_dec_T x y); [contradiction | reflexivity]. Qed.

Lemma log_positive (x : R) : (0 < x)%R -> Np.log x = Fin (ln x).
Proof.
  intros H. unfold Np.log. rewrite Rltb_false by lra. rewrite Reqb_false by lra.
  reflexivity.
Qed.

Lemma log_zero : Np.log 0 = NegInf.
Proof. unfold Np.log. rewrite Rltb_false by lra. rewrite Reqb_true; reflexivity. Qed.

Lemma log_negative (x : R) : (x < 0)%R -> Np.log x = NaN.
Proof. intros H. unfold Np.log. rewrite Rltb_true by lra. reflexivity. Qed.

Lemma log_not_finite (x : R) : (x <= 0)%R -> is_finite (Np.log x) = false.
Proof.
  intros [H | H]; [rewrite log_negative by exact H | subst; rewrite log_zero];
    reflexivity.
Qed.

Lemma finite_row_none (r : list npfloat) (x : npfloat) :
  In x r -> is_finite x = false -> finite_row r = None.
Proof.
  induction r as [|y r IH]; intros Hin Hx; [destruct Hin|].
  destruct Hin as [-> | Hin].
  - destruct x; [discriminate | reflexivity ..].
  - simpl. rewrite (IH Hin Hx). destruct y; reflexivity.
Qed.

Lemma finite_rows_none (m : list (list npfloat)) (r : list npfloat) :
  In r m -> finite_row r = None -> finite_rows m = None.
Proof.
  induction m as [|r' m IH]; intros Hin Hr; [destruct Hin|].
  destruct Hin as [-> | Hin]; simpl.
  - rewrite Hr. reflexivity.
  - rewrite (IH Hin Hr). destruct (finite_row r'); reflexivity.
Qed.

(** A cell at or below zero makes the transformed table fail scikit-learn's
    validation. *)
Lemma log_table_rejected (X : frame R) (r : list R) (x : R) :
  In r (rows X) -> In x r -> (x <= 0)%R ->
  check_array (fmap Np.log X) = Raise (ValueError "Input contains NaN, infinity or a value too large").
Proof.
  intros Hr Hx Hle. unfold check_array.
  rewrite (finite_rows_none (rows (fmap Np.log X)) (map Np.log r)); [reflexivity | |].
  - simpl. apply in_map. exact Hr.
  - apply (finite_row_none _ (Np.log x)); [apply in_map; exact Hx|].
    apply log_not_finite; exact Hle.
Qed.

Lemma map_ext_in_rows {A B : Type} (f g : A -> B) (m : list (list A)) :
  (forall r x, In r m -> In x r -> f x = g x) ->
  map (map f) m = map (map g) m.
Proof.
  intros H. apply map_ext_in. intros r Hr. apply map_ext_in. intros x Hx.
  apply (H r x Hr Hx).
Qed.

End LogTransform.

(** C4 (amended). The log-transform step never fails: it renames the path
    and applies [np.log] to every cell, which is the natural logarithm on a
    positive cell, minus infinity on a zero cell and NaN on a negative cell.
    A table with every cell positive is therefore mapped to its elementwise
    natural logarithm; a table with a cell at or below zero is handed on
    with the non-finite value in it, and the run then stops in [getPCA],
    where scikit-learn's input validation raises [ValueError] before anything
    is decomposed or printed. *)
Theorem C4_log_transform :
  forall (svd : frame R -> SVD) (path : string) (X : frame R),
    apply_transformation false true path X
      = Ok (PyStr.replace path ".csv" "-log.csv", fmap Np.log X)
    /\ ((forall r x, In r (rows X) -> In x r -> (0 < x)%R) ->
        fmap Np.log X = fmap (fun x => Fin (ln x)) X)
    /\ Np.log 0 = NegInf
    /\ (forall x, (x < 0)%R -> Np.log x = NaN)
    /\ (forall r x, In r (rows X) -> In x r -> (x <= 0)%R ->
        getPCA svd (fmap Np.log X)
        = ([], Raise (ValueError "Input contains NaN, infinity or a value too large"))).
Proof.
  intros svd path X. split; [reflexivity|]. split; [|split; [|split]].
  - intros Hpos. unfold fmap. f_equal.
    apply map_ext_in_rows. intros r x Hr Hx. apply log_positive. exact (Hpos r x Hr Hx).
  - exact log_zero.
  - exact log_negative.
  - intros r x Hr Hx Hle. unfold getPCA, PCA_fit_transform.
    rewrite (log_table_rejected X r x Hr Hx Hle). reflexivity.
Qed.

Lemma C4_log_transform_witness :
  getPCA Demo.svd (fmap Np.log (Frame 1 [[1]; [0]]%R))
  = ([], Raise (ValueError "Input contains NaN, infinity or a value too large")).
Proof.
  apply (proj2 (proj2 (proj2 (proj2
           (C4_log_transform Demo.svd "data.csv" (Frame 1 [[1]; [0]]%R)))))
           [0%R] 0%R).
  - simpl. right. left. reflexivity.
  - simpl. left. reflexivity.
  - lra.
Defined.

(** A zero and a negative cell: the step returns a table instead of
    failing. *)
Lemma C4_counterexample :
  apply_transformation false true "data.csv" (Frame 1 [[0]; [-1]]%R)
  = Ok ("data-log.csv", Frame 1 [[NegInf]; [NaN]]).
Proof.
  unfold apply_transformation, fmap. cbn [rows ncols map].
  rewrite log_zero, (log_negative (-1)) by lra. reflexivity.
Qed.

(** ** Standardisation *)

Section Standardisation.

Local Open Scope R_scope.

Lemma nth_map_seq {A : Type} (f : nat -> A) (n j : nat) (d : A) :
  (j < n)%nat -> nth j (map f (seq 0 n)) d = f j.
Proof.
  intros H. rewrite (nth_indep _ d (f 0%nat)) by (rewrite length_map, length_seq; exact H).
  rewrite (map_nth f (seq 0 n) 0%nat j), seq_nth by exact H. reflexivity.
Qed.

Lemma nth_map_in {A B : Type} (f : A -> B) (l : list A) (i : nat) (a : A) (b : B) :
  (i < List.length l)%nat -> nth i (map f l) b = f (nth i l a).
Proof.
  intros H. rewrite (nth_indep _ b (f a)) by (rewrite length_map; exact H).
  apply map_nth.
Qed.

Lemma nth_zip (g : R * R -> R) (r v : list R) (j : nat) :
  (j < List.length r)%nat -> (j < List.length v)%nat ->
  nth j (map g (combine r v)) 0 = g (nth j r 0, nth j v 0).
Proof.
  revert v j. induction r as [|a r IH]; intros v j Hr Hv; simpl in Hr; [lia|].
  destruct v as [|b v]; simpl in Hv; [lia|].
  destruct j as [|j]; [reflexivity|]. simpl. apply IH; lia.
Qed.

Lemma length_zip (g : R * R -> R) (r v : list R) :
  List.length r = List.length v -> List.length (map g (combine r v)) = List.length r.
Proof. intros H. rewrite length_map, length_combine, <- H. apply Nat.min_id. Qed.

Lemma wf_row (X : frame R) (i : nat) :
  wf X -> (i < nrows X)%nat -> List.length (nth i (rows X) []) = ncols X.
Proof.
  intros Hwf Hi. unfold wf in Hwf. rewrite Forall_forall in Hwf.
  apply Hwf. apply nth_In. exact Hi.
Qed.

Lemma column_nth (X : frame R) (i j : nat) :
  (i < nrows X)%nat -> nth i (column 0 j X) 0 = cell X i j.
Proof.
  intros Hi. unfold column, cell.
  apply (nth_map_in (fun r => nth j r 0) (rows X) i [] 0). exact Hi.
Qed.

Lemma length_column (X : frame R) (j : nat) : List.length (column 0 j X) = nrows X.
Proof. unfold column. apply length_map. Qed.

Lemma Rsum_const (l : list R) (c : R) :
  (forall i, (i < List.length l)%nat -> nth i l 0 = c) ->
  Rsum l = INR (List.length l) * c.
Proof.
  induction l as [|a l IH]; intros H.
  - simpl. lra.
  - change (Rsum (a :: l)) with (a + Rsum l).
    rewrite IH by (intros i Hi; apply (H (S i)); simpl; lia).
    assert (Ha : a = c) by (apply (H 0%nat); simpl; lia).
    change (List.length (a :: l)) with (S (List.length l)). rewrite S_INR, Ha. lra.
Qed.

Lemma col_mean_const (X : frame R) (j : nat) (c : R) :
  (1 <= nrows X)%nat ->
  (forall i, (i < nrows X)%nat -> cell X i j = c) ->
  col_mean X j = c.
Proof.
  intros HN Hc. unfold col_mean.
  rewrite (Rsum_const (column 0 j X) c).
  - rewrite length_column. field. apply not_0_INR. lia.
  - intros i Hi. rewrite length_column in Hi. rewrite column_nth by exact Hi.
    apply Hc; exact Hi.
Qed.

(** The cells of [(X - mean) / scale]. *)
Lemma scaled_cell (X : frame R) (mean scale : list R) (i j : nat) :
  wf X -> List.length mean = ncols X -> List.length scale = ncols X ->
  (i < nrows X)%nat -> (j < ncols X)%nat ->
  cell (div_rows (sub_rows X mean) scale) i j
  = (cell X i j - nth j mean 0) / nth j scale 0.
Proof.
  intros Hwf Hm Hs Hi Hj. unfold cell, div_rows, sub_rows. cbn [rows ncols].
  pose proof (wf_row X i Hwf Hi) as Hlen.
  rewrite map_map.
  rewrite (nth_map_in _ (rows X) i [] []) by exact Hi.
  rewrite nth_zip; [| rewrite length_zip; lia | lia].
  rewrite nth_zip by lia. reflexivity.
Qed.

End Standardisation.

(** C5 (amended). On a table with at least one row and one column the
    standardisation step never fails.  Every cell becomes the cell minus its
    column mean, divided by the column's scale: the population (ddof=0)
    standard deviation, or 1 when that standard deviation is 0.  A constant
    column, whose standard deviation is 0, therefore comes out as a column
    of zeros instead of raising an error. *)
Theorem C5_standardize :
  forall X : frame R,
    wf X -> (1 <= nrows X)%nat -> (1 <= ncols X)%nat ->
    exists Y : frame R,
      StandardScaler_fit_transform X = Ok Y
      /\ nrows Y = nrows X /\ ncols Y = ncols X
      /\ (forall i j, (i < nrows X)%nat -> (j < ncols X)%nat ->
            cell Y i j
            = ((cell X i j - col_mean X j) / scale_of_var (col_var X j))%R)
      /\ (forall v, sqrt v <> 0%R -> scale_of_var v = sqrt v)
      /\ (forall v, sqrt v = 0%R -> scale_of_var v = 1%R)
      /\ (forall j c, (j < ncols X)%nat ->
            (forall i, (i < nrows X)%nat -> cell X i j = c) ->
            forall i, (i < nrows X)%nat -> cell Y i j = 0%R).
Proof.
  intros X Hwf HN HP.
  assert (Hcell : forall i j, (i < nrows X)%nat -> (j < ncols X)%nat ->
            cell (div_rows (sub_rows X (mean_axis0 X)) (map scale_of_var (var_axis0 X))) i j
            = ((cell X i j - col_mean X j) / scale_of_var (col_var X j))%R).
  { intros i j Hi Hj.
    rewrite scaled_cell; try assumption.
    - unfold mean_axis0, var_axis0. rewrite map_map.
      rewrite !nth_map_seq by exact Hj. reflexivity.
    - unfold mean_axis0. rewrite length_map, length_seq. reflexivity.
    - unfold var_axis0. rewrite !length_map, length_seq. reflexivity. }
  eexists. split.
  - unfold StandardScaler_fit_transform, check_shape.
    destruct (Nat.ltb_spec (nrows X) 1); [lia|].
    destruct (Nat.ltb_spec (ncols X) 1); [lia|]. reflexivity.
  - split; [unfold nrows, div_rows, sub_rows; cbn [rows]; rewrite !length_map; reflexivity|].
    split; [reflexivity|]. split; [exact Hcell|].
    split; [intros v Hv; unfold scale_of_var; rewrite Reqb_false by exact Hv; reflexivity|].
    split; [intros v Hv; unfold scale_of_var; rewrite Reqb_true by exact Hv; reflexivity|].
    intros j c Hj Hconst i Hi.
    rewrite Hcell by assumption.
    rewrite (col_mean_const X j c HN Hconst), (Hconst i Hi).
    unfold Rdiv. rewrite Rminus_diag. apply Rmult_0_l.
Qed.

Lemma C5_standardize_witness :
  exists Y : frame R,
    StandardScaler_fit_transform Demo.table = Ok Y
    /\ nrows Y = 4%nat /\ ncols Y = 2%nat.
Proof.
  destruct (C5_standardize Demo.table) as (Y & HY & HN & HP & _).
  - unfold wf. simpl. repeat constructor.
  - unfold nrows. simpl. lia.
  - simpl. lia.
  - exists Y. repeat split; assumption.
Defined.

(** A constant column: the step returns a column of zeros instead of
    failing. *)
Lemma C5_counterexample :
  apply_transformation true false "data.csv" (Frame 1 [[1]; [1]]%R)
  = Ok ("data-std.csv", Frame 1 [[Fin 0]; [Fin 0]]).
Proof.
  cbv -[Rplus Rminus Rmult Rdiv Rinv Ropp sqrt INR IZR Rabs ln
        Rle_dec Rlt_dec Req_dec_T Int_part powerRZ scale_of_var].
  assert (H : (1 - (1 + (1 + 0)) / INR 2 = 0)%R) by (simpl INR; lra).
  rewrite !H. unfold Rdiv. rewrite !Rmult_0_l. reflexivity.
Qed.

(** ** Finite sums *)

Section Sums.

Local Open Scope R_scope.

Lemma Rsum_app (l m : list R) : Rsum (l ++ m)%list = Rsum l + Rsum m.
Proof.
  induction l as [|a l IH]; simpl.
  - lra.
  - fold (Rsum (l ++ m)%list). fold (Rsum l). rewrite IH. lra.
Qed.

Lemma bigsum_0 (f : nat -> R) : bigsum 0 f = 0.
Proof. reflexivity. Qed.

Lemma bigsum_S (n : nat) (f : nat -> R) : bigsum (S n) f = bigsum n f + f n.
Proof.
  unfold bigsum. rewrite seq_S, map_app, Rsum_app. simpl. lra.
Qed.

Lemma bigsum_ext (n : nat) (f g : nat -> R) :
  (forall i, (i < n)%nat -> f i = g i) -> bigsum n f = bigsum n g.
Proof.
  induction n as [|n IH]; intros H; [reflexivity|].
  rewrite !bigsum_S, IH, (H n) by (intros; try apply H; lia). reflexivity.
Qed.

Lemma bigsum_zero (n : nat) : bigsum n (fun _ => 0) = 0.
Proof. induction n as [|n IH]; [reflexivity|]. rewrite bigsum_S, IH. lra. Qed.

Lemma bigsum_plus (n : nat) (f g : nat -> R) :
  bigsum n (fun i => f i + g i) = bigsum n f + bigsum n g.
Proof. induction n as [|n IH]; [rewrite !bigsum_0; lra|]. rewrite !bigsum_S, IH. lra. Qed.

Lemma bigsum_minus (n : nat) (f g : nat -> R) :
  bigsum n (fun i => f i - g i) = bigsum n f - bigsum n g.
Proof. induction n as [|n IH]; [rewrite !bigsum_0; lra|]. rewrite !bigsum_S, IH. lra. Qed.

Lemma bigsum_scal (n : nat) (c : R) (f : nat -> R) :
  bigsum n (fun i => c * f i) = c * bigsum n f.
Proof. induction n as [|n IH]; [rewrite !bigsum_0; lra|]. rewrite !bigsum_S, IH. lra. Qed.

Lemma bigsum_swap (n m : nat) (f : nat -> nat -> R) :
  bigsum n (fun i => bigsum m (fun j => f i j))
  = bigsum m (fun j => bigsum n (fun i => f i j)).
Proof.
  induction n as [|n IH].
  - rewrite bigsum_0. symmetry. apply bigsum_zero.
  - rewrite bigsum_S, IH, <- bigsum_plus. apply bigsum_ext.
    intros j _. rewrite bigsum_S. reflexivity.
Qed.

(** A sum against an indicator picks one term. *)
Lemma bigsum_pick (n k : nat) (a : nat -> R) :
  (k < n)%nat ->
  bigsum n (fun l => a l * (if (l =? k)%nat then 1 else 0)) = a k.
Proof.
  induction n as [|n IH]; intros Hk; [lia|].
  rewrite bigsum_S. destruct (Nat.eq_dec k n) as [-> | Hne].
  - rewrite Nat.eqb_refl.
    rewrite (bigsum_ext n _ (fun _ => 0)).
    + rewrite bigsum_zero. lra.
    + intros i Hi. destruct (Nat.eqb_spec i n); [lia | lra].
  - rewrite IH by lia. destruct (Nat.eqb_spec n k); [lia | lra].
Qed.

Lemma bigsum_nonneg (n : nat) (f : nat -> R) :
  (forall i, (i < n)%nat -> 0 <= f i) -> 0 <= bigsum n f.
Proof.
  induction n as [|n IH]; intros H; [rewrite bigsum_0; lra|].
  rewrite bigsum_S. pose proof (H n ltac:(lia)).
  assert (0 <= bigsum n f) by (apply IH; intros; apply H; lia). lra.
Qed.

(** A list sums like its entries. *)
Lemma Rsum_bigsum (l : list R) :
  Rsum l = bigsum (List.length l) (fun i => nth i l 0).
Proof.
  induction l as [|a l IH] using rev_ind; [reflexivity|].
  rewrite Rsum_app, length_app, Nat.add_comm. cbn [List.length Nat.add].
  rewrite bigsum_S, app_nth2, Nat.sub_diag by lia. cbn [nth].
  rewrite IH. f_equal; [|simpl; lra].
  apply bigsum_ext. intros i Hi. rewrite app_nth1 by exact Hi. reflexivity.
Qed.

Lemma Rsum_map_seq (n : nat) (f : nat -> R) : Rsum (map f (seq 0 n)) = bigsum n f.
Proof. reflexivity. Qed.

Lemma row_dot_bigsum (u v : list R) (n : nat) :
  List.length u = n -> List.length v = n ->
  row_dot u v = bigsum n (fun j => nth j u 0 * nth j v 0).
Proof.
  intros Hu Hv. unfold row_dot. rewrite Rsum_bigsum.
  rewrite length_zip by congruence. rewrite Hu.
  apply bigsum_ext. intros j Hj. rewrite nth_zip by lia. reflexivity.
Qed.

End Sums.

(** ** Arrays *)

Section Arrays.

Local Open Scope R_scope.

Lemma frame_eta (f : frame R) : Frame (ncols f) (rows f) = f.
Proof. destruct f; reflexivity. Qed.

Lemma finite_rows_Fin (m : list (list R)) : finite_rows (map (map Fin) m) = Some m.
Proof.
  induction m as [|r m IH]; [reflexivity|]. cbn [map finite_rows]. rewrite IH.
  assert (Hr : finite_row (map Fin r) = Some r).
  { clear. induction r as [|x r IH]; [reflexivity|]. cbn [map finite_row].
    rewrite IH. reflexivity. }
  rewrite Hr. reflexivity.
Qed.

Lemma nrows_fmap {A B : Type} (g : A -> B) (f : frame A) : nrows (fmap g f) = nrows f.
Proof. unfold nrows, fmap. cbn [rows]. apply length_map. Qed.

Lemma firstn_rows_all {A : Type} (l : list A) (n : nat) :
  List.length l = n -> firstn n l = l.
Proof. intros <-. apply firstn_all. Qed.

Lemma map_id_in {A : Type} (f : A -> A) (l : list A) :
  (forall a, In a l -> f a = a) -> map f l = l.
Proof.
  intros H. induction l as [|a l IH]; [reflexivity|].
  simpl. rewrite H by (left; reflexivity). rewrite IH; [reflexivity|].
  intros b Hb. apply H. right. exact Hb.
Qed.

Lemma list_nth_ext (l : list R) (n : nat) :
  List.length l = n -> l = map (fun j => nth j l 0) (seq 0 n).
Proof.
  intros H. apply (nth_ext _ _ 0 0).
  - rewrite length_map, length_seq. exact H.
  - intros i Hi. rewrite nth_map_seq by lia. reflexivity.
Qed.

Lemma row_nth (f : frame R) (i j : nat) : nth j (row f i) 0 = cell f i j.
Proof. reflexivity. Qed.

Lemma length_row (f : frame R) (i : nat) :
  wf f -> (i < nrows f)%nat -> List.length (row f i) = ncols f.
Proof. apply wf_row. Qed.

(** Column [k] of a transpose is row [k]. *)
Lemma column_transpose (C : frame R) (k : nat) :
  wf C -> (k < nrows C)%nat -> column 0 k (transpose C) = row C k.
Proof.
  intros Hwf Hk. unfold column at 1, transpose. cbn [rows]. rewrite map_map.
  rewrite (list_nth_ext (row C k) (ncols C)) by (apply length_row; assumption).
  apply map_ext_in. intros j _. rewrite column_nth by exact Hk. reflexivity.
Qed.

Lemma dot1_Fin (r v : list R) : dot1 (map Fin r) v = Fin (row_dot r v).
Proof.
  unfold dot1, row_dot. revert v. induction r as [|a r IH]; intros v; [reflexivity|].
  destruct v as [|b v]; [reflexivity|].
  cbn [map combine Np.sum fold_right fst snd Rsum].
  fold (Np.sum (map (fun p => Np.mul (fst p) (Fin (snd p))) (combine (map Fin r) v))).
  rewrite IH. reflexivity.
Qed.

Lemma all2_nth {A B : Type} (p : A -> B -> bool) (l : list A) (m : list B) (da : A) (db : B) :
  List.length l = List.length m ->
  (all2 p l m = true <->
   forall i, (i < List.length l)%nat -> p (nth i l da) (nth i m db) = true).
Proof.
  revert m. induction l as [|a l IH]; intros [|b m] Hlen; simpl in Hlen; try lia.
  - simpl. split; [intros _ i Hi; lia | reflexivity].
  - cbn [all2]. rewrite andb_true_iff, (IH m) by lia. split.
    + intros [H0 Hs] [|i] Hi; [exact H0 | apply Hs; simpl in Hi; lia].
    + intros H. split; [apply (H 0%nat); simpl; lia|].
      intros i Hi. apply (H (S i)). simpl. lia.
Qed.

Lemma isclose_Fin (x b : R) :
  isclose (Fin x) b = true <-> Rabs (x - b) <= atol + rtol * Rabs b.
Proof.
  unfold isclose, Rleb. destruct (Rle_dec _ _); split; intros H;
    try reflexivity; try assumption; try discriminate; contradiction.
Qed.

End Arrays.

(** ** The range of float64 *)

Section FloatRange.

Local Open Scope R_scope.

Lemma too_large_Z : too_large = IZR (2 ^ 1024 - 2 ^ 970).
Proof. unfold too_large. rewrite !pow_IZR, <- minus_IZR. reflexivity. Qed.

Lemma too_small_Z : too_small = / IZR (2 ^ 1075).
Proof. unfold too_small. rewrite pow_IZR. reflexivity. Qed.


Lemma normal_min_Z : normal_min = / IZR (2 ^ 1022).
Proof. unfold normal_min. rewrite pow_IZR. reflexivity. Qed.

Lemma below_too_large (z : Z) : (z < 2 ^ 1024 - 2 ^ 970)%Z -> IZR z < too_large.
Proof. intros H. rewrite too_large_Z. apply IZR_lt. exact H. Qed.

Lemma above_too_large (z : Z) : (2 ^ 1024 - 2 ^ 970 <= z)%Z -> too_large <= IZR z.
Proof. intros H. rewrite too_large_Z. apply IZR_le. exact H. Qed.



Lemma too_small_pos : 0 < too_small.
Proof.
  rewrite too_small_Z. apply Rinv_0_lt_compat. apply (IZR_lt 0). reflexivity.
Qed.


Lemma normal_min_in_range : too_small < normal_min.
Proof.
  rewrite too_small_Z, normal_min_Z. apply Rinv_lt_contravar.
  - apply Rmult_lt_0_compat; apply (IZR_lt 0); reflexivity.
  - apply IZR_lt. reflexivity.
Qed.

Lemma normal_min_small : normal_min <= 1 / 4.
Proof.
  rewrite normal_min_Z. replace (1 / 4) with (/ IZR 4) by (simpl; lra).
  apply Rinv_le_contravar; [apply (IZR_lt 0); reflexivity | apply IZR_le; discriminate].
Qed.

Lemma too_small_small : too_small < 1 / 4.
Proof. pose proof normal_min_in_range. pose proof normal_min_small. lra. Qed.

Lemma too_large_big : 1 < too_large.
Proof. apply (below_too_large 1). reflexivity. Qed.

Lemma float64_normal (r : R) :
  too_small < Rabs r -> Rabs r < too_large -> float64 r = Fin r.
Proof.
  intros Hlo Hhi. unfold float64.
  rewrite Rleb_false by exact Hhi. rewrite Rleb_false by exact Hlo. reflexivity.
Qed.

Lemma float64_flush (r : R) : Rabs r <= too_small -> float64 r = Fin 0.
Proof.
  intros H. unfold float64. pose proof too_small_small. pose proof too_large_big.
  rewrite Rleb_false by lra. rewrite Rleb_true by exact H. reflexivity.
Qed.

Lemma float64_zero : float64 0 = Fin 0.
Proof. apply float64_flush. rewrite Rabs_R0. left. exact too_small_pos. Qed.

Lemma float64_inf (r : R) : too_large <= r -> float64 r = PosInf.
Proof.
  intros H. unfold float64. pose proof too_large_big.
  rewrite Rabs_pos_eq by lra. rewrite Rleb_true by exact H.
  rewrite Rltb_true by lra. reflexivity.
Qed.

(** A value that is zero or out of reach of underflow, and below the
    overflow bound, is kept as it is. *)
Lemma float64_keep (r : R) :
  0 <= r -> (r = 0 \/ too_small < r) -> r < too_large -> float64 r = Fin r.
Proof.
  intros H0 [-> | Hlo] Hhi; [apply float64_zero|].
  apply float64_normal; rewrite Rabs_pos_eq by exact H0; assumption.
Qed.

End FloatRange.

(** ** The fit *)

Section Fit.

Local Open Scope R_scope.

Variable svd : frame R -> SVD.
Variable Xr : frame R.

Hypothesis Xr_wf : wf Xr.
Hypothesis Xr_rows : (1 <= nrows Xr)%nat.
Hypothesis Xr_cols : (1 <= ncols Xr)%nat.
Hypothesis svd_ok : svd_spec (centered Xr) (svd (centered Xr)).

Let N := nrows Xr.
Let P := ncols Xr.
Let K := Nat.min N P.
Let d := svd (centered Xr).

#[local] Set Default Proof Using "All".

Lemma nrows_centered : nrows (centered Xr) = N.
Proof. unfold centered, sub_rows, nrows. cbn [rows]. apply length_map. Qed.

Lemma ncols_centered : ncols (centered Xr) = P.
Proof. reflexivity. Qed.

Lemma K_centered : Nat.min (nrows (centered Xr)) (ncols (centered Xr)) = K.
Proof. rewrite nrows_centered, ncols_centered. reflexivity. Qed.

Lemma check_array_Fin : check_array (fmap Fin Xr) = Ok Xr.
Proof.
  unfold check_array, check_shape. rewrite nrows_fmap. cbn [fmap rows ncols].
  rewrite finite_rows_Fin.
  destruct (Nat.ltb_spec (nrows Xr) 1); [lia|].
  destruct (Nat.ltb_spec (ncols Xr) 1); [lia|].
  rewrite frame_eta. reflexivity.
Qed.

Lemma fit_transform_Fin :
  PCA_fit_transform svd (fmap Fin Xr) = Ok (PCA_fit_full svd Xr).
Proof. unfold PCA_fit_transform. rewrite check_array_Fin. reflexivity. Qed.

(** All [K] components are kept: the loadings are [Vt] itself. *)
Lemma fit_components : components_ (fst (PCA_fit_full svd Xr)) = svd_Vt d.
Proof.
  unfold PCA_fit_full. cbn [fst components_]. fold (centered Xr). fold d.
  rewrite firstn_rows_all.
  - apply frame_eta.
  - pose proof (spec_Vt_rows svd_ok) as H. rewrite K_centered in H. exact H.
Qed.

(** The scores are [U * S]. *)
Lemma fit_scores : snd (PCA_fit_full svd Xr) = mul_rows (svd_U d) (svd_S d).
Proof.
  unfold PCA_fit_full. cbn [snd]. fold (centered Xr). fold d. fold N P K.
  pose proof (spec_U_cols svd_ok) as Hc. rewrite K_centered in Hc. fold d in Hc.
  pose proof (spec_S_length svd_ok) as Hs. rewrite K_centered in Hs. fold d in Hs.
  pose proof (spec_U_wf svd_ok) as Hw. fold d in Hw.
  rewrite (firstn_rows_all (svd_S d) K Hs), Hc, Nat.min_id.
  rewrite map_id_in.
  - rewrite <- Hc. rewrite frame_eta. reflexivity.
  - intros r Hr. apply firstn_rows_all. unfold wf in Hw.
    rewrite Forall_forall in Hw. rewrite (Hw r Hr). exact Hc.
Qed.

Lemma fit_ratio_length :
  List.length (explained_variance_ratio_ (fst (PCA_fit_full svd Xr))) = K.
Proof.
  unfold PCA_fit_full. cbn [fst explained_variance_ratio_]. fold (centered Xr). fold d.
  fold N P K.
  pose proof (spec_S_length svd_ok) as Hs. rewrite K_centered in Hs. fold d in Hs.
  rewrite firstn_rows_all; rewrite !length_map; exact Hs.
Qed.

Lemma centered_cell (i j : nat) :
  (i < N)%nat -> (j < P)%nat ->
  cell (centered Xr) i j = cell Xr i j - col_mean Xr j.
Proof.
  intros Hi Hj. unfold cell, centered, sub_rows. cbn [rows].
  rewrite (nth_map_in _ (rows Xr) i [] []) by exact Hi.
  rewrite nth_zip.
  - unfold mean_axis0. rewrite nth_map_seq by exact Hj. reflexivity.
  - rewrite (wf_row Xr i Xr_wf Hi). exact Hj.
  - unfold mean_axis0. rewrite length_map, length_seq. exact Hj.
Qed.

Lemma Vt_row_length (k : nat) : (k < K)%nat -> List.length (row (svd_Vt d) k) = P.
Proof.
  intros Hk. rewrite length_row.
  - apply (spec_Vt_cols svd_ok).
  - apply (spec_Vt_wf svd_ok).
  - pose proof (spec_Vt_rows svd_ok) as H. rewrite K_centered in H. fold d in H. lia.
Qed.

(** The scores cell by cell. *)
Lemma scores_cell (i k : nat) :
  (i < N)%nat -> (k < K)%nat ->
  cell (mul_rows (svd_U d) (svd_S d)) i k = cell (svd_U d) i k * nth k (svd_S d) 0.
Proof.
  intros Hi Hk. unfold cell, mul_rows. cbn [rows].
  pose proof (spec_U_rows svd_ok) as Hr. rewrite nrows_centered in Hr. fold d in Hr.
  pose proof (spec_U_cols svd_ok) as Hc. rewrite K_centered in Hc. fold d in Hc.
  pose proof (spec_S_length svd_ok) as Hs. rewrite K_centered in Hs. fold d in Hs.
  rewrite (nth_map_in _ (rows (svd_U d)) i [] []) by (fold (nrows (svd_U d)); lia).
  rewrite nth_zip; [reflexivity | | lia].
  rewrite (wf_row (svd_U d) i (spec_U_wf svd_ok)) by lia. lia.
Qed.

(** The reconstruction identity: the centred table times the transposed
    loadings is the score matrix. *)
Lemma reconstruction (i k : nat) :
  (i < N)%nat -> (k < K)%nat ->
  row_dot (row (centered Xr) i) (row (svd_Vt d) k)
  = cell (mul_rows (svd_U d) (svd_S d)) i k.
Proof.
  intros Hi Hk.
  assert (HcN : nrows (centered Xr) = N) by apply nrows_centered.
  rewrite (row_dot_bigsum _ _ P).
  2:{ apply length_row.
      - unfold wf, centered, sub_rows. cbn [rows ncols]. rewrite Forall_forall.
        intros r Hr. apply in_map_iff in Hr as (r0 & <- & Hr0).
        rewrite length_zip.
        + unfold wf in Xr_wf. rewrite Forall_forall in Xr_wf. apply Xr_wf; exact Hr0.
        + unfold wf in Xr_wf. rewrite Forall_forall in Xr_wf.
          rewrite (Xr_wf r0 Hr0). unfold mean_axis0.
          rewrite length_map, length_seq. reflexivity.
      - rewrite HcN. exact Hi. }
  2:{ apply Vt_row_length; exact Hk. }
  rewrite (bigsum_ext P _
             (fun j => bigsum K (fun l =>
                (cell (svd_U d) i l * nth l (svd_S d) 0)
                * (cell (svd_Vt d) l j * cell (svd_Vt d) k j)))).
  2:{ intros j Hj. rewrite !row_nth.
      rewrite (@spec_factorisation _ _ svd_ok i j) by (rewrite ?HcN; assumption).
      rewrite K_centered. fold d.
      rewrite Rmult_comm, <- bigsum_scal. apply bigsum_ext. intros l _. ring. }
  rewrite bigsum_swap.
  rewrite (bigsum_ext K _
             (fun l => (cell (svd_U d) i l * nth l (svd_S d) 0)
                       * (if (l =? k)%nat then 1 else 0))).
  2:{ intros l Hl. rewrite bigsum_scal. f_equal.
      rewrite <- (@spec_Vt_orthonormal _ _ svd_ok l k) by (rewrite K_centered; assumption).
      fold d. rewrite (row_dot_bigsum _ _ P) by (apply Vt_row_length; assumption).
      reflexivity. }
  rewrite bigsum_pick by exact Hk. symmetry. apply scores_cell; assumption.
Qed.

(** The raw table times the transposed loadings, as [getPCA] forms it. *)
Lemma projected_raw :
  dot (fmap Fin Xr) (transpose (svd_Vt d))
  = Ok (Frame K (map (fun r => map (fun k => Fin (row_dot r (row (svd_Vt d) k)))
                                   (seq 0 K))
                     (rows Xr))).
Proof.
  pose proof (spec_Vt_rows svd_ok) as Hr. rewrite K_centered in Hr. fold d in Hr.
  pose proof (spec_Vt_cols svd_ok) as Hc. rewrite ncols_centered in Hc. fold d in Hc.
  unfold dot.
  assert (Hn : nrows (transpose (svd_Vt d)) = P)
    by (unfold nrows, transpose; cbn [rows]; rewrite length_map, length_seq; exact Hc).
  assert (Hk : ncols (transpose (svd_Vt d)) = K) by exact Hr.
  rewrite Hn, Hk. cbn [fmap ncols rows]. fold P. rewrite Nat.eqb_refl.
  unfold Ok. do 2 f_equal. rewrite map_map.
  apply map_ext. intros r. apply map_ext_in. intros k Hin.
  apply in_seq in Hin.
  rewrite column_transpose; [apply dot1_Fin | apply (spec_Vt_wf svd_ok) | lia].
Qed.

Lemma nrows_scores : nrows (mul_rows (svd_U d) (svd_S d)) = N.
Proof.
  unfold nrows, mul_rows. cbn [rows]. rewrite length_map.
  pose proof (spec_U_rows svd_ok) as Hr. rewrite nrows_centered in Hr. exact Hr.
Qed.

Lemma ncols_scores : ncols (mul_rows (svd_U d) (svd_S d)) = K.
Proof.
  pose proof (spec_U_cols svd_ok) as Hc. rewrite K_centered in Hc. exact Hc.
Qed.

(** What [getPCA] prints and returns on a finite table. *)
Lemma getPCA_run :
  getPCA svd (fmap Fin Xr)
  = ([Print (Text "Variance of PCs, check if equal to 1");
      Print (Norms (norm_axis0 (transpose (svd_Vt d))));
      Print (Text ("PCs can be calculated as dot product of loadings and"
                   ++ " original values: "
                   ++ str_bool
                        (all2 (all2 isclose)
                           (map (fun r => map (fun k => Fin (row_dot r (row (svd_Vt d) k)))
                                              (seq 0 K))
                                (rows Xr))
                           (rows (mul_rows (svd_U d) (svd_S d))))))],
     Ok (mul_rows (svd_U d) (svd_S d),
         explained_variance_ratio_ (fst (PCA_fit_full svd Xr)),
         svd_Vt d)).
Proof.
  unfold getPCA. rewrite fit_transform_Fin.
  pose proof fit_components as Hc. pose proof fit_scores as Hs.
  destruct (PCA_fit_full svd Xr) as [pca X_r]. cbn [fst snd] in Hc, Hs |- *.
  subst X_r. unfold coeffVectorNorms.
  cbn [lift bind emit Ok app]. rewrite !Hc. rewrite projected_raw.
  cbn [lift bind emit Ok app]. unfold allclose. cbn [ncols].
  rewrite nrows_scores, ncols_scores.
  replace (nrows (Frame K _)) with N
    by (unfold nrows; cbn [rows]; rewrite length_map; reflexivity).
  rewrite !Nat.eqb_refl. reflexivity.
Qed.

Lemma scores_row_length (i : nat) :
  (i < N)%nat -> List.length (nth i (rows (mul_rows (svd_U d) (svd_S d))) []) = K.
Proof.
  intros Hi. unfold mul_rows. cbn [rows].
  pose proof (spec_U_rows svd_ok) as Hr. rewrite nrows_centered in Hr. fold d in Hr.
  pose proof (spec_U_cols svd_ok) as Hc. rewrite K_centered in Hc. fold d in Hc.
  pose proof (spec_S_length svd_ok) as Hs. rewrite K_centered in Hs. fold d in Hs.
  rewrite (nth_map_in _ (rows (svd_U d)) i [] []) by (fold (nrows (svd_U d)); lia).
  rewrite length_zip; rewrite (wf_row (svd_U d) i (spec_U_wf svd_ok)) by lia; lia.
Qed.

(** The raw product differs from the scores by the projection of the
    column means. *)
Lemma raw_minus_scores (i k : nat) :
  (i < N)%nat -> (k < K)%nat ->
  row_dot (row Xr i) (row (svd_Vt d) k) - cell (mul_rows (svd_U d) (svd_S d)) i k
  = row_dot (mean_axis0 Xr) (row (svd_Vt d) k).
Proof.
  intros Hi Hk. rewrite <- reconstruction by assumption.
  assert (Hv : List.length (row (svd_Vt d) k) = P) by (apply Vt_row_length; exact Hk).
  assert (Hm : List.length (mean_axis0 Xr) = P)
    by (unfold mean_axis0; rewrite length_map, length_seq; reflexivity).
  assert (Hx : List.length (row Xr i) = P) by (apply length_row; assumption).
  assert (Hc : List.length (row (centered Xr) i) = P).
  { unfold row, centered, sub_rows. cbn [rows].
    rewrite (nth_map_in _ (rows Xr) i [] []) by exact Hi.
    fold (row Xr i). rewrite length_zip; congruence. }
  rewrite !(row_dot_bigsum _ _ P) by assumption.
  rewrite <- bigsum_minus. apply bigsum_ext. intros j Hj.
  rewrite !row_nth, centered_cell by assumption.
  unfold mean_axis0. rewrite nth_map_seq by exact Hj. ring.
Qed.

(** When the self-check of [getPCA] says [True]. *)
Lemma self_check_iff :
  all2 (all2 isclose)
       (map (fun r => map (fun k => Fin (row_dot r (row (svd_Vt d) k))) (seq 0 K))
            (rows Xr))
       (rows (mul_rows (svd_U d) (svd_S d))) = true
  <-> forall i k, (i < N)%nat -> (k < K)%nat ->
        Rabs (row_dot (mean_axis0 Xr) (row (svd_Vt d) k))
        <= atol + rtol * Rabs (cell (mul_rows (svd_U d) (svd_S d)) i k).
Proof.
  pose proof nrows_scores as Hn. unfold nrows in Hn.
  rewrite (all2_nth _ _ _ [] []) by (rewrite length_map, Hn; reflexivity).
  rewrite length_map. fold (nrows Xr). fold N.
  assert (Hrow : forall i, (i < N)%nat ->
            (all2 isclose
               (nth i (map (fun r => map (fun k => Fin (row_dot r (row (svd_Vt d) k)))
                                         (seq 0 K)) (rows Xr)) [])
               (nth i (rows (mul_rows (svd_U d) (svd_S d))) []) = true
             <-> forall k, (k < K)%nat ->
                   Rabs (row_dot (mean_axis0 Xr) (row (svd_Vt d) k))
                   <= atol + rtol * Rabs (cell (mul_rows (svd_U d) (svd_S d)) i k))).
  { intros i Hi.
    rewrite (nth_map_in _ (rows Xr) i [] []) by exact Hi.
    rewrite (all2_nth _ _ _ NaN 0)
      by (rewrite length_map, length_seq, scores_row_length; [reflexivity | exact Hi]).
    rewrite length_map, length_seq.
    split; intros H k Hk; specialize (H k Hk).
    - rewrite nth_map_seq in H by exact Hk. apply isclose_Fin in H.
      fold (row Xr i) in H.
      change (nth k (nth i (rows (mul_rows (svd_U d) (svd_S d))) []) 0)
        with (cell (mul_rows (svd_U d) (svd_S d)) i k) in H.
      rewrite raw_minus_scores in H by assumption. exact H.
    - rewrite nth_map_seq by exact Hk. apply isclose_Fin.
      fold (row Xr i).
      change (nth k (nth i (rows (mul_rows (svd_U d) (svd_S d))) []) 0)
        with (cell (mul_rows (svd_U d) (svd_S d)) i k).
      rewrite raw_minus_scores by assumption. exact H. }
  split.
  - intros H i k Hi Hk. apply (proj1 (Hrow i Hi) (H i Hi) k Hk).
  - intros H i Hi. apply (proj2 (Hrow i Hi)). intros k Hk. apply H; assumption.
Qed.

End Fit.

(** ** The unit-norm self-check *)

Section Norms.

Local Open Scope R_scope.






End Norms.

Section PrintedNorms.

Local Open Scope R_scope.





Variable svd : frame R -> SVD.
Variable Xr : frame R.

Hypothesis Xr_wf : wf Xr.
Hypothesis Xr_rows : (1 <= nrows Xr)%nat.
Hypothesis Xr_cols : (1 <= ncols Xr)%nat.

#[local] Set Default Proof Using "All".





End PrintedNorms.


(** ** The worked data set is decomposed correctly *)

Section DemoFacts.

Local Open Scope R_scope.

Lemma Demo_table_wf : wf Demo.table.
Proof. unfold wf. simpl. repeat constructor. Qed.

Lemma Demo_svd_ok : svd_spec (centered Demo.table) (Demo.svd (centered Demo.table)).
Proof.
  constructor.
  - unfold wf. simpl. repeat constructor.
  - reflexivity.
  - reflexivity.
  - reflexivity.
  - unfold wf. simpl. repeat constructor.
  - reflexivity.
  - reflexivity.
  - intros [|[|k]] [|[|l]] Hk Hl; try (exfalso; simpl in Hk, Hl; lia); real_cells.
  - intros [|[|k]] Hk; try (exfalso; simpl in Hk; lia); real_cells.
  - intros [|k] Hk; try (exfalso; simpl in Hk; lia); real_cells.
  - intros [|[|[|[|i]]]] [|[|j]] Hi Hj;
      try (exfalso; unfold nrows in Hi; simpl in Hi, Hj; lia); real_cells.
Qed.

End DemoFacts.


(** ** The reconstruction self-check *)

(** C1 (amended). For a finite table with at least one row and one column,
    decomposed by a routine that meets the SVD contract, the centred table
    times the transposed loadings equals the returned scores, cell by cell.
    The self-check that [getPCA] prints is a different quantity: it
    compares the raw, uncentred table times the transposed loadings with the
    scores of a second fit, by [np.allclose] (rtol 1e-5, atol 1e-8).  It
    says [True] exactly when, for every loading, the inner product of the
    column means with that loading is within [atol + rtol * |score|] of zero
    for every score of that component. *)
Theorem C1_reconstruction :
  forall (svd : frame R -> SVD) (Xr : frame R),
    wf Xr -> (1 <= nrows Xr)%nat -> (1 <= ncols Xr)%nat ->
    svd_spec (centered Xr) (svd (centered Xr)) ->
    exists (scores : frame R) (PCs : list npfloat) (loadings : frame R)
           (norms : list R) (dotProduct : bool),
      getPCA svd (fmap Fin Xr)
      = ([Print (Text "Variance of PCs, check if equal to 1");
          Print (Norms norms);
          Print (Text ("PCs can be calculated as dot product of loadings and"
                       ++ " original values: " ++ str_bool dotProduct))],
         Ok (scores, PCs, loadings))
      /\ (forall i k, (i < nrows Xr)%nat -> (k < Nat.min (nrows Xr) (ncols Xr))%nat ->
            row_dot (row (centered Xr) i) (row loadings k) = cell scores i k)
      /\ (dotProduct = true <->
          forall i k, (i < nrows Xr)%nat -> (k < Nat.min (nrows Xr) (ncols Xr))%nat ->
            (Rabs (row_dot (mean_axis0 Xr) (row loadings k))
             <= atol + rtol * Rabs (cell scores i k))%R).
Proof.
  intros svd Xr Hwf HN HP Hspec.
  do 5 eexists. split; [apply (getPCA_run svd Xr Hwf HN HP Hspec)|]. split.
  - apply (reconstruction svd Xr Hwf HN HP Hspec).
  - apply (self_check_iff svd Xr Hwf HN HP Hspec).
Qed.

Lemma C1_reconstruction_witness :
  exists (scores : frame R) (PCs : list npfloat) (loadings : frame R)
         (norms : list R) (dotProduct : bool),
    getPCA Demo.svd (fmap Fin Demo.table)
    = ([Print (Text "Variance of PCs, check if equal to 1");
        Print (Norms norms);
        Print (Text ("PCs can be calculated as dot product of loadings and"
                     ++ " original values: " ++ str_bool dotProduct))],
       Ok (scores, PCs, loadings))
    /\ (forall i k, (i < 4)%nat -> (k < 2)%nat ->
          row_dot (row (centered Demo.table) i) (row loadings k) = cell scores i k)
    /\ (dotProduct = true <->
        forall i k, (i < 4)%nat -> (k < 2)%nat ->
          (Rabs (row_dot (mean_axis0 Demo.table) (row loadings k))
           <= atol + rtol * Rabs (cell scores i k))%R).
Proof.
  apply (C1_reconstruction Demo.svd Demo.table).
  - exact Demo_table_wf.
  - unfold nrows. simpl. lia.
  - simpl. lia.
  - exact Demo_svd_ok.
Defined.

Lemma Demo_rows : (1 <= nrows Demo.table)%nat.
Proof. unfold nrows. simpl. lia. Qed.

Lemma Demo_cols : (1 <= ncols Demo.table)%nat.
Proof. simpl. lia. Qed.

(** On the worked data set, whose column means are 3 and 5, the centred
    identity holds but the self-check of [getPCA] says [False]. *)
Lemma C1_counterexample :
  nth_error (fst (getPCA Demo.svd (fmap Fin Demo.table))) 2
  = Some (Print (Text "PCs can be calculated as dot product of loadings and original values: False")).
Proof.
  rewrite (getPCA_run Demo.svd Demo.table Demo_table_wf Demo_rows Demo_cols Demo_svd_ok).
  cbn [fst nth_error].
  match goal with |- context [str_bool ?b] => destruct b eqn:E end; [|reflexivity].
  exfalso.
  pose proof (proj1 (self_check_iff Demo.svd Demo.table Demo_table_wf Demo_rows
                       Demo_cols Demo_svd_ok) E 0%nat 0%nat) as H.
  assert (H' := H ltac:(unfold nrows; simpl; lia) ltac:(unfold nrows; simpl; lia)).
  clear H E. revert H'. real_cells.
  unfold Rabs. repeat destruct (Rcase_abs _); lra.
Qed.

(** ** Explained-variance ratios *)

Section Ratios.

Local Open Scope R_scope.

Lemma div_Fin (x y : R) : y <> 0 -> Np.div (Fin x) (Fin y) = Fin (x / y).
Proof. intros H. unfold Np.div. rewrite Reqb_false by exact H. reflexivity. Qed.

Lemma div_zero_zero (x y : R) : x = 0 -> y = 0 -> Np.div (Fin x) (Fin y) = NaN.
Proof. intros Hx Hy. unfold Np.div. rewrite !Reqb_true by assumption. reflexivity. Qed.


Lemma Rsum_map_div (f : R -> R) (t : R) (l : list R) :
  Rsum (map (fun s => f s / t) l) = Rsum (map f l) / t.
Proof.
  induction l as [|a l IH]; simpl; [lra|].
  fold (Rsum (map (fun s => f s / t) l)). fold (Rsum (map f l)). rewrite IH. lra.
Qed.

Lemma Rsum_nonneg (l : list R) : Forall (fun x => 0 <= x) l -> 0 <= Rsum l.
Proof.
  induction 1 as [|a l Ha _ IH]; simpl; [lra|]. fold (Rsum l). lra.
Qed.

Lemma Rsum_zero_all (l : list R) :
  Forall (fun x => 0 <= x) l -> Rsum l = 0 -> Forall (fun x => x = 0) l.
Proof.
  induction 1 as [|a l Ha Hl IH]; intros Hs; [constructor|].
  simpl in Hs. fold (Rsum l) in Hs. pose proof (Rsum_nonneg l Hl).
  constructor; [lra | apply IH; lra].
Qed.

Lemma square_le (a b : R) : 0 <= a -> a <= b -> a * a <= b * b.
Proof. intros. nra. Qed.

End Ratios.

Section Variances.

Local Open Scope R_scope.





Variable N : nat.
Hypothesis N_two : (2 <= N)%nat.

#[local] Set Default Proof Using "All".




(** A variance is zero or out of reach of underflow. *)
Lemma variance_keep (s : R) : variance_of N s = 0 \/ too_small < variance_of N s.
Proof.
  unfold variance_of, Rleb. destruct (Rle_dec _ _); [left; reflexivity | right; lra].
Qed.







End Variances.

Section InfiniteSums.



End InfiniteSums.

(** What the fit makes of singular values that are all zero, or of one
    whose square overflows. *)
Section FitExtremes.

Local Open Scope R_scope.

Variable svd : frame R -> SVD.
Variable Xr : frame R.

Hypothesis Xr_rows : (2 <= nrows Xr)%nat.

Let d := svd (centered Xr).

#[local] Set Default Proof Using "All".



End FitExtremes.

Section FitRatios.

Local Open Scope R_scope.

Variable svd : frame R -> SVD.
Variable Xr : frame R.

Hypothesis Xr_wf : wf Xr.
Hypothesis Xr_rows : (2 <= nrows Xr)%nat.
Hypothesis Xr_cols : (1 <= ncols Xr)%nat.
Hypothesis svd_ok : svd_spec (centered Xr) (svd (centered Xr)).

Let K := Nat.min (nrows Xr) (ncols Xr).
Let d := svd (centered Xr).

(** The squares of the singular values do not overflow, and the variance
    of some component does not underflow. *)
Hypothesis no_overflow : Rsum (map (fun s => s * s) (svd_S d)) <= normal_max.
Hypothesis no_underflow :
  exists k, (k < K)%nat
            /\ normal_min <= nth k (svd_S d) 0 * nth k (svd_S d) 0 / (INR (nrows Xr) - 1).


#[local] Set Default Proof Using "All".












End FitRatios.




Section ZeroTables.

Local Open Scope R_scope.


Lemma single_svd_ok :
  svd_spec (centered Demo.single_sample) (Demo.svd_zero (centered Demo.single_sample)).
Proof.
  constructor.
  - unfold wf. simpl. repeat constructor.
  - reflexivity.
  - reflexivity.
  - reflexivity.
  - unfold wf. simpl. repeat constructor.
  - reflexivity.
  - reflexivity.
  - intros [|k] [|l] Hk Hl; try (exfalso; simpl in Hk, Hl; lia); real_cells.
  - intros [|k] Hk; try (exfalso; simpl in Hk; lia); real_cells.
  - intros k Hk; exfalso; simpl in Hk; lia.
  - intros [|i] [|[|j]] Hi Hj;
      try (exfalso; unfold nrows in Hi; simpl in Hi, Hj; lia); real_cells.
Qed.


Lemma single_sample_wf : wf Demo.single_sample.
Proof. unfold wf. simpl. repeat constructor. Qed.


Lemma single_ratio :
  explained_variance_ratio_ (fst (PCA_fit_full Demo.svd_zero Demo.single_sample)) = [NaN].
Proof.
  cbv -[Rplus Rminus Rmult Rdiv Rinv Ropp sqrt INR IZR Rabs ln
        Rle_dec Rlt_dec Req_dec_T Int_part powerRZ Rle Rlt Rge Rgt Np.div Np.add
        float64 in_range].
  rewrite float64_flush by (rewrite Rmult_0_l, Rabs_R0; left; exact too_small_pos).
  rewrite (div_zero_zero 0 (INR 1 - 1)) by (simpl INR; lra). reflexivity.
Qed.

End ZeroTables.


(** ** Input validation *)

Section Validation.

Lemma finite_rows_empty (m : list (list npfloat)) :
  Forall (fun r => List.length r = 0%nat) m ->
  finite_rows m = Some (map (fun _ => []) m).
Proof.
  induction 1 as [|r m Hr _ IH]; [reflexivity|].
  destruct r; [|discriminate]. cbn [finite_rows finite_row map]. rewrite IH. reflexivity.
Qed.

End Validation.

(** C6 (amended). [getPCA] makes no check of its own on the number of
    samples or features; what is checked is scikit-learn's input validation
    inside the fit.  A table with no sample makes it raise [ValueError], and
    so does a table with samples but no feature; nothing is printed.  A
    finite table with at least one sample and one feature, decomposed by a
    routine that meets the SVD contract, raises nothing: in particular a
    single sample is accepted, and so is every table with N >= 2 and
    P >= 1. *)
Theorem C6_shape_validation :
  forall (svd : frame R -> SVD) (X : frame npfloat),
    (nrows X = 0%nat ->
       getPCA svd X = ([], Raise (ValueError "Found array with 0 sample(s)")))
    /\ (wf X -> (1 <= nrows X)%nat -> ncols X = 0%nat ->
        getPCA svd X = ([], Raise (ValueError "Found array with 0 feature(s)")))
    /\ (forall Xr : frame R,
          X = fmap Fin Xr -> wf Xr -> (1 <= nrows Xr)%nat -> (1 <= ncols Xr)%nat ->
          svd_spec (centered Xr) (svd (centered Xr)) ->
          is_ok (snd (getPCA svd X)) = true).
Proof.
  intros svd X. split; [|split].
  - intros HN. unfold getPCA, PCA_fit_transform, check_array, check_shape.
    assert (Hr : rows X = []) by (apply length_zero_iff_nil; exact HN).
    rewrite Hr, HN. reflexivity.
  - intros Hwf HN HP. unfold getPCA, PCA_fit_transform, check_array, check_shape.
    rewrite finite_rows_empty by (unfold wf in Hwf; rewrite HP in Hwf; exact Hwf).
    destruct (Nat.ltb_spec (nrows X) 1); [lia|]. rewrite HP. reflexivity.
  - intros Xr -> Hwf HN HP Hspec.
    rewrite (getPCA_run svd Xr Hwf HN HP Hspec). reflexivity.
Qed.

Lemma C6_shape_validation_witness :
  getPCA Demo.svd (Frame 2 []) = ([], Raise (ValueError "Found array with 0 sample(s)"))
  /\ is_ok (snd (getPCA Demo.svd (fmap Fin Demo.table))) = true.
Proof.
  split.
  - apply (proj1 (C6_shape_validation Demo.svd (Frame 2 []))). reflexivity.
  - apply (proj2 (proj2 (C6_shape_validation Demo.svd (fmap Fin Demo.table))) Demo.table).
    + reflexivity.
    + exact Demo_table_wf.
    + exact Demo_rows.
    + exact Demo_cols.
    + exact Demo_svd_ok.
Defined.

(** A single sample (N = 1, P = 2) is decomposed without any error; its
    ratio is NaN. *)
Lemma C6_counterexample :
  svd_spec (centered Demo.single_sample) (Demo.svd_zero (centered Demo.single_sample))
  /\ exists (scores loadings : frame R),
       snd (getPCA Demo.svd_zero (fmap Fin Demo.single_sample))
       = Ok (scores, [NaN], loadings).
Proof.
  split; [exact single_svd_ok|]. do 2 eexists.
  rewrite (getPCA_run Demo.svd_zero Demo.single_sample single_sample_wf).
  - cbn [snd]. rewrite single_ratio. reflexivity.
  - unfold nrows. simpl. lia.
  - simpl. lia.
  - exact single_svd_ok.
Qed.

(** ** Score columns and the 3-D projection *)

(** On the worked data set, which has two components, the 3-D run writes
    its report and then stops at the third score column. *)
Lemma demo_3D_run :
  snd (main Demo.svd (Demo.args "data.csv" true true false false) Demo.df)
  = Raise (IndexError 2 1 2)
  /\ written (fst (main Demo.svd (Demo.args "data.csv" true true false false) Demo.df))
     = ["data_loadings.csv"; "data_info.txt"].
Proof. split; run_script; reflexivity. Qed.

(** C10 (amended). The score matrix that [getPCA] returns has [min(N, P)]
    columns (for a finite table with at least one row and one column,
    decomposed by a routine that meets the SVD contract).  When the 3-D
    projection is requested and the score matrix has fewer than three
    columns, [plotPCA] fails with an out-of-bounds column access at the
    first score column that is missing, before anything is drawn or saved:
    the third column when there are two, the second when there is one.  The
    three columns can all be read exactly when there are at least three, and
    a 3-D plot that completes had at least three. *)
Theorem C10_plot3D_needs_three_columns :
  forall (X_r : frame R) (PCs : list npfloat) (ligs colors : list string)
         (csvPath : string) (fl_save : bool),
    ((ncols X_r < 3)%nat ->
       plotPCA true X_r PCs ligs colors csvPath fl_save
       = ([], Raise (IndexError (ncols X_r) 1 (ncols X_r))))
    /\ (is_ok (slice_column 0%R 0 X_r) && is_ok (slice_column 0%R 1 X_r)
          && is_ok (slice_column 0%R 2 X_r) = true
        <-> (3 <= ncols X_r)%nat)
    /\ (snd (plotPCA true X_r PCs ligs colors csvPath fl_save) = Ok tt ->
        (3 <= ncols X_r)%nat)
    /\ (forall (svd : frame R -> SVD) (Xr : frame R),
          wf Xr -> (1 <= nrows Xr)%nat -> (1 <= ncols Xr)%nat ->
          svd_spec (centered Xr) (svd (centered Xr)) ->
          exists (scores : frame R) (ratios : list npfloat) (loadings : frame R),
            snd (getPCA svd (fmap Fin Xr)) = Ok (scores, ratios, loadings)
            /\ ncols scores = Nat.min (nrows Xr) (ncols Xr)).
Proof.
  intros X_r PCs ligs colors csvPath fl_save. split; [|split; [|split]].
  - apply plot3D_short.
  - unfold slice_column.
    destruct (Nat.ltb_spec 0 (ncols X_r)), (Nat.ltb_spec 1 (ncols X_r)),
             (Nat.ltb_spec 2 (ncols X_r)); simpl; split; intros; try lia;
      try discriminate; reflexivity.
  - intros Hok. destruct (Nat.lt_ge_cases (ncols X_r) 3) as [Hlt | Hge]; [|exact Hge].
    rewrite (plot3D_short X_r PCs ligs colors csvPath fl_save Hlt) in Hok.
    discriminate Hok.
  - intros svd Xr Hwf HN HP Hspec. do 3 eexists. split.
    + rewrite (getPCA_run svd Xr Hwf HN HP Hspec). reflexivity.
    + apply (ncols_scores svd Xr Hwf HN HP Hspec).
Qed.

Lemma C10_plot3D_needs_three_columns_witness :
  plotPCA true (Frame 2 [[1; 2]; [3; 4]]%R) [Fin 80; Fin 20] ["a"; "b"]
          ["255:0:0"; "0:0:255"] "data.csv" false
  = ([], Raise (IndexError 2 1 2)).
Proof.
  apply (proj1 (C10_plot3D_needs_three_columns (Frame 2 [[1; 2]; [3; 4]]%R)
                  [Fin 80; Fin 20] ["a"; "b"] ["255:0:0"; "0:0:255"] "data.csv" false)).
  simpl. lia.
Defined.

(** With a single score column the failing access is the second column
    (index 1), not the third. *)
Lemma C10_counterexample :
  snd (plotPCA true (Frame 1 [[1]; [3]]%R) [Fin 100] ["a"; "b"]
               ["255:0:0"; "0:0:255"] "data.csv" false)
  = Raise (IndexError 1 1 1)
  /\ snd (plotPCA true (Frame 1 [[1]; [3]]%R) [Fin 100] ["a"; "b"]
                  ["255:0:0"; "0:0:255"] "data.csv" false)
     <> Raise (IndexError 2 1 1).
Proof. split; [reflexivity | discriminate]. Qed.

(** * Further properties of the script *)

(** ** What a run saves and shows *)

Section Observations.

Context {A : Type} (f : event -> list A).

Lemma observe_app (a b : list event) :
  observe f (a ++ b)%list = (observe f a ++ observe f b)%list.
Proof. unfold observe. apply flat_map_app. Qed.

Lemma observe_bind {B C : Type} (m : io B) (k : B -> io C) :
  observe f (fst (bind m k)) =
  (observe f (fst m)
   ++ match snd m with inr a => observe f (fst (k a)) | inl _ => [] end)%list.
Proof.
  rewrite fst_bind, observe_app. destruct (snd m); reflexivity.
Qed.

Lemma for_each_observe {B : Type} (l : list B) (body : B -> io unit) :
  (forall a, observe f (fst (body a)) = []) ->
  observe f (fst (for_each l body)) = [].
Proof.
  intros Hb. induction l as [|x l IH]; [reflexivity|].
  cbn [for_each]. rewrite observe_bind, Hb. simpl.
  destruct (snd (body x)); [reflexivity | exact IH].
Qed.

End Observations.

Ltac obs_simpl :=
  repeat first
    [ rewrite observe_bind
    | rewrite snd_bind
    | rewrite for_each_print_ok
    | progress cbn [lift emit ret fst snd observe flat_map app Ok Raise is_ok
                    List.length] ].

Section ScriptObservations.

Variable svd : frame R -> SVD.

Context {A : Type} (f : event -> list A).

Hypothesis f_print : forall x, f (Print x) = [].
Hypothesis f_write : forall p c, f (WriteFile p c) = [].

Lemma for_each_print_observe (l : list shown) :
  observe f (fst (for_each l (fun x => emit (Print x)))) = [].
Proof using f_print.
  apply for_each_observe. intros x. cbn [emit fst observe flat_map].
  rewrite f_print. reflexivity.
Qed.

Lemma getPCA_observe (dfData : frame npfloat) :
  observe f (fst (getPCA svd dfData)) = [].
Proof using f_print.
  unfold getPCA. obs_simpl.
  destruct (PCA_fit_transform svd dfData) as [e | [pca X_r]]; [reflexivity|].
  obs_simpl. rewrite !f_print.
  destruct (dot dfData (transpose (components_ pca))) as [e | pr]; [reflexivity|].
  obs_simpl.
  destruct (allclose pr X_r) as [e | b]; obs_simpl; rewrite ?f_print; reflexivity.
Qed.

Lemma displaySaveLog_observe csvPath df dfData PCs loadings features fl_save fl_std fl_log :
  observe f (fst (displaySaveLog csvPath df dfData PCs loadings features
                    fl_save fl_std fl_log)) = [].
Proof using f_print f_write.
  unfold displaySaveLog.
  destruct fl_std, fl_log; obs_simpl; rewrite ?for_each_print_observe, ?f_print;
    (destruct ((nrows loadings =? _)%nat && _); obs_simpl; rewrite ?f_print;
     [destruct fl_save; obs_simpl; rewrite ?f_write; reflexivity | reflexivity]).
Qed.

(** What [main] leaves behind, other than prints and report files, is what
    [plotPCA] leaves behind. *)
Lemma main_observe (args : Namespace) (df : DataFrame) :
  observe f (fst (main svd args df)) =
  match apply_transformation (arg_std args) (arg_log args) (arg_csvPath args) (data df) with
  | inl _ => []
  | inr (csvPath, dfData) =>
      match snd (getPCA svd dfData) with
      | inl _ => []
      | inr (X_r, PCs, loadings) =>
          match snd (displaySaveLog csvPath df dfData PCs loadings (columns df)
                       (arg_save args) (arg_std args) (arg_log args)) with
          | inl _ => []
          | inr _ =>
              observe f (fst (plotPCA (arg_proj3D args) X_r
                                (map (fun pc => Np.round (Np.mul (Fin 100) pc)
                                                  (snd (fst (fst (fst (fst (parsing args)))))))
                                     PCs)
                                (index df) (color df) csvPath (arg_save args)))
          end
      end
  end.
Proof using f_print f_write.
  unfold main, parsing. cbn [fst snd]. obs_simpl.
  destruct (apply_transformation _ _ _ _) as [e | [csvPath dfData]]; [reflexivity|].
  obs_simpl. rewrite getPCA_observe. cbn [app].
  destruct (snd (getPCA svd dfData)) as [e | [[X_r PCs] loadings]]; [reflexivity|].
  obs_simpl. rewrite displaySaveLog_observe. cbn [app]. reflexivity.
Qed.

End ScriptObservations.

Section PlotObservations.

Context {A : Type} (f : event -> list A).

Hypothesis f_scatter : forall l c xs, f (Scatter l c xs) = [].

Lemma point_observe (label col : string) (coords : list R) :
  observe f (fst (bind (lift (makeColor col))
                       (fun newCol => Mpl.scatter label newCol coords))) = [].
Proof using f_scatter.
  obs_simpl. destruct (makeColor col) as [e | c]; [reflexivity|].
  unfold Mpl.scatter. destruct (Mpl.is_rgba c); obs_simpl; rewrite ?f_scatter; reflexivity.
Qed.

Lemma scatter2_observe (l : list (string * (string * (R * R)))) :
  observe f (fst (for_each l (fun t =>
     let '(label, (col, (x, y))) := t in
     bind (lift (makeColor col)) (fun newCol => Mpl.scatter label newCol [x; y])))) = [].
Proof using f_scatter.
  apply for_each_observe. intros [label [col [x y]]]. apply point_observe.
Qed.

Lemma scatter3_observe (l : list (string * (string * (R * (R * R))))) :
  observe f (fst (for_each l (fun t =>
     let '(label, (col, (x, (y, z)))) := t in
     bind (lift (makeColor col)) (fun newCol => Mpl.scatter label newCol [x; y; z])))) = [].
Proof using f_scatter.
  apply for_each_observe. intros [label [col [x [y z]]]]. apply point_observe.
Qed.

End PlotObservations.

Ltac plot_case :=
  match goal with
  | |- context [slice_column ?d ?j ?X] => destruct (slice_column d j X)
  | |- context [getitem ?l ?i] => destruct (getitem l i)
  | |- context [snd (for_each ?l ?f)] => destruct (snd (for_each l f))
  | |- context [Mpl.output_file ?p] => destruct (Mpl.output_file p)
  end.

(** Simplifies what a plot has written and what it leaves to observe. *)
Ltac plot_simpl :=
  repeat (obs_simpl; io_simpl;
          rewrite ?scatter3_observe, ?scatter2_observe by reflexivity;
          rewrite ?scatter3_written, ?scatter2_written).

Section SaveOrShow.

(** The files of a plot are its figures. *)
Lemma plotPCA_saved proj3D X_r PCs ligs colors csvPath fl_save :
  saved_figures (fst (plotPCA proj3D X_r PCs ligs colors csvPath fl_save))
  = written (fst (plotPCA proj3D X_r PCs ligs colors csvPath fl_save)).
Proof.
  unfold saved_figures, plotPCA, Mpl.savefig.
  destruct proj3D; plot_simpl;
    repeat (plot_case; plot_simpl; try reflexivity);
    destruct fl_save; plot_simpl; try reflexivity;
    repeat (plot_case; plot_simpl); reflexivity.
Qed.

Lemma plotPCA_shown proj3D X_r PCs ligs colors csvPath fl_save :
  shown_figures (fst (plotPCA proj3D X_r PCs ligs colors csvPath fl_save)) =
  if negb fl_save && is_ok (snd (plotPCA proj3D X_r PCs ligs colors csvPath fl_save))
  then 1%nat else 0%nat.
Proof.
  unfold shown_figures, plotPCA, Mpl.savefig.
  destruct proj3D; plot_simpl;
    repeat (plot_case; plot_simpl; try reflexivity);
    destruct fl_save; plot_simpl; try reflexivity;
    repeat (plot_case; plot_simpl); reflexivity.
Qed.

End SaveOrShow.

Section MainObservations.

Variable svd : frame R -> SVD.

Lemma main_saved (args : Namespace) (df : DataFrame) :
  saved_figures (fst (main svd args df)) = []
  \/ exists X_r PCs csvPath,
       saved_figures (fst (main svd args df))
       = saved_figures (fst (plotPCA (arg_proj3D args) X_r PCs (index df) (color df)
                               csvPath (arg_save args))).
Proof.
  unfold saved_figures at 1 2.
  rewrite (main_observe svd _ (fun _ => eq_refl) (fun _ _ => eq_refl)).
  destruct (apply_transformation _ _ _ _) as [e | [csvPath dfData]]; [left; reflexivity|].
  destruct (snd (getPCA svd dfData)) as [e | [[X_r PCs] loadings]]; [left; reflexivity|].
  destruct (snd (displaySaveLog _ _ _ _ _ _ _ _ _)); [left; reflexivity|].
  right. do 3 eexists. reflexivity.
Qed.

Lemma main_shown (args : Namespace) (df : DataFrame) :
  shown_figures (fst (main svd args df)) = 0%nat
  \/ exists X_r PCs csvPath,
       shown_figures (fst (main svd args df))
       = shown_figures (fst (plotPCA (arg_proj3D args) X_r PCs (index df) (color df)
                               csvPath (arg_save args))).
Proof.
  unfold shown_figures at 1 2.
  rewrite (main_observe svd _ (fun _ => eq_refl) (fun _ _ => eq_refl)).
  destruct (apply_transformation _ _ _ _) as [e | [csvPath dfData]]; [left; reflexivity|].
  destruct (snd (getPCA svd dfData)) as [e | [[X_r PCs] loadings]]; [left; reflexivity|].
  destruct (snd (displaySaveLog _ _ _ _ _ _ _ _ _)); [left; reflexivity|].
  right. do 3 eexists. reflexivity.
Qed.

Lemma main_ok_observe {A : Type} (f : event -> list A) (args : Namespace) (df : DataFrame) :
  (forall x, f (Print x) = []) -> (forall p c, f (WriteFile p c) = []) ->
  snd (main svd args df) = Ok tt ->
  exists X_r PCs csvPath,
    snd (plotPCA (arg_proj3D args) X_r PCs (index df) (color df) csvPath (arg_save args))
    = Ok tt
    /\ observe f (fst (main svd args df))
       = observe f (fst (plotPCA (arg_proj3D args) X_r PCs (index df) (color df)
                           csvPath (arg_save args))).
Proof.
  intros Hp Hw Hok.
  destruct (main_ok_inv svd args df Hok)
    as (csvPath & dfData & X_r & PCs & loadings & Et & Eg & Ed & Epl).
  rewrite (main_observe svd f Hp Hw), Et. cbv beta iota delta [Ok].
  rewrite Eg. cbv beta iota delta [Ok]. rewrite Ed.
  do 3 eexists. split; [exact Epl | reflexivity].
Qed.

End MainObservations.

(** X1. Saving and showing exclude each other.  With the save flag a run
    never shows the figures; without it a run writes no file and saves no
    figure.  A run that completes has either saved exactly two figures (the
    plot and its legend) or shown the figures once. *)
Theorem X1_save_or_show :
  forall (svd : frame R -> SVD) (args : Namespace) (df : DataFrame),
    (arg_save args = true -> shown_figures (fst (main svd args df)) = 0%nat)
    /\ (arg_save args = false ->
        written (fst (main svd args df)) = []
        /\ saved_figures (fst (main svd args df)) = [])
    /\ (snd (main svd args df) = Ok tt ->
        shown_figures (fst (main svd args df)) = (if arg_save args then 0 else 1)%nat
        /\ List.length (saved_figures (fst (main svd args df)))
           = (if arg_save args then 2 else 0)%nat).
Proof.
  intros svd args df. split; [|split].
  - intros Hs. destruct (main_shown svd args df) as [H | (X_r & PCs & p & H)];
      [exact H|]. rewrite H, plotPCA_shown, Hs. reflexivity.
  - intros Hs. split.
    + rewrite main_written.
      destruct (apply_transformation _ _ _ _) as [e | [csvPath dfData]]; [reflexivity|].
      destruct (snd (getPCA svd dfData)) as [e | [[X_r PCs] loadings]]; [reflexivity|].
      cbv zeta. rewrite displaySaveLog_written, Hs. cbn [andb app].
      destruct (snd (displaySaveLog _ _ _ _ _ _ _ _ _)); [reflexivity|].
      apply plotPCA_unsaved.
    + destruct (main_saved svd args df) as [H | (X_r & PCs & p & H)]; [exact H|].
      rewrite H, plotPCA_saved, Hs. apply plotPCA_unsaved.
  - intros Hok. split.
    + unfold shown_figures.
      match goal with
      | |- context [observe ?f _] =>
          destruct (main_ok_observe svd f args df (fun _ => eq_refl)
                      (fun _ _ => eq_refl) Hok) as (X_r & PCs & p & Hpl & ->)
      end.
      fold (shown_figures (fst (plotPCA (arg_proj3D args) X_r PCs (index df) (color df)
                                  p (arg_save args)))).
      rewrite plotPCA_shown, Hpl. destruct (arg_save args); reflexivity.
    + unfold saved_figures.
      match goal with
      | |- context [observe ?f _] =>
          destruct (main_ok_observe svd f args df (fun _ => eq_refl)
                      (fun _ _ => eq_refl) Hok) as (X_r & PCs & p & Hpl & ->)
      end.
      fold (saved_figures (fst (plotPCA (arg_proj3D args) X_r PCs (index df) (color df)
                                  p (arg_save args)))).
      rewrite plotPCA_saved. destruct (arg_save args).
      * destruct (plotPCA_written_ok _ _ _ _ _ _ Hpl) as (f & g & _ & _ & ->).
        reflexivity.
      * rewrite plotPCA_unsaved. reflexivity.
Qed.

Lemma X1_save_or_show_witness :
  shown_figures (fst (main Demo.svd Demo.std_save Demo.df)) = 0%nat
  /\ List.length (saved_figures (fst (main Demo.svd Demo.std_save Demo.df))) = 2%nat.
Proof.
  split.
  - apply (proj1 (X1_save_or_show Demo.svd Demo.std_save Demo.df)). reflexivity.
  - apply (proj2 (proj2 (X1_save_or_show Demo.svd Demo.std_save Demo.df))).
    run_script. reflexivity.
Defined.

(** ** A path that does not name a [.csv] file *)

Section ForeignPath.

Import PyStr.

Lemma transformed_path_absent (fl_std fl_log : bool) (X : frame R)
    (p path : string) (Y : frame npfloat) :
  occurs ".csv" p = false ->
  apply_transformation fl_std fl_log p X = Ok (path, Y) -> path = p.
Proof.
  intros Hp. unfold apply_transformation.
  destruct fl_std.
  - destruct (StandardScaler_fit_transform X); [discriminate|].
    intros H; inversion H; subst.
    exact (replace_absent "." "csv" "-std.csv" p Hp).
  - destruct fl_log; intros H; inversion H; subst.
    + exact (replace_absent "." "csv" "-log.csv" p Hp).
    + reflexivity.
Qed.

End ForeignPath.

(** X2. When the input path contains no ".csv", no output name is derived
    from it.  The loadings table and the report are both written to the
    input path itself; the figure is saved under the name that [savefig]
    makes of the input path, and the legend under the name it makes of the
    input path with every ".png" replaced.  A run that completes with the
    save flag has written the input path twice and then the two figures.
    When the extension of the path is not a format that [savefig] can
    write, a run with the save flag does not complete and saves no
    figure. *)
Theorem X2_outputs_overwrite_input :
  forall (svd : frame R -> SVD) (args : Namespace) (df : DataFrame),
    PyStr.occurs ".csv" (arg_csvPath args) = false ->
    (forall f, In f (written (fst (main svd args df))) ->
       f = arg_csvPath args
       \/ Mpl.output_file (arg_csvPath args) = Ok f
       \/ Mpl.output_file (PyStr.replace (arg_csvPath args) ".png" "_legend.png") = Ok f)
    /\ (snd (main svd args df) = Ok tt -> arg_save args = true ->
        exists f g,
          Mpl.output_file (arg_csvPath args) = Ok f
          /\ Mpl.output_file (PyStr.replace (arg_csvPath args) ".png" "_legend.png")
             = Ok g
          /\ written (fst (main svd args df))
             = [arg_csvPath args; arg_csvPath args; f; g])
    /\ (is_ok (Mpl.output_file (arg_csvPath args)) = false -> arg_save args = true ->
        snd (main svd args df) <> Ok tt
        /\ saved_figures (fst (main svd args df)) = []).
Proof.
  intros svd args df Hc.
  assert (Hr : forall new, PyStr.replace (arg_csvPath args) ".csv" new = arg_csvPath args)
    by (intros new; exact (replace_absent "." "csv" new _ Hc)).
  assert (Hdone : snd (main svd args df) = Ok tt -> arg_save args = true ->
            exists f g,
              Mpl.output_file (arg_csvPath args) = Ok f
              /\ Mpl.output_file (PyStr.replace (arg_csvPath args) ".png" "_legend.png")
                 = Ok g
              /\ written (fst (main svd args df))
                 = [arg_csvPath args; arg_csvPath args; f; g]).
  { intros Hok Hsave. rewrite main_written.
    destruct (main_ok_inv svd args df Hok)
      as (csvPath & dfData & X_r & PCs & loadings & Et & Eg & Ed & Epl).
    rewrite Et. cbv beta iota delta [Ok]. rewrite Eg.
    cbv beta iota zeta delta [Ok]. rewrite Ed.
    rewrite displaySaveLog_written, Ed, Hsave. cbn [andb is_ok].
    apply transformed_path_absent in Et; [|exact Hc]. subst csvPath.
    rewrite Hsave in Epl.
    destruct (plotPCA_written_ok _ _ _ _ _ _ Epl) as (f & g & Hf & Hg & Hw).
    rewrite Hr in Hf, Hg. rewrite Hw, !Hr.
    exists f, g. repeat split; assumption. }
  split; [|split; [exact Hdone|]].
  - intros f. rewrite main_written.
    destruct (apply_transformation _ _ _ _) as [e | [csvPath dfData]] eqn:Et; [intros []|].
    apply transformed_path_absent in Et; [|exact Hc]. subst csvPath.
    destruct (snd (getPCA svd dfData)) as [e | [[X_r PCs] loadings]]; [intros []|].
    cbv zeta. rewrite displaySaveLog_written.
    intros Hin. apply in_app_or in Hin. destruct Hin as [Hin | Hin].
    + destruct (arg_save args && _); [|destruct Hin].
      rewrite !Hr in Hin. simpl in Hin. left. intuition.
    + destruct (snd (displaySaveLog _ _ _ _ _ _ _ _ _)); [destruct Hin|].
      destruct (plotPCA_written (arg_proj3D args) X_r
                  (map (fun pc => Np.round (Np.mul (Fin 100) pc)
                                    (snd (fst (fst (fst (fst (parsing args))))))) PCs)
                  (index df) (color df) (arg_csvPath args) (arg_save args))
        as [E | [_ E]]; rewrite E in Hin; [destruct Hin|].
      rewrite Hr in Hin. unfold figure_files in Hin.
      destruct (Mpl.output_file (arg_csvPath args)) as [e | f1]; [destruct Hin|].
      destruct Hin as [<- | Hin]; [right; left; reflexivity|].
      destruct (Mpl.output_file (PyStr.replace (arg_csvPath args) ".png" "_legend.png"))
        as [e | g1]; [destruct Hin|].
      destruct Hin as [<- | []]. right; right; reflexivity.
  - intros Hbad Hsave. split.
    + intros Hok. destruct (Hdone Hok Hsave) as (f & g & Hf & _).
      rewrite Hf in Hbad. discriminate Hbad.
    + unfold saved_figures.
      rewrite (main_observe svd _ (fun _ => eq_refl) (fun _ _ => eq_refl)).
      destruct (apply_transformation _ _ _ _) as [e | [csvPath dfData]] eqn:Et;
        [reflexivity|].
      apply transformed_path_absent in Et; [|exact Hc]. subst csvPath.
      destruct (snd (getPCA svd dfData)) as [e | [[X_r PCs] loadings]]; [reflexivity|].
      destruct (snd (displaySaveLog _ _ _ _ _ _ _ _ _)); [reflexivity|].
      match goal with
      | |- observe _ (fst ?pl) = [] =>
          change (saved_figures (fst pl) = [])
      end.
      rewrite plotPCA_saved.
      match goal with
      | |- written (fst (plotPCA ?a ?b ?c ?d ?e ?g ?h)) = [] =>
          destruct (plotPCA_written a b c d e g h) as [E | [_ E]]; rewrite E;
            [reflexivity|]
      end.
      rewrite Hr. unfold figure_files.
      destruct (Mpl.output_file (arg_csvPath args)); [reflexivity | discriminate Hbad].
Qed.

Lemma X2_outputs_overwrite_input_witness :
  written (fst (main Demo.svd Demo.std_save_bare Demo.df))
  = ["data"; "data"; "data.png"; "data.png"].
Proof.
  destruct (proj1 (proj2 (X2_outputs_overwrite_input Demo.svd Demo.std_save_bare Demo.df
                            eq_refl)))
    as (f & g & Hf & Hg & Hw).
  - run_script. reflexivity.
  - reflexivity.
  - vm_compute in Hf, Hg. inversion Hf. inversion Hg. subst f g. exact Hw.
Defined.

(** On [data.tsv] the run with the save flag stops at the first [savefig]:
    the report files are written, both over the input, and no figure. *)
Lemma foreign_extension_run :
  snd (main Demo.svd Demo.std_save_tsv Demo.df)
  = Raise (ValueError "Format is not supported")
  /\ written (fst (main Demo.svd Demo.std_save_tsv Demo.df)) = ["data.tsv"; "data.tsv"].
Proof. split; run_script; reflexivity. Qed.

(** ** The 2-D projection *)

Section Projection2D.

Lemma plot2D_short (X_r : frame R) PCs ligs colors csvPath fl_save :
  (ncols X_r < 2)%nat ->
  plotPCA false X_r PCs ligs colors csvPath fl_save
  = ([], Raise (IndexError (ncols X_r) 1 (ncols X_r))).
Proof.
  intros H. unfold plotPCA.
  destruct (ncols X_r) as [|[|k]] eqn:E; [| |lia].
  - rewrite (slice_column_out X_r 0) by lia. rewrite E. reflexivity.
  - rewrite (slice_column_ok X_r 0) by lia.
    rewrite (slice_column_out X_r 1) by lia. rewrite E. reflexivity.
Qed.

Lemma getitem_ok {A : Type} (l : list A) (i : nat) (a : A) :
  getitem l i = Ok a -> (i < List.length l)%nat.
Proof.
  unfold getitem. destruct (nth_error l i) eqn:E; [|discriminate].
  intros _. apply nth_error_Some. congruence.
Qed.

Lemma getitem_out {A : Type} (l : list A) (i : nat) :
  (List.length l <= i)%nat -> getitem l i = Raise (IndexError i 0 (List.length l)).
Proof.
  intros H. unfold getitem. apply nth_error_None in H. rewrite H. reflexivity.
Qed.

(** A plot that completes has read its axis labels. *)
Lemma plot_ok_labels proj3D X_r PCs ligs colors csvPath fl_save :
  snd (plotPCA proj3D X_r PCs ligs colors csvPath fl_save) = Ok tt ->
  ((if proj3D then 3 else 2) <= List.length PCs)%nat.
Proof.
  unfold plotPCA. destruct proj3D; io_simpl.
  - destruct (slice_column 0%R 0 X_r); [discriminate|]. io_simpl.
    destruct (slice_column 0%R 1 X_r); [discriminate|]. io_simpl.
    destruct (slice_column 0%R 2 X_r); [discriminate|]. io_simpl.
    destruct (snd (for_each _ _)); [discriminate|]. io_simpl.
    destruct (getitem PCs 0); [discriminate|]. io_simpl.
    destruct (getitem PCs 1); [discriminate|]. io_simpl.
    destruct (getitem PCs 2) eqn:E; [discriminate|].
    intros _. apply getitem_ok in E. lia.
  - destruct (slice_column 0%R 0 X_r); [discriminate|]. io_simpl.
    destruct (slice_column 0%R 1 X_r); [discriminate|]. io_simpl.
    destruct (snd (for_each _ _)); [discriminate|]. io_simpl.
    destruct (getitem PCs 0); [discriminate|]. io_simpl.
    destruct (getitem PCs 1) eqn:E; [discriminate|].
    intros _. apply getitem_ok in E. lia.
Qed.

End Projection2D.

(** X3. The default 2-D plot needs two score columns and two variance
    ratios.  With fewer than two score columns [plotPCA] fails with an
    out-of-bounds column access at the first missing column, before anything
    is drawn or saved; a 2-D plot that completes had at least two score
    columns and at least two ratios for its axis labels. *)
Theorem X3_plot2D_needs_two_columns :
  forall (X_r : frame R) (PCs : list npfloat) (ligs colors : list string)
         (csvPath : string) (fl_save : bool),
    ((ncols X_r < 2)%nat ->
       plotPCA false X_r PCs ligs colors csvPath fl_save
       = ([], Raise (IndexError (ncols X_r) 1 (ncols X_r))))
    /\ (snd (plotPCA false X_r PCs ligs colors csvPath fl_save) = Ok tt ->
        (2 <= ncols X_r)%nat /\ (2 <= List.length PCs)%nat).
Proof.
  intros X_r PCs ligs colors csvPath fl_save. split.
  - apply plot2D_short.
  - intros Hok. split.
    + destruct (Nat.lt_ge_cases (ncols X_r) 2) as [Hlt | Hge]; [|exact Hge].
      rewrite (plot2D_short X_r PCs ligs colors csvPath fl_save Hlt) in Hok.
      discriminate Hok.
    + exact (plot_ok_labels false X_r PCs ligs colors csvPath fl_save Hok).
Qed.

Lemma X3_plot2D_needs_two_columns_witness :
  plotPCA false (Frame 1 [[1]; [3]]%R) [Fin 100] ["a"; "b"]
          ["255:0:0"; "0:0:255"] "data.csv" true
  = ([], Raise (IndexError 1 1 1)).
Proof.
  apply (proj1 (X3_plot2D_needs_two_columns (Frame 1 [[1]; [3]]%R) [Fin 100]
                  ["a"; "b"] ["255:0:0"; "0:0:255"] "data.csv" true)).
  simpl. lia.
Defined.

(** ** Colours that [scatter] accepts *)

Section ColorChecks.

Import PyStr PyFloat.

(** A digit run gives a component that [to_rgba] lets pass exactly when
    its value is at most 255. *)
Lemma token_checked (t : string) :
  int_token t = true ->
  exists x,
    match py_float t with
    | None => Raise (ValueError "could not convert string to float")
    | Some x => Ok (div255 x)
    end = Ok x
    /\ Mpl.channel_ok x = (horner 0 t <=? 255)%Z.
Proof.
  intros Ht. destruct (py_float_digits t Ht) as (q & Hq & ->).
  pose proof (horner_nonneg t 0 (Z.le_refl 0)) as Hn.
  destruct (Z.leb_spec overflow_bound (horner 0 t)) as [Hbig | Hsmall].
  - exists PPosInf. split; [reflexivity|]. cbn [Mpl.channel_ok]. symmetry.
    apply Z.leb_gt. apply Z.lt_le_trans with overflow_bound; [reflexivity | exact Hbig].
  - eexists. split; [reflexivity|]. cbn [div255 Mpl.channel_ok].
    assert (H0 : Qle_bool 0 (Qred (q / inject_Z 255)) = true).
    { apply Qle_bool_iff. rewrite Qred_correct, Hq.
      unfold Qle, Qdiv, Qmult, Qinv, inject_Z. simpl. lia. }
    rewrite H0. cbn [andb].
    destruct (Z.leb_spec (horner 0 t) 255) as [Hle | Hgt].
    + apply Qle_bool_iff. rewrite Qred_correct, Hq.
      unfold Qle, Qdiv, Qmult, Qinv, inject_Z. simpl. lia.
    + destruct (Qle_bool (Qred (q / inject_Z 255)) 1) eqn:E; [|reflexivity].
      apply Qle_bool_iff in E. rewrite Qred_correct, Hq in E.
      unfold Qle, Qdiv, Qmult, Qinv, inject_Z in E. simpl in E. lia.
Qed.

Lemma tokens_checked (toks : list string) :
  forallb int_token toks = true ->
  exists l,
    comprehension
      (fun col => match py_float col with
                  | None => Raise (ValueError "could not convert string to float")
                  | Some x => Ok (div255 x)
                  end) toks = Ok l
    /\ List.length l = List.length toks
    /\ forallb Mpl.channel_ok l = forallb (fun t => (horner 0 t <=? 255)%Z) toks.
Proof.
  induction toks as [|t toks IH]; intros H; [exists []; repeat split|].
  cbn [forallb] in H. apply andb_prop in H as [Ht Hts].
  destruct (token_checked t Ht) as (x & Hx & Hc).
  destruct (IH Hts) as (l & Hl & Hlen & Hcs).
  exists (x :: l). cbn [comprehension]. rewrite Hx. unfold Ok in Hl |- *. rewrite Hl.
  cbn [List.length forallb]. rewrite Hlen, Hc, Hcs. repeat split.
Qed.

Lemma forallb_both {A : Type} (f g : A -> bool) (l : list A) :
  forallb f l = true -> forallb (fun a => f a && g a) l = forallb g l.
Proof.
  induction l as [|a l IH]; [reflexivity|]. cbn [forallb]. intros H.
  apply andb_prop in H as [Ha Hl]. rewrite Ha, (IH Hl). reflexivity.
Qed.

(** A colour made of digit runs is parsed, and [scatter] accepts it exactly
    when it has three or four components, none above 255. *)
Lemma digit_color (c : string) :
  digit_text c = true -> exists l, makeColor c = Ok l /\ Mpl.is_rgba l = rgb_text c.
Proof.
  unfold digit_text, makeColor, rgb_text, Mpl.is_rgba. intros H.
  destruct (tokens_checked _ H) as (l & -> & Hlen & Hch).
  exists l. split; [reflexivity|].
  rewrite Hlen, Hch, (forallb_both _ _ _ H). reflexivity.
Qed.

Lemma rgb_text_digits (c : string) : rgb_text c = true -> digit_text c = true.
Proof.
  unfold rgb_text, digit_text. intros H. apply andb_prop in H as [_ H].
  rewrite forallb_forall in H |- *. intros t Ht.
  specialize (H t Ht). apply andb_prop in H. tauto.
Qed.

Lemma rgb_color (c : string) :
  rgb_text c = true -> exists l, makeColor c = Ok l /\ Mpl.is_rgba l = true.
Proof.
  intros H. destruct (digit_color c (rgb_text_digits c H)) as (l & Hl & Hr).
  exists l. split; [exact Hl | congruence].
Qed.

Lemma makeColor_error (s : string) (e : exn) :
  makeColor s = inl e -> e = ValueError "could not convert string to float".
Proof.
  unfold makeColor. generalize (PyStr.split ":" s). intros l.
  induction l as [|t l IH]; [discriminate|]. cbn [comprehension].
  destruct (PyFloat.py_float t).
  - cbn [Ok]. destruct (comprehension _ l); [|discriminate].
    intros H. inversion H. subst. apply IH. reflexivity.
  - intros H. inversion H. reflexivity.
Qed.

(** One pass of the scatter loop on a colour the script expects draws the
    point. *)
Lemma point_good (label col : string) (coords : list R) :
  rgb_text col = true ->
  exists l,
    bind (lift (makeColor col)) (fun newCol => Mpl.scatter label newCol coords)
    = ([Scatter label l coords], Ok tt).
Proof.
  intros H. destruct (rgb_color col H) as (l & Hl & Hr). exists l.
  rewrite Hl. cbn [lift bind Ok]. unfold Mpl.scatter. rewrite Hr. reflexivity.
Qed.

(** One pass on a colour that [float] or [scatter] rejects draws nothing
    and raises [ValueError]. *)
Lemma point_bad (label col : string) (coords : list R) :
  is_ok (makeColor col) = false \/ (digit_text col = true /\ rgb_text col = false) ->
  exists msg,
    bind (lift (makeColor col)) (fun newCol => Mpl.scatter label newCol coords)
    = ([], Raise (ValueError msg)).
Proof.
  intros [H | [Hd Hr]].
  - destruct (makeColor col) as [e | l] eqn:E; [|discriminate].
    rewrite (makeColor_error col e E). eexists. reflexivity.
  - destruct (digit_color col Hd) as (l & Hl & Hrgba). rewrite Hr in Hrgba.
    rewrite Hl. cbn [lift bind Ok]. unfold Mpl.scatter. rewrite Hrgba.
    eexists. reflexivity.
Qed.

End ColorChecks.

(** ** A whole run on a finite table *)

Section WholeRun.

Variable svd : frame R -> SVD.

Lemma displaySaveLog_ok csvPath df dfData PCs loadings features fl_save fl_std fl_log :
  nrows loadings = List.length PCs -> ncols loadings = List.length features ->
  snd (displaySaveLog csvPath df dfData PCs loadings features fl_save fl_std fl_log)
  = Ok tt.
Proof.
  intros Hr Hc. unfold displaySaveLog.
  rewrite length_map, length_seq, Hr, Hc, !Nat.eqb_refl. cbn [andb].
  destruct fl_std, fl_log, fl_save; io_simpl; reflexivity.
Qed.

Lemma for_each_ok {A : Type} (l : list A) (body : A -> io unit) :
  (forall a, In a l -> snd (body a) = Ok tt) -> snd (for_each l body) = Ok tt.
Proof.
  induction l as [|x l IH]; intros H; [reflexivity|].
  cbn [for_each]. rewrite snd_bind, (H x) by (left; reflexivity).
  apply IH. intros a Ha. apply H. right. exact Ha.
Qed.

(** With enough score columns, enough ratios, colours as the script
    expects them and figure names that [savefig] can write, the plot
    completes. *)
Lemma plotPCA_ok (proj3D : bool) (X_r : frame R) (PCs : list npfloat)
    (ligs colors : list string) (csvPath : string) (fl_save : bool) :
  ((if proj3D then 3 else 2) <= ncols X_r)%nat ->
  ((if proj3D then 3 else 2) <= List.length PCs)%nat ->
  Forall (fun c => rgb_text c = true) colors ->
  (fl_save = true ->
   is_ok (Mpl.output_file
            (PyStr.replace csvPath ".csv" (if proj3D then "_3D.png" else "_2D.png")))
   = true
   /\ is_ok (Mpl.output_file
               (PyStr.replace
                  (PyStr.replace csvPath ".csv" (if proj3D then "_3D.png" else "_2D.png"))
                  ".png" "_legend.png")) = true) ->
  snd (plotPCA proj3D X_r PCs ligs colors csvPath fl_save) = Ok tt.
Proof.
  intros Hc Hp Hcol Hfiles. rewrite Forall_forall in Hcol.
  assert (Hget : forall i, (i < List.length PCs)%nat -> exists pc, getitem PCs i = Ok pc).
  { intros i Hi. unfold getitem. destruct (nth_error PCs i) eqn:E; [eexists; reflexivity|].
    apply nth_error_None in E. lia. }
  unfold plotPCA, Mpl.savefig. destruct proj3D.
  - rewrite !slice_column_ok by lia.
    destruct (Hget 0%nat ltac:(lia)) as [p0 E0].
    destruct (Hget 1%nat ltac:(lia)) as [p1 E1].
    destruct (Hget 2%nat ltac:(lia)) as [p2 E2].
    rewrite E0, E1, E2. io_simpl.
    rewrite for_each_ok.
    + destruct fl_save; io_simpl; [|reflexivity].
      destruct (Hfiles eq_refl) as [H1 H2].
      destruct (Mpl.output_file _); [discriminate H1|]. io_simpl.
      destruct (Mpl.output_file _); [discriminate H2|]. reflexivity.
    + intros [label [col [x [y z]]]] Hin.
      apply in_combine_r, in_combine_l in Hin.
      destruct (point_good label col [x; y; z] (Hcol col Hin)) as [l ->]. reflexivity.
  - rewrite !slice_column_ok by lia.
    destruct (Hget 0%nat ltac:(lia)) as [p0 E0].
    destruct (Hget 1%nat ltac:(lia)) as [p1 E1].
    rewrite E0, E1. io_simpl.
    rewrite for_each_ok.
    + destruct fl_save; io_simpl; [|reflexivity].
      destruct (Hfiles eq_refl) as [H1 H2].
      destruct (Mpl.output_file _); [discriminate H1|]. io_simpl.
      destruct (Mpl.output_file _); [discriminate H2|]. reflexivity.
    + intros [label [col [x y]]] Hin.
      apply in_combine_r, in_combine_l in Hin.
      destruct (point_good label col [x; y] (Hcol col Hin)) as [l ->]. reflexivity.
Qed.

Variable args : Namespace.
Variable df : DataFrame.
Variable path : string.
Variable Y : frame R.

Hypothesis transformed :
  apply_transformation (arg_std args) (arg_log args) (arg_csvPath args) (data df)
  = Ok (path, fmap Fin Y).
Hypothesis Y_wf : wf Y.
Hypothesis Y_rows : (1 <= nrows Y)%nat.
Hypothesis Y_cols : (1 <= ncols Y)%nat.
Hypothesis svd_ok : svd_spec (centered Y) (svd (centered Y)).
Hypothesis names : List.length (columns df) = ncols Y.

#[local] Set Default Proof Using "All".

(** Up to the plot a run on a finite table cannot fail: the run ends as
    its plot ends, having written the report when asked to. *)
Lemma main_run :
  exists (scores : frame R) (PCs : list npfloat),
    ncols scores = Nat.min (nrows Y) (ncols Y)
    /\ List.length PCs = Nat.min (nrows Y) (ncols Y)
    /\ snd (main svd args df)
       = snd (plotPCA (arg_proj3D args) scores PCs (index df) (color df) path
                (arg_save args))
    /\ written (fst (main svd args df))
       = ((if arg_save args
           then [PyStr.replace path ".csv" "_loadings.csv";
                 PyStr.replace path ".csv" "_info.txt"]
           else [])
          ++ written (fst (plotPCA (arg_proj3D args) scores PCs (index df) (color df)
                             path (arg_save args))))%list.
Proof.
  pose proof (getPCA_run svd Y Y_wf Y_rows Y_cols svd_ok) as Hrun.
  assert (Hd : snd (displaySaveLog path df (fmap Fin Y)
                      (explained_variance_ratio_ (fst (PCA_fit_full svd Y)))
                      (svd_Vt (svd (centered Y))) (columns df)
                      (arg_save args) (arg_std args) (arg_log args)) = Ok tt).
  { apply displaySaveLog_ok.
    - rewrite (spec_Vt_rows svd_ok), (K_centered svd Y Y_wf Y_rows Y_cols svd_ok).
      symmetry. apply (fit_ratio_length svd Y Y_wf Y_rows Y_cols svd_ok).
    - rewrite (spec_Vt_cols svd_ok). symmetry. exact names. }
  eexists (mul_rows (svd_U (svd (centered Y))) (svd_S (svd (centered Y)))).
  eexists (map (fun pc => Np.round (Np.mul (Fin 100) pc)
                            (snd (fst (fst (fst (fst (parsing args)))))))
               (explained_variance_ratio_ (fst (PCA_fit_full svd Y)))).
  split; [apply (ncols_scores svd Y Y_wf Y_rows Y_cols svd_ok)|].
  split; [rewrite length_map; apply (fit_ratio_length svd Y Y_wf Y_rows Y_cols svd_ok)|].
  split.
  - unfold main, parsing. cbn [fst snd]. rewrite transformed. io_simpl.
    rewrite Hrun. io_simpl. rewrite Hd. reflexivity.
  - rewrite main_written, transformed. cbv beta iota delta [Ok]. rewrite Hrun.
    cbn [snd]. cbv beta iota zeta delta [Ok]. rewrite displaySaveLog_written.
    unfold Ok in Hd. rewrite Hd. cbn [is_ok]. rewrite andb_true_r. reflexivity.
Qed.

End WholeRun.

(** X4. A table with too few components cannot be plotted.  For a finite
    table (after the requested transformation) with [K = min(N, P)]
    components, [K] below 2, or below 3 when the 3-D projection is
    requested, the run reaches [plotPCA] and raises [IndexError] there for
    score column [K]; with the save flag the loadings and the report have
    been written by then, and no figure. *)
Theorem X4_too_few_components :
  forall (svd : frame R -> SVD) (args : Namespace) (df : DataFrame)
         (path : string) (Y : frame R),
    apply_transformation (arg_std args) (arg_log args) (arg_csvPath args) (data df)
      = Ok (path, fmap Fin Y) ->
    wf Y -> (1 <= nrows Y)%nat -> (1 <= ncols Y)%nat ->
    svd_spec (centered Y) (svd (centered Y)) ->
    List.length (columns df) = ncols Y ->
    (Nat.min (nrows Y) (ncols Y) < (if arg_proj3D args then 3 else 2))%nat ->
    snd (main svd args df)
      = Raise (IndexError (Nat.min (nrows Y) (ncols Y)) 1 (Nat.min (nrows Y) (ncols Y)))
    /\ written (fst (main svd args df))
       = (if arg_save args
          then [PyStr.replace path ".csv" "_loadings.csv";
                PyStr.replace path ".csv" "_info.txt"]
          else []).
Proof.
  intros svd args df path Y Ht Hwf HN HP Hspec Hnames HK.
  destruct (main_run svd args df path Y Ht Hwf HN HP Hspec Hnames)
    as (scores & PCs & Hc & _ & Hs & Hw).
  rewrite Hs, Hw. rewrite <- Hc in HK |- *.
  destruct (arg_proj3D args).
  - rewrite (plot3D_short scores PCs (index df) (color df) path (arg_save args) HK).
    cbn [fst snd written flat_map]. rewrite app_nil_r. split; reflexivity.
  - rewrite (plot2D_short scores PCs (index df) (color df) path (arg_save args) HK).
    cbn [fst snd written flat_map]. rewrite app_nil_r. split; reflexivity.
Qed.

Lemma X4_too_few_components_witness :
  snd (main Demo.svd (Demo.args "data.csv" true true false false) Demo.df)
    = Raise (IndexError 2 1 2)
  /\ written (fst (main Demo.svd (Demo.args "data.csv" true true false false) Demo.df))
     = ["data_loadings.csv"; "data_info.txt"].
Proof.
  apply (X4_too_few_components Demo.svd (Demo.args "data.csv" true true false false)
           Demo.df "data.csv" Demo.table).
  - reflexivity.
  - exact Demo_table_wf.
  - exact Demo_rows.
  - exact Demo_cols.
  - exact Demo_svd_ok.
  - reflexivity.
  - simpl. lia.
Defined.

(** X5. A run completes when the table is of moderate size and finite
    after the requested transformation, has enough components for the
    requested projection (2, or 3 for 3-D) and one feature name per column,
    every colour is three or four colon-separated digit runs none above
    255, the figure names are names that [savefig] can write when the save
    flag is set, and [--rounded] fits a C int: none of [getPCA],
    [displaySaveLog] and [plotPCA] raises. *)
Theorem X5_run_completes :
  forall (svd : frame R -> SVD) (args : Namespace) (df : DataFrame)
         (path : string) (Y : frame R),
    apply_transformation (arg_std args) (arg_log args) (arg_csvPath args) (data df)
      = Ok (path, fmap Fin Y) ->
    wf Y -> (1 <= nrows Y)%nat -> (1 <= ncols Y)%nat ->
    svd_spec (centered Y) (svd (centered Y)) ->
    List.length (columns df) = ncols Y ->
    ((if arg_proj3D args then 3 else 2) <= Nat.min (nrows Y) (ncols Y))%nat ->
    (forall j, (j < ncols (data df))%nat ->
       (Rsum (map Rabs (column 0%R j (data df))) <= moderate)%R) ->
    Forall (fun c => rgb_text c = true) (color df) ->
    (arg_save args = true ->
     is_ok (Mpl.output_file
              (PyStr.replace path ".csv"
                 (if arg_proj3D args then "_3D.png" else "_2D.png"))) = true
     /\ is_ok (Mpl.output_file
                 (PyStr.replace
                    (PyStr.replace path ".csv"
                       (if arg_proj3D args then "_3D.png" else "_2D.png"))
                    ".png" "_legend.png")) = true) ->
    (forall r, arg_rounded args = Some r -> (- 2 ^ 31 <= r < 2 ^ 31)%Z) ->
    snd (main svd args df) = Ok tt.
Proof.
  intros svd args df path Y Ht Hwf HN HP Hspec Hnames HK _ Hcol Hfiles _.
  destruct (main_run svd args df path Y Ht Hwf HN HP Hspec Hnames)
    as (scores & PCs & Hc & Hl & Hs & _).
  rewrite Hs. apply plotPCA_ok; [rewrite Hc | rewrite Hl | | ]; assumption.
Qed.

Lemma Demo_moderate :
  forall j, (j < ncols (data Demo.df))%nat ->
    (Rsum (map Rabs (column 0%R j (data Demo.df))) <= moderate)%R.
Proof.
  assert (Hbig : (20 <= moderate)%R).
  { unfold moderate. rewrite pow_IZR. apply IZR_le. discriminate. }
  intros [|[|j]] Hj; try (exfalso; simpl in Hj; lia);
    real_cells; unfold Rabs; repeat destruct (Rcase_abs _); lra.
Qed.

Lemma X5_run_completes_witness :
  snd (main Demo.svd (Demo.args "data.csv" false true false false) Demo.df) = Ok tt.
Proof.
  apply (X5_run_completes Demo.svd (Demo.args "data.csv" false true false false)
           Demo.df "data.csv" Demo.table).
  - reflexivity.
  - exact Demo_table_wf.
  - exact Demo_rows.
  - exact Demo_cols.
  - exact Demo_svd_ok.
  - reflexivity.
  - simpl. lia.
  - exact Demo_moderate.
  - repeat constructor.
  - intros _. split; reflexivity.
  - intros r H. discriminate H.
Defined.

(** ** Standardised columns *)

Section StandardisedColumns.

Local Open Scope R_scope.

Lemma Rsum_map_affine (m s : R) (c : list R) :
  Rsum (map (fun x => (x - m) / s) c) = (Rsum c - INR (List.length c) * m) / s.
Proof.
  induction c as [|a c IH].
  - simpl. unfold Rdiv. ring.
  - cbn [map Rsum fold_right]. fold (Rsum (map (fun x => (x - m) / s) c)).
    fold (Rsum c). rewrite IH.
    change (List.length (a :: c)) with (S (List.length c)). rewrite S_INR.
    unfold Rdiv. ring.
Qed.

Lemma scale_nonzero (v : R) : scale_of_var v <> 0.
Proof.
  unfold scale_of_var, Reqb. destruct (Req_dec_T (sqrt v) 0); [lra | assumption].
Qed.

Lemma col_var_nonneg (X : frame R) (j : nat) : (1 <= nrows X)%nat -> 0 <= col_var X j.
Proof.
  intros HN. unfold col_var. apply Rmult_le_pos.
  - apply Rsum_nonneg. rewrite Forall_map, Forall_forall. intros x _.
    apply (Rle_0_sqr (x - col_mean X j)).
  - left. apply Rinv_0_lt_compat. apply lt_0_INR. lia.
Qed.

Variable X : frame R.
Hypothesis X_wf : wf X.
Hypothesis X_rows : (1 <= nrows X)%nat.

Let Y := div_rows (sub_rows X (mean_axis0 X)) (map scale_of_var (var_axis0 X)).

#[local] Set Default Proof Using "All".

Lemma standardised_nrows : nrows Y = nrows X.
Proof. unfold Y, nrows, div_rows, sub_rows. cbn [rows]. rewrite !length_map. reflexivity. Qed.

Lemma standardised_wf : wf Y.
Proof.
  unfold wf, Y, div_rows, sub_rows. cbn [rows ncols]. rewrite Forall_forall.
  intros r Hr. apply in_map_iff in Hr as (r1 & <- & Hr1).
  apply in_map_iff in Hr1 as (r0 & <- & Hr0).
  unfold wf in X_wf. rewrite Forall_forall in X_wf. pose proof (X_wf r0 Hr0) as Hlen.
  assert (Hm : List.length (mean_axis0 X) = ncols X)
    by (unfold mean_axis0; rewrite length_map, length_seq; reflexivity).
  assert (Hs : List.length (map scale_of_var (var_axis0 X)) = ncols X)
    by (unfold var_axis0; rewrite !length_map, length_seq; reflexivity).
  rewrite length_zip; rewrite length_zip; congruence.
Qed.

Lemma standardised_cell (i j : nat) :
  (i < nrows X)%nat -> (j < ncols X)%nat ->
  cell Y i j = (cell X i j - col_mean X j) / scale_of_var (col_var X j).
Proof.
  intros Hi Hj. unfold Y. rewrite scaled_cell; try assumption.
  - unfold mean_axis0, var_axis0. rewrite map_map.
    rewrite !nth_map_seq by exact Hj. reflexivity.
  - unfold mean_axis0. rewrite length_map, length_seq. reflexivity.
  - unfold var_axis0. rewrite !length_map, length_seq. reflexivity.
Qed.

Lemma standardised_column (j : nat) :
  (j < ncols X)%nat ->
  column 0 j Y
  = map (fun x => (x - col_mean X j) / scale_of_var (col_var X j)) (column 0 j X).
Proof.
  intros Hj. apply (nth_ext _ _ 0 0).
  - rewrite length_map, !length_column. apply standardised_nrows.
  - intros i Hi. rewrite length_column, standardised_nrows in Hi.
    rewrite column_nth by (rewrite standardised_nrows; exact Hi).
    rewrite (nth_map_in _ (column 0 j X) i 0 0) by (rewrite length_column; exact Hi).
    rewrite column_nth by exact Hi. apply standardised_cell; assumption.
Qed.

Lemma standardised_mean (j : nat) : (j < ncols X)%nat -> col_mean Y j = 0.
Proof.
  intros Hj. unfold col_mean at 1. rewrite standardised_column by exact Hj.
  rewrite Rsum_map_affine, length_column, standardised_nrows.
  unfold col_mean. pose proof (scale_nonzero (col_var X j)) as Hs.
  assert (HN : INR (nrows X) <> 0) by (apply not_0_INR; lia).
  field. split; assumption.
Qed.

Lemma standardised_var (j : nat) :
  (j < ncols X)%nat ->
  col_var Y j
  = col_var X j / (scale_of_var (col_var X j) * scale_of_var (col_var X j)).
Proof.
  intros Hj. unfold col_var at 1. rewrite standardised_mean by exact Hj.
  rewrite standardised_column by exact Hj. rewrite map_map.
  pose proof (scale_nonzero (col_var X j)) as Hs.
  assert (HN : INR (nrows X) <> 0) by (apply not_0_INR; lia).
  rewrite (map_ext _ (fun x => (x - col_mean X j) * (x - col_mean X j)
                               / (scale_of_var (col_var X j) * scale_of_var (col_var X j))))
    by (intros x; field; exact Hs).
  rewrite (Rsum_map_div (fun x => (x - col_mean X j) * (x - col_mean X j))).
  rewrite standardised_nrows. unfold col_var. field. split; assumption.
Qed.

End StandardisedColumns.

(** X6. Standardisation does what the [-std] help text says: in the
    standardised table every column has mean 0, every column that was not
    constant has population variance 1, and every constant column has
    variance 0. *)
Theorem X6_zero_mean_unit_variance :
  forall (X Y : frame R) (j : nat),
    wf X -> (1 <= nrows X)%nat ->
    StandardScaler_fit_transform X = Ok Y ->
    (j < ncols X)%nat ->
    col_mean Y j = 0%R
    /\ (sqrt (col_var X j) <> 0%R -> col_var Y j = 1%R)
    /\ (sqrt (col_var X j) = 0%R -> col_var Y j = 0%R).
Proof.
  intros X Y j Hwf HN HY Hj.
  unfold StandardScaler_fit_transform in HY.
  destruct (check_shape X); [discriminate|]. inversion HY; subst Y. clear HY.
  split; [apply standardised_mean; assumption|].
  pose proof (col_var_nonneg X j HN) as Hv.
  rewrite (standardised_var X Hwf HN j Hj). split; intros Hs.
  - unfold scale_of_var. rewrite Reqb_false by exact Hs.
    rewrite (sqrt_sqrt _ Hv). apply Rdiv_diag.
    intros H0. apply Hs. rewrite H0. apply sqrt_0.
  - unfold scale_of_var. rewrite Reqb_true by exact Hs.
    rewrite (sqrt_eq_0 _ Hv Hs). unfold Rdiv. apply Rmult_0_l.
Qed.

Lemma X6_zero_mean_unit_variance_witness :
  exists Y : frame R,
    StandardScaler_fit_transform Demo.table = Ok Y /\ col_mean Y 0 = 0%R.
Proof.
  eexists. split; [reflexivity|].
  apply (X6_zero_mean_unit_variance Demo.table _ 0%nat Demo_table_wf Demo_rows eq_refl).
  simpl. lia.
Defined.

(** ** When the self-check passes *)

Section ZeroMeans.

Local Open Scope R_scope.

Variable svd : frame R -> SVD.
Variable Xr : frame R.

Hypothesis Xr_wf : wf Xr.
Hypothesis Xr_rows : (1 <= nrows Xr)%nat.
Hypothesis Xr_cols : (1 <= ncols Xr)%nat.
Hypothesis svd_ok : svd_spec (centered Xr) (svd (centered Xr)).
Hypothesis zero_means : forall j, (j < ncols Xr)%nat -> col_mean Xr j = 0.

#[local] Set Default Proof Using "All".

Lemma zero_means_verdict :
  all2 (all2 isclose)
       (map (fun r => map (fun k => Fin (row_dot r (row (svd_Vt (svd (centered Xr))) k)))
                          (seq 0 (Nat.min (nrows Xr) (ncols Xr))))
            (rows Xr))
       (rows (mul_rows (svd_U (svd (centered Xr))) (svd_S (svd (centered Xr))))) = true.
Proof.
  apply (self_check_iff svd Xr Xr_wf Xr_rows Xr_cols svd_ok).
  intros i k Hi Hk.
  rewrite (row_dot_bigsum _ _ (ncols Xr)).
  - rewrite (bigsum_ext _ _ (fun _ => 0)).
    + rewrite bigsum_zero, Rabs_R0.
      pose proof (Rabs_pos (cell (mul_rows (svd_U (svd (centered Xr)))
                                     (svd_S (svd (centered Xr)))) i k)).
      unfold atol, rtol. nra.
    + intros j Hj. unfold mean_axis0. rewrite nth_map_seq by exact Hj.
      rewrite (zero_means j Hj). ring.
  - unfold mean_axis0. rewrite length_map, length_seq. reflexivity.
  - apply (Vt_row_length svd Xr Xr_wf Xr_rows Xr_cols svd_ok). exact Hk.
Qed.

End ZeroMeans.

(** X7. The reconstruction self-check passes on a table whose column means
    are all zero: for such a finite table, decomposed by a routine that
    meets the SVD contract, the third line [getPCA] prints ends in
    [True]. *)
Theorem X7_zero_mean_check_passes :
  forall (svd : frame R -> SVD) (Xr : frame R),
    wf Xr -> (1 <= nrows Xr)%nat -> (1 <= ncols Xr)%nat ->
    svd_spec (centered Xr) (svd (centered Xr)) ->
    (forall j, (j < ncols Xr)%nat -> col_mean Xr j = 0%R) ->
    nth_error (fst (getPCA svd (fmap Fin Xr))) 2
    = Some (Print (Text "PCs can be calculated as dot product of loadings and original values: True")).
Proof.
  intros svd Xr Hwf HN HP Hspec Hz.
  rewrite (getPCA_run svd Xr Hwf HN HP Hspec). cbn [fst nth_error].
  rewrite (zero_means_verdict svd Xr Hwf HN HP Hspec Hz). reflexivity.
Qed.

Section DemoStandardised.

Local Open Scope R_scope.

Lemma scale_of_square (s v : R) : 0 < s -> v = s * s -> scale_of_var v = s.
Proof.
  intros Hs ->. unfold scale_of_var. rewrite sqrt_square by lra.
  rewrite Reqb_false by lra. reflexivity.
Qed.

Lemma Demo_standardised :
  StandardScaler_fit_transform Demo.table = Ok Demo.standardised_table.
Proof.
  cbv -[Rplus Rminus Rmult Rdiv Rinv Ropp sqrt INR IZR Rabs ln
        Rle_dec Rlt_dec Req_dec_T Int_part powerRZ scale_of_var].
  repeat match goal with
         | |- context [scale_of_var ?v] =>
             first [ rewrite (scale_of_square 2 v) by (simpl INR; lra)
                   | rewrite (scale_of_square 1 v) by (simpl INR; lra) ]
         end.
  simpl INR. unfold Ok. repeat f_equal; lra.
Qed.

Lemma centred_table_wf : wf Demo.centred_table.
Proof. unfold wf. simpl. repeat constructor. Qed.

Lemma standardised_table_wf : wf Demo.standardised_table.
Proof. unfold wf. simpl. repeat constructor. Qed.

Lemma centred_svd_ok :
  svd_spec (centered Demo.centred_table) (Demo.svd (centered Demo.centred_table)).
Proof.
  constructor.
  - unfold wf. simpl. repeat constructor.
  - reflexivity.
  - reflexivity.
  - reflexivity.
  - unfold wf. simpl. repeat constructor.
  - reflexivity.
  - reflexivity.
  - intros [|[|k]] [|[|l]] Hk Hl; try (exfalso; simpl in Hk, Hl; lia); real_cells.
  - intros [|[|k]] Hk; try (exfalso; simpl in Hk; lia); real_cells.
  - intros [|k] Hk; try (exfalso; simpl in Hk; lia); real_cells.
  - intros [|[|[|[|i]]]] [|[|j]] Hi Hj;
      try (exfalso; unfold nrows in Hi; simpl in Hi, Hj; lia); real_cells.
Qed.

Lemma standardised_svd_ok :
  svd_spec (centered Demo.standardised_table)
           (Demo.svd (centered Demo.standardised_table)).
Proof.
  constructor.
  - unfold wf. simpl. repeat constructor.
  - reflexivity.
  - reflexivity.
  - reflexivity.
  - unfold wf. simpl. repeat constructor.
  - reflexivity.
  - reflexivity.
  - intros [|[|k]] [|[|l]] Hk Hl; try (exfalso; simpl in Hk, Hl; lia); real_cells.
  - intros [|[|k]] Hk; try (exfalso; simpl in Hk; lia); real_cells.
  - intros [|k] Hk; try (exfalso; simpl in Hk; lia); real_cells.
  - intros [|[|[|[|i]]]] [|[|j]] Hi Hj;
      try (exfalso; unfold nrows in Hi; simpl in Hi, Hj; lia); real_cells.
Qed.

End DemoStandardised.

Lemma X7_zero_mean_check_passes_witness :
  nth_error (fst (getPCA Demo.svd (fmap Fin Demo.centred_table))) 2
  = Some (Print (Text "PCs can be calculated as dot product of loadings and original values: True")).
Proof.
  apply (X7_zero_mean_check_passes Demo.svd Demo.centred_table).
  - exact centred_table_wf.
  - unfold nrows. simpl. lia.
  - simpl. lia.
  - exact centred_svd_ok.
  - intros [|[|j]] Hj; try (exfalso; simpl in Hj; lia); real_cells.
Defined.

Section StandardisedRun.

Lemma StandardScaler_inv (X Y : frame R) :
  StandardScaler_fit_transform X = Ok Y ->
  (1 <= nrows X)%nat /\ (1 <= ncols X)%nat
  /\ Y = div_rows (sub_rows X (mean_axis0 X)) (map scale_of_var (var_axis0 X)).
Proof.
  unfold StandardScaler_fit_transform, check_shape.
  destruct (Nat.ltb_spec (nrows X) 1) as [|HN]; [discriminate|].
  destruct (Nat.ltb_spec (ncols X) 1) as [|HP]; [discriminate|].
  intros HY. inversion HY. repeat split; assumption.
Qed.

End StandardisedRun.

(** X8. With [-std] the reconstruction self-check always passes: in a run
    that standardises a finite table, decomposed by a routine that meets the
    SVD contract, the third line printed ends in [True]. *)
Theorem X8_std_run_check_passes :
  forall (svd : frame R -> SVD) (args : Namespace) (df : DataFrame) (Y : frame R),
    arg_std args = true ->
    wf (data df) ->
    StandardScaler_fit_transform (data df) = Ok Y ->
    svd_spec (centered Y) (svd (centered Y)) ->
    nth_error (fst (main svd args df)) 2
    = Some (Print (Text "PCs can be calculated as dot product of loadings and original values: True")).
Proof.
  intros svd args df Y Hstd Hwf HY Hspec.
  destruct (StandardScaler_inv _ _ HY) as (HN & HP & HYeq).
  assert (HwfY : wf Y) by (rewrite HYeq; apply standardised_wf; assumption).
  assert (HNY : (1 <= nrows Y)%nat)
    by (rewrite HYeq, (standardised_nrows _ Hwf HN); exact HN).
  assert (HPY : (1 <= ncols Y)%nat) by (rewrite HYeq; exact HP).
  assert (Hz : forall j, (j < ncols Y)%nat -> col_mean Y j = 0%R).
  { intros j Hj. rewrite HYeq in Hj |- *. apply standardised_mean; assumption. }
  unfold main, parsing. cbn [fst snd]. rewrite Hstd.
  unfold apply_transformation. rewrite HY.
  rewrite fst_bind. cbn [lift fst snd app Ok].
  rewrite fst_bind, (getPCA_run svd Y HwfY HNY HPY Hspec).
  cbn [fst app nth_error].
  rewrite (zero_means_verdict svd Y HwfY HNY HPY Hspec Hz). reflexivity.
Qed.

Lemma X8_std_run_check_passes_witness :
  nth_error (fst (main Demo.svd Demo.std_save Demo.df)) 2
  = Some (Print (Text "PCs can be calculated as dot product of loadings and original values: True")).
Proof.
  apply (X8_std_run_check_passes Demo.svd Demo.std_save Demo.df Demo.standardised_table).
  - reflexivity.
  - exact Demo_table_wf.
  - exact Demo_standardised.
  - exact standardised_svd_ok.
Defined.

(** ** Scores are centred *)

Section CentredScores.

Local Open Scope R_scope.

Lemma bigsum_const (n : nat) (c : R) : bigsum n (fun _ => c) = INR n * c.
Proof.
  induction n as [|n IH]; [rewrite bigsum_0; simpl; lra|].
  rewrite bigsum_S, IH, S_INR. lra.
Qed.

Lemma column_sum (X : frame R) (j : nat) :
  Rsum (column 0 j X) = bigsum (nrows X) (fun i => cell X i j).
Proof.
  rewrite Rsum_bigsum, length_column. apply bigsum_ext.
  intros i Hi. apply column_nth. exact Hi.
Qed.

Variable svd : frame R -> SVD.
Variable Xr : frame R.

Hypothesis Xr_wf : wf Xr.
Hypothesis Xr_rows : (1 <= nrows Xr)%nat.
Hypothesis Xr_cols : (1 <= ncols Xr)%nat.
Hypothesis svd_ok : svd_spec (centered Xr) (svd (centered Xr)).

#[local] Set Default Proof Using "All".

Lemma centered_column_sum (j : nat) :
  (j < ncols Xr)%nat -> bigsum (nrows Xr) (fun i => cell (centered Xr) i j) = 0.
Proof.
  intros Hj.
  rewrite (bigsum_ext _ _ (fun i => cell Xr i j - col_mean Xr j))
    by (intros i Hi; apply (centered_cell svd Xr Xr_wf Xr_rows Xr_cols svd_ok); assumption).
  rewrite bigsum_minus, bigsum_const, <- column_sum. unfold col_mean.
  field. apply not_0_INR. lia.
Qed.

Lemma centered_row_length (i : nat) :
  (i < nrows Xr)%nat -> List.length (row (centered Xr) i) = ncols Xr.
Proof.
  intros Hi. unfold row, centered, sub_rows. cbn [rows].
  rewrite (nth_map_in _ (rows Xr) i [] []) by exact Hi.
  rewrite length_zip; [apply wf_row; assumption|].
  rewrite (wf_row Xr i Xr_wf Hi). unfold mean_axis0.
  rewrite length_map, length_seq. reflexivity.
Qed.

Lemma scores_column_sum (k : nat) :
  (k < Nat.min (nrows Xr) (ncols Xr))%nat ->
  Rsum (column 0 k (mul_rows (svd_U (svd (centered Xr))) (svd_S (svd (centered Xr))))) = 0.
Proof.
  intros Hk. rewrite column_sum.
  rewrite (nrows_scores svd Xr Xr_wf Xr_rows Xr_cols svd_ok).
  rewrite (bigsum_ext _ _
             (fun i => bigsum (ncols Xr)
                         (fun j => nth j (row (svd_Vt (svd (centered Xr))) k) 0
                                   * cell (centered Xr) i j))).
  - rewrite bigsum_swap.
    rewrite (bigsum_ext _ _ (fun _ => 0)); [apply bigsum_zero|].
    intros j Hj. rewrite bigsum_scal, (centered_column_sum j Hj). ring.
  - intros i Hi.
    rewrite <- (reconstruction svd Xr Xr_wf Xr_rows Xr_cols svd_ok i k Hi Hk).
    rewrite (row_dot_bigsum _ _ (ncols Xr)).
    + apply bigsum_ext. intros j _. rewrite row_nth. ring.
    + apply centered_row_length. exact Hi.
    + apply (Vt_row_length svd Xr Xr_wf Xr_rows Xr_cols svd_ok). exact Hk.
Qed.

End CentredScores.

(** X9. The scores that [getPCA] returns are centred: for a finite table
    with at least one row and one column, decomposed by a routine that meets
    the SVD contract, every column of the score matrix sums to zero,
    whatever the column means of the input were. *)
Theorem X9_scores_are_centred :
  forall (svd : frame R -> SVD) (Xr : frame R),
    wf Xr -> (1 <= nrows Xr)%nat -> (1 <= ncols Xr)%nat ->
    svd_spec (centered Xr) (svd (centered Xr)) ->
    exists (scores : frame R) (ratios : list npfloat) (loadings : frame R),
      snd (getPCA svd (fmap Fin Xr)) = Ok (scores, ratios, loadings)
      /\ forall k, (k < Nat.min (nrows Xr) (ncols Xr))%nat ->
                   Rsum (column 0%R k scores) = 0%R.
Proof.
  intros svd Xr Hwf HN HP Hspec. do 3 eexists. split.
  - rewrite (getPCA_run svd Xr Hwf HN HP Hspec). reflexivity.
  - apply (scores_column_sum svd Xr Hwf HN HP Hspec).
Qed.

Lemma X9_scores_are_centred_witness :
  exists (scores : frame R) (ratios : list npfloat) (loadings : frame R),
    snd (getPCA Demo.svd (fmap Fin Demo.table)) = Ok (scores, ratios, loadings)
    /\ forall k, (k < 2)%nat -> Rsum (column 0%R k scores) = 0%R.
Proof.
  apply (X9_scores_are_centred Demo.svd Demo.table Demo_table_wf Demo_rows Demo_cols
           Demo_svd_ok).
Defined.

(** ** Colour components and colons *)

Section Components.

Import PyStr.

Lemma split_length (sep : ascii) (s : string) :
  List.length (split sep s) = S (count_char sep s).
Proof.
  induction s as [|c s IH]; [reflexivity|]. cbn [split count_char].
  destruct (Ascii.eqb c sep).
  - cbn [List.length]. rewrite IH. reflexivity.
  - pose proof (split_nonempty sep s) as Hne.
    destruct (split sep s) as [|t ts]; [congruence|]. exact IH.
Qed.

End Components.

(** X10. [makeColor] returns one component more than its argument has
    colons, and never an empty list: a colour string gives a triple exactly
    when it holds exactly two colons. *)
Theorem X10_components_per_colon :
  forall (s : string) (l : list pyfloat),
    makeColor s = Ok l ->
    List.length l = S (PyStr.count_char ":" s)
    /\ l <> []
    /\ (List.length l = 3%nat <-> PyStr.count_char ":" s = 2%nat).
Proof.
  intros s l H. unfold makeColor in H. apply comprehension_length in H.
  rewrite split_length in H. split; [exact H|]. split.
  - intros ->. discriminate H.
  - rewrite H. split; intros E; [injection E as E; exact E | rewrite E; reflexivity].
Qed.

Lemma X10_components_per_colon_witness :
  List.length [PFin 1; PFin 0; PFin 0] = S (PyStr.count_char ":" "255:0:0").
Proof.
  assert (H : makeColor "255:0:0" = Ok [PFin 1; PFin 0; PFin 0])
    by (vm_compute; reflexivity).
  exact (proj1 (X10_components_per_colon "255:0:0" [PFin 1; PFin 0; PFin 0] H)).
Defined.

(** ** The points of a plot *)

Section Points.

Lemma map_fst_combine {A B : Type} (l : list A) (m : list B) :
  map fst (combine l m) = firstn (List.length m) l.
Proof.
  revert m. induction l as [|a l IH]; intros [|b m]; simpl; try reflexivity.
  rewrite IH. reflexivity.
Qed.

Lemma for_each_ext {A : Type} (l : list A) (f g : A -> io unit) :
  (forall a, f a = g a) -> for_each l f = for_each l g.
Proof.
  intros H. induction l as [|a l IH]; [reflexivity|].
  cbn [for_each]. rewrite H, IH. reflexivity.
Qed.

(** One pass of the scatter loop that completes has drawn its point. *)
Lemma point_labels (label col : string) (coords : list R) :
  snd (bind (lift (makeColor col)) (fun newCol => Mpl.scatter label newCol coords))
    = Ok tt ->
  scatter_labels (fst (bind (lift (makeColor col))
                            (fun newCol => Mpl.scatter label newCol coords)))
  = [label].
Proof.
  unfold scatter_labels. destruct (makeColor col) as [e | c]; [discriminate|].
  cbn [lift bind]. unfold Mpl.scatter.
  destruct (Mpl.is_rgba c); [reflexivity | discriminate].
Qed.

Section Loop.

Context {C : Type} (coords : C -> list R).

Let body (t : string * (string * C)) : io unit :=
  let '(label, (col, c)) := t in
  bind (lift (makeColor col)) (fun newCol => Mpl.scatter label newCol (coords c)).

(** A scatter loop that completes has drawn every sample it was given. *)
Lemma loop_labels (z : list (string * (string * C))) :
  snd (for_each z body) = Ok tt ->
  scatter_labels (fst (for_each z body)) = map fst z.
Proof.
  unfold scatter_labels.
  induction z as [|[label [col c]] z IH]; [reflexivity|].
  cbn [for_each]. rewrite snd_bind, observe_bind.
  destruct (snd (body (label, (col, c)))) as [e | []] eqn:E; [discriminate|].
  intros H. pose proof (point_labels label col (coords c) E) as Hl.
  unfold scatter_labels in Hl. cbn [body] in *. rewrite Hl, (IH H). reflexivity.
Qed.

(** A scatter loop stops at the first colour that [float] or [scatter]
    rejects, having drawn the samples before it. *)
Lemma loop_bad (good : list string) (bad : string) (rest ligs : list string)
    (cs : list C) :
  Forall (fun c => rgb_text c = true) good ->
  is_ok (makeColor bad) = false \/ (digit_text bad = true /\ rgb_text bad = false) ->
  (List.length good < List.length ligs)%nat ->
  (List.length good < List.length cs)%nat ->
  exists msg,
    snd (for_each (combine ligs (combine (good ++ bad :: rest) cs)) body)
    = Raise (ValueError msg)
    /\ scatter_labels (fst (for_each (combine ligs (combine (good ++ bad :: rest) cs))
                                      body))
       = firstn (List.length good) ligs.
Proof.
  unfold scatter_labels. intros Hg Hb. revert ligs cs.
  induction Hg as [|g good Hok _ IH]; intros [|l ligs] [|c cs] Hl Hc;
    simpl in Hl, Hc; try lia.
  - destruct (point_bad l bad (coords c) Hb) as [msg Hm]. exists msg.
    cbn [List.app combine for_each]. rewrite snd_bind, observe_bind.
    cbn [body]. rewrite Hm. split; reflexivity.
  - destruct (IH ligs cs ltac:(lia) ltac:(lia)) as (msg & Hs & Hlab). exists msg.
    destruct (point_good l g (coords c) Hok) as [rgb Hp].
    cbn [List.app combine for_each List.length firstn].
    rewrite snd_bind, observe_bind. cbn [body]. rewrite Hp.
    cbn [fst snd observe flat_map List.app]. rewrite Hs, Hlab. split; reflexivity.
Qed.

End Loop.

Lemma loop2_labels (z : list (string * (string * (R * R)))) :
  snd (for_each z (fun t =>
         let '(label, (col, (x, y))) := t in
         bind (lift (makeColor col)) (fun newCol => Mpl.scatter label newCol [x; y])))
    = Ok tt ->
  scatter_labels (fst (for_each z (fun t =>
         let '(label, (col, (x, y))) := t in
         bind (lift (makeColor col)) (fun newCol => Mpl.scatter label newCol [x; y]))))
  = map fst z.
Proof.
  rewrite (for_each_ext z _
             (fun t => let '(label, (col, c)) := t in
                       bind (lift (makeColor col))
                            (fun newCol => Mpl.scatter label newCol
                                             (let '(x, y) := c in [x; y]))))
    by (intros [label [col [x y]]]; reflexivity).
  apply (loop_labels (fun c : R * R => let '(x, y) := c in [x; y])).
Qed.

Lemma loop3_labels (z : list (string * (string * (R * (R * R))))) :
  snd (for_each z (fun t =>
         let '(label, (col, (x, (y, z)))) := t in
         bind (lift (makeColor col)) (fun newCol => Mpl.scatter label newCol [x; y; z])))
    = Ok tt ->
  scatter_labels (fst (for_each z (fun t =>
         let '(label, (col, (x, (y, z)))) := t in
         bind (lift (makeColor col)) (fun newCol => Mpl.scatter label newCol [x; y; z]))))
  = map fst z.
Proof.
  rewrite (for_each_ext z _
             (fun t => let '(label, (col, c)) := t in
                       bind (lift (makeColor col))
                            (fun newCol => Mpl.scatter label newCol
                                             (let '(x, (y, z)) := c in [x; y; z]))))
    by (intros [label [col [x [y z0]]]]; reflexivity).
  apply (loop_labels (fun c : R * (R * R) => let '(x, (y, z)) := c in [x; y; z])).
Qed.

Lemma loop2_bad (good : list string) (bad : string) (rest ligs : list string)
    (cs : list (R * R)) :
  Forall (fun c => rgb_text c = true) good ->
  is_ok (makeColor bad) = false \/ (digit_text bad = true /\ rgb_text bad = false) ->
  (List.length good < List.length ligs)%nat ->
  (List.length good < List.length cs)%nat ->
  exists msg,
    snd (for_each (combine ligs (combine (good ++ bad :: rest) cs)) (fun t =>
           let '(label, (col, (x, y))) := t in
           bind (lift (makeColor col)) (fun newCol => Mpl.scatter label newCol [x; y])))
    = Raise (ValueError msg)
    /\ scatter_labels (fst (for_each (combine ligs (combine (good ++ bad :: rest) cs))
         (fun t =>
           let '(label, (col, (x, y))) := t in
           bind (lift (makeColor col)) (fun newCol => Mpl.scatter label newCol [x; y]))))
       = firstn (List.length good) ligs.
Proof.
  intros Hg Hb Hl Hc.
  rewrite (for_each_ext _ _
             (fun t => let '(label, (col, c)) := t in
                       bind (lift (makeColor col))
                            (fun newCol => Mpl.scatter label newCol
                                             (let '(x, y) := c in [x; y]))))
    by (intros [label [col [x y]]]; reflexivity).
  apply (loop_bad (fun c : R * R => let '(x, y) := c in [x; y])); assumption.
Qed.

Lemma loop3_bad (good : list string) (bad : string) (rest ligs : list string)
    (cs : list (R * (R * R))) :
  Forall (fun c => rgb_text c = true) good ->
  is_ok (makeColor bad) = false \/ (digit_text bad = true /\ rgb_text bad = false) ->
  (List.length good < List.length ligs)%nat ->
  (List.length good < List.length cs)%nat ->
  exists msg,
    snd (for_each (combine ligs (combine (good ++ bad :: rest) cs)) (fun t =>
           let '(label, (col, (x, (y, z)))) := t in
           bind (lift (makeColor col))
                (fun newCol => Mpl.scatter label newCol [x; y; z])))
    = Raise (ValueError msg)
    /\ scatter_labels (fst (for_each (combine ligs (combine (good ++ bad :: rest) cs))
         (fun t =>
           let '(label, (col, (x, (y, z)))) := t in
           bind (lift (makeColor col))
                (fun newCol => Mpl.scatter label newCol [x; y; z]))))
       = firstn (List.length good) ligs.
Proof.
  intros Hg Hb Hl Hc.
  rewrite (for_each_ext _ _
             (fun t => let '(label, (col, c)) := t in
                       bind (lift (makeColor col))
                            (fun newCol => Mpl.scatter label newCol
                                             (let '(x, (y, z)) := c in [x; y; z]))))
    by (intros [label [col [x [y z0]]]]; reflexivity).
  apply (loop_bad (fun c : R * (R * R) => let '(x, (y, z)) := c in [x; y; z]));
    assumption.
Qed.

End Points.

(** X11. A plot that completes has drawn one point per sample for which a
    label, a colour and a score row all exist, in order: the labels of the
    points drawn are the first [min(len(colors), N)] sample labels, and
    labels or colours beyond that are ignored without a message, as [zip]
    does. *)
Theorem X11_points_drawn :
  forall (proj3D : bool) (X_r : frame R) (PCs : list npfloat)
         (ligs colors : list string) (csvPath : string) (fl_save : bool),
    snd (plotPCA proj3D X_r PCs ligs colors csvPath fl_save) = Ok tt ->
    scatter_labels (fst (plotPCA proj3D X_r PCs ligs colors csvPath fl_save))
    = firstn (Nat.min (List.length colors) (nrows X_r)) ligs.
Proof.
  intros proj3D X_r PCs ligs colors csvPath fl_save Hok.
  assert (Hcols : ((if proj3D then 3 else 2) <= ncols X_r)%nat).
  { destruct proj3D.
    - destruct (Nat.lt_ge_cases (ncols X_r) 3) as [Hlt | Hge]; [|exact Hge].
      rewrite (plot3D_short X_r PCs ligs colors csvPath fl_save Hlt) in Hok.
      discriminate Hok.
    - destruct (Nat.lt_ge_cases (ncols X_r) 2) as [Hlt | Hge]; [|exact Hge].
      rewrite (plot2D_short X_r PCs ligs colors csvPath fl_save Hlt) in Hok.
      discriminate Hok. }
  revert Hok. unfold scatter_labels, plotPCA, Mpl.savefig. destruct proj3D.
  - rewrite !slice_column_ok by lia. obs_simpl.
    destruct (snd (for_each _ _)) as [e | []] eqn:El; [discriminate|].
    pose proof (loop3_labels _ El) as Hlab. unfold scatter_labels in Hlab.
    rewrite Hlab, map_fst_combine, !length_combine, !length_column, !Nat.min_id.
    obs_simpl.
    destruct (getitem PCs 0); [discriminate|]. obs_simpl.
    destruct (getitem PCs 1); [discriminate|]. obs_simpl.
    destruct (getitem PCs 2); [discriminate|]. obs_simpl.
    intros _. destruct fl_save; obs_simpl;
      repeat (plot_case; obs_simpl); rewrite ?app_nil_r; reflexivity.
  - rewrite !slice_column_ok by lia. obs_simpl.
    destruct (snd (for_each _ _)) as [e | []] eqn:El; [discriminate|].
    pose proof (loop2_labels _ El) as Hlab. unfold scatter_labels in Hlab.
    rewrite Hlab, map_fst_combine, !length_combine, !length_column, !Nat.min_id.
    obs_simpl.
    destruct (getitem PCs 0); [discriminate|]. obs_simpl.
    destruct (getitem PCs 1); [discriminate|]. obs_simpl.
    intros _. destruct fl_save; obs_simpl;
      repeat (plot_case; obs_simpl); rewrite ?app_nil_r; reflexivity.
Qed.

Lemma X11_points_drawn_witness :
  scatter_labels (fst (plotPCA false (Frame 2 [[1; 2]; [3; 4]]%R) [Fin 80; Fin 20]
                         ["a"; "b"; "c"] ["255:0:0"; "0:0:255"] "data.csv" false))
  = ["a"; "b"].
Proof.
  apply (X11_points_drawn false (Frame 2 [[1; 2]; [3; 4]]%R) [Fin 80; Fin 20]
           ["a"; "b"; "c"] ["255:0:0"; "0:0:255"] "data.csv" false).
  run_script. reflexivity.
Defined.

(** X12. A colour that is not a colour stops the plot where it stands.
    When the colours of the first [i] samples are three or four
    colon-separated digit runs none above 255, and the colour of sample [i]
    is ASCII text with a token that [float] rejects, or is made of digit
    runs but not of three or four, or has one above 255, [plotPCA] raises
    [ValueError] (from [float] or from [scatter]) having drawn exactly the
    [i] samples before it, and it neither saves nor shows a figure. *)
Theorem X12_bad_colour_stops_plot :
  forall (proj3D : bool) (X_r : frame R) (PCs : list npfloat)
         (ligs good : list string) (bad : string) (rest : list string)
         (csvPath : string) (fl_save : bool),
    ((if proj3D then 3 else 2) <= ncols X_r)%nat ->
    Forall (fun c => rgb_text c = true) good ->
    (PyStr.is_ascii bad = true /\ is_ok (makeColor bad) = false)
    \/ (digit_text bad = true /\ rgb_text bad = false) ->
    (List.length good < List.length ligs)%nat ->
    (List.length good < nrows X_r)%nat ->
    (exists msg,
        snd (plotPCA proj3D X_r PCs ligs (good ++ bad :: rest) csvPath fl_save)
        = Raise (ValueError msg))
    /\ scatter_labels (fst (plotPCA proj3D X_r PCs ligs (good ++ bad :: rest)
                              csvPath fl_save))
       = firstn (List.length good) ligs
    /\ saved_figures (fst (plotPCA proj3D X_r PCs ligs (good ++ bad :: rest)
                             csvPath fl_save)) = []
    /\ shown_figures (fst (plotPCA proj3D X_r PCs ligs (good ++ bad :: rest)
                             csvPath fl_save)) = 0%nat.
Proof.
  intros proj3D X_r PCs ligs good bad rest csvPath fl_save Hcols Hgood Hbad Hl Hn.
  assert (Hb : is_ok (makeColor bad) = false
               \/ (digit_text bad = true /\ rgb_text bad = false))
    by (destruct Hbad as [[_ H] | H]; [left | right]; exact H).
  unfold saved_figures, shown_figures, scatter_labels, plotPCA. destruct proj3D.
  - rewrite !slice_column_ok by lia.
    destruct (loop3_bad good bad rest ligs
                (combine (column 0%R 0 X_r)
                   (combine (column 0%R 1 X_r) (column 0%R 2 X_r)))
                Hgood Hb Hl) as (msg & Hs & Hlab).
    + rewrite !length_combine, !length_column, !Nat.min_id. exact Hn.
    + unfold scatter_labels in Hlab. obs_simpl.
      rewrite Hs, Hlab, !scatter3_observe by reflexivity. cbn [Raise].
      rewrite !app_nil_r. split; [exists msg; reflexivity|]. repeat split.
  - rewrite !slice_column_ok by lia.
    destruct (loop2_bad good bad rest ligs
                (combine (column 0%R 0 X_r) (column 0%R 1 X_r))
                Hgood Hb Hl) as (msg & Hs & Hlab).
    + rewrite !length_combine, !length_column, !Nat.min_id. exact Hn.
    + unfold scatter_labels in Hlab. obs_simpl.
      rewrite Hs, Hlab, !scatter2_observe by reflexivity. cbn [Raise].
      rewrite !app_nil_r. split; [exists msg; reflexivity|]. repeat split.
Qed.

Lemma X12_bad_colour_stops_plot_witness :
  (exists msg,
      snd (plotPCA false (Frame 2 [[1; 2]; [3; 4]]%R) [Fin 80; Fin 20] ["a"; "b"]
                   (["255:0:0"] ++ "300:0:0" :: []) "data.csv" true)
      = Raise (ValueError msg))
  /\ scatter_labels
       (fst (plotPCA false (Frame 2 [[1; 2]; [3; 4]]%R) [Fin 80; Fin 20] ["a"; "b"]
                     (["255:0:0"] ++ "300:0:0" :: []) "data.csv" true))
     = ["a"].
Proof.
  destruct (X12_bad_colour_stops_plot false (Frame 2 [[1; 2]; [3; 4]]%R)
              [Fin 80; Fin 20] ["a"; "b"] ["255:0:0"] "300:0:0" [] "data.csv" true)
    as (Hs & Hl & _).
  - simpl. lia.
  - repeat constructor.
  - right. split; reflexivity.
  - simpl. lia.
  - unfold nrows. simpl. lia.
  - split; [exact Hs | exact Hl].
Defined.

(** ** Runs that stop before the fit *)

Section EarlyFailures.

Variable svd : frame R -> SVD.

Lemma main_fit_rejected (args : Namespace) (df : DataFrame) (path : string)
    (dfData : frame npfloat) (e : exn) :
  apply_transformation (arg_std args) (arg_log args) (arg_csvPath args) (data df)
    = Ok (path, dfData) ->
  check_array dfData = Raise e ->
  main svd args df = ([], Raise e).
Proof.
  intros Ht Hc. unfold main, parsing. cbn [fst snd]. rewrite Ht.
  cbn [lift bind Ok]. unfold getPCA, PCA_fit_transform. rewrite Hc. reflexivity.
Qed.

Lemma check_array_no_samples (X : frame npfloat) :
  nrows X = 0%nat -> check_array X = Raise (ValueError "Found array with 0 sample(s)").
Proof.
  intros HN. unfold check_array, check_shape.
  assert (Hr : rows X = []) by (apply length_zero_iff_nil; exact HN).
  rewrite Hr, HN. reflexivity.
Qed.

Lemma check_array_no_features (X : frame npfloat) :
  wf X -> (1 <= nrows X)%nat -> ncols X = 0%nat ->
  check_array X = Raise (ValueError "Found array with 0 feature(s)").
Proof.
  intros Hwf HN HP. unfold check_array, check_shape.
  rewrite finite_rows_empty by (unfold wf in Hwf; rewrite HP in Hwf; exact Hwf).
  destruct (Nat.ltb_spec (nrows X) 1); [lia|]. rewrite HP. reflexivity.
Qed.

Lemma wf_fmap {A B : Type} (g : A -> B) (X : frame A) : wf X -> wf (fmap g X).
Proof.
  unfold wf, fmap. cbn [rows ncols]. rewrite !Forall_forall.
  intros H r Hr. apply in_map_iff in Hr as (r0 & <- & Hr0).
  rewrite length_map. apply H. exact Hr0.
Qed.

End EarlyFailures.

(** X13. A [-log] run on a table with a cell at or below zero, the
    standardisation flag not being set, raises [ValueError] from the fit's
    input validation and leaves nothing behind: nothing is printed, written,
    saved or shown. *)
Theorem X13_log_of_nonpositive_stops_run :
  forall (svd : frame R -> SVD) (args : Namespace) (df : DataFrame)
         (r : list R) (x : R),
    arg_std args = false -> arg_log args = true ->
    In r (rows (data df)) -> In x r -> (x <= 0)%R ->
    main svd args df
    = ([], Raise (ValueError "Input contains NaN, infinity or a value too large")).
Proof.
  intros svd args df r x Hstd Hlog Hr Hx Hle.
  apply (main_fit_rejected svd args df
           (PyStr.replace (arg_csvPath args) ".csv" "-log.csv")
           (fmap Np.log (data df))).
  - rewrite Hstd, Hlog. reflexivity.
  - exact (log_table_rejected (data df) r x Hr Hx Hle).
Qed.

Lemma X13_log_of_nonpositive_stops_run_witness :
  main Demo.svd (Demo.args "data.csv" false true false true)
       {| index := ["a"; "b"]; color := ["0:0:0"; "1:1:1"]; columns := ["f"];
          data := Frame 1 [[1]; [0]]%R |}
  = ([], Raise (ValueError "Input contains NaN, infinity or a value too large")).
Proof.
  apply (X13_log_of_nonpositive_stops_run Demo.svd _ _ [0%R] 0%R).
  - reflexivity.
  - reflexivity.
  - simpl. right. left. reflexivity.
  - simpl. left. reflexivity.
  - lra.
Defined.

(** X14. A table without samples, or with samples but without feature
    columns, ends every run with [ValueError] before anything is printed or
    written, whatever the flags: the check is made by the first
    scikit-learn call the run reaches. *)
Theorem X14_empty_table_stops_run :
  forall (svd : frame R -> SVD) (args : Namespace) (df : DataFrame),
    (nrows (data df) = 0%nat ->
       main svd args df = ([], Raise (ValueError "Found array with 0 sample(s)")))
    /\ (wf (data df) -> (1 <= nrows (data df))%nat -> ncols (data df) = 0%nat ->
        main svd args df = ([], Raise (ValueError "Found array with 0 feature(s)"))).
Proof.
  intros svd args df. split.
  - intros HN. destruct (arg_std args) eqn:Hstd.
    + unfold main, parsing. cbn [fst snd]. rewrite Hstd.
      unfold apply_transformation, StandardScaler_fit_transform, check_shape.
      rewrite HN. reflexivity.
    + destruct (arg_log args) eqn:Hlog.
      * apply (main_fit_rejected svd args df
                 (PyStr.replace (arg_csvPath args) ".csv" "-log.csv")
                 (fmap Np.log (data df))).
        -- rewrite Hstd, Hlog. reflexivity.
        -- apply check_array_no_samples. rewrite nrows_fmap. exact HN.
      * apply (main_fit_rejected svd args df (arg_csvPath args) (fmap Fin (data df))).
        -- rewrite Hstd, Hlog. reflexivity.
        -- apply check_array_no_samples. rewrite nrows_fmap. exact HN.
  - intros Hwf HN HP. destruct (arg_std args) eqn:Hstd.
    + unfold main, parsing. cbn [fst snd]. rewrite Hstd.
      unfold apply_transformation, StandardScaler_fit_transform, check_shape.
      destruct (Nat.ltb_spec (nrows (data df)) 1); [lia|]. rewrite HP. reflexivity.
    + destruct (arg_log args) eqn:Hlog.
      * apply (main_fit_rejected svd args df
                 (PyStr.replace (arg_csvPath args) ".csv" "-log.csv")
                 (fmap Np.log (data df))).
        -- rewrite Hstd, Hlog. reflexivity.
        -- apply check_array_no_features;
             [apply wf_fmap; exact Hwf | rewrite nrows_fmap; exact HN | exact HP].
      * apply (main_fit_rejected svd args df (arg_csvPath args) (fmap Fin (data df))).
        -- rewrite Hstd, Hlog. reflexivity.
        -- apply check_array_no_features;
             [apply wf_fmap; exact Hwf | rewrite nrows_fmap; exact HN | exact HP].
Qed.

Lemma X14_empty_table_stops_run_witness :
  main Demo.svd Demo.std_save
       {| index := []; color := []; columns := ["f1"; "f2"]; data := Frame 2 [] |}
  = ([], Raise (ValueError "Found array with 0 sample(s)")).
Proof.
  apply (proj1 (X14_empty_table_stops_run Demo.svd Demo.std_save
                  {| index := []; color := []; columns := ["f1"; "f2"];
                     data := Frame 2 [] |})).
  reflexivity.
Defined.

(** ** Rounded percentages *)

(** Decides a comparison of large integer constants. *)
Ltac compare_constants :=
  first [apply Z.leb_le | apply Z.ltb_lt]; vm_compute; reflexivity.

Section Rounding.

Local Open Scope R_scope.

Lemma round_half_even_close (x : R) : Rabs (IZR (round_half_even x) - x) <= 1 / 2.
Proof.
  unfold round_half_even, Rltb.
  destruct (base_Int_part x) as [Hlo Hhi].
  destruct (Rlt_dec (x - IZR (Int_part x)) (1 / 2)) as [H1 | H1].
  - unfold Rabs. destruct (Rcase_abs _); lra.
  - destruct (Rlt_dec (1 / 2) (x - IZR (Int_part x))) as [H2 | H2].
    + rewrite plus_IZR. unfold Rabs. destruct (Rcase_abs _); lra.
    + destruct (Z.even (Int_part x)).
      * unfold Rabs. destruct (Rcase_abs _); lra.
      * rewrite plus_IZR. unfold Rabs. destruct (Rcase_abs _); lra.
Qed.

Lemma round_half_even_bounds (x : R) :
  x - 1 / 2 <= IZR (round_half_even x) <= x + 1 / 2.
Proof.
  pose proof (round_half_even_close x) as H. unfold Rabs in H.
  destruct (Rcase_abs _); lra.
Qed.

Lemma round_half_even_small (x : R) : Rabs x < 1 / 2 -> round_half_even x = 0%Z.
Proof.
  intros H. pose proof (round_half_even_bounds x) as [Hlo Hhi].
  unfold Rabs in H. destruct (Rcase_abs x).
  - assert (H1 : (-1 < round_half_even x)%Z) by (apply lt_IZR; simpl; lra).
    assert (H2 : (round_half_even x < 1)%Z) by (apply lt_IZR; simpl; lra). lia.
  - assert (H1 : (-1 < round_half_even x)%Z) by (apply lt_IZR; simpl; lra).
    assert (H2 : (round_half_even x < 1)%Z) by (apply lt_IZR; simpl; lra). lia.
Qed.

Lemma round_half_even_nonneg (x : R) : 0 <= x -> (0 <= round_half_even x)%Z.
Proof.
  intros H. pose proof (round_half_even_bounds x) as [Hlo _].
  assert (H1 : (-1 < round_half_even x)%Z) by (apply lt_IZR; simpl; lra). lia.
Qed.

Lemma power_of_ten (n : Z) : (0 <= n)%Z -> powerRZ 10 n = IZR (10 ^ n).
Proof.
  intros H. destruct n as [|p|p]; [reflexivity | | lia].
  cbn [powerRZ]. rewrite pow_IZR, positive_nat_Z. reflexivity.
Qed.

(** The powers of ten up to [10^308] are float64 numbers; from [10^309] on
    they are infinite. *)
Lemma power_of_ten_finite (n : Z) :
  (0 <= n <= 308)%Z -> float64 (powerRZ 10 n) = Fin (powerRZ 10 n).
Proof.
  intros H. rewrite power_of_ten by lia.
  assert (H1 : (1 <= 10 ^ n)%Z) by (apply (Z.pow_le_mono_r 10 0 n); lia).
  assert (H2 : (10 ^ n <= 10 ^ 308)%Z) by (apply Z.pow_le_mono_r; lia).
  apply IZR_le in H1. pose proof too_small_small.
  apply float64_keep; [lra | right; lra|].
  apply below_too_large. eapply Z.le_lt_trans; [exact H2 | compare_constants].
Qed.

Lemma power_of_ten_infinite (n : Z) :
  (309 <= n)%Z -> float64 (powerRZ 10 n) = PosInf.
Proof.
  intros H. rewrite power_of_ten by lia. apply float64_inf.
  apply above_too_large.
  assert (H2 : (10 ^ 309 <= 10 ^ n)%Z) by (apply Z.pow_le_mono_r; lia).
  eapply Z.le_trans; [|exact H2]. compare_constants.
Qed.

Lemma round_zero_digits (x : R) : Np.round (Fin x) 0 = Fin (IZR (round_half_even x)).
Proof. reflexivity. Qed.

(** Rounding a percentage to between 1 and 306 digits. *)
Lemma round_digits (x : R) (n : Z) :
  0 <= x <= 100 -> (1 <= n <= 306)%Z ->
  Np.round (Fin x) n = Fin (IZR (round_half_even (x * powerRZ 10 n)) / powerRZ 10 n).
Proof.
  intros Hx Hn. unfold Np.round.
  destruct (Z.eqb_spec n 0); [lia|]. destruct (Z.ltb_spec 0 n); [|lia].
  rewrite Z.abs_eq by lia. rewrite power_of_ten_finite by lia.
  set (p := powerRZ 10 n).
  assert (Hp : 10 <= p <= IZR (10 ^ 306)).
  { unfold p. rewrite power_of_ten by lia. split.
    - apply (IZR_le 10). apply (Z.pow_le_mono_r 10 1 n); lia.
    - apply IZR_le. apply Z.pow_le_mono_r; lia. }
  pose proof too_small_small as Hts. pose proof too_small_pos as Htp.
  assert (Hbig : 100 * IZR (10 ^ 306) + 1 < too_large).
  { rewrite <- mult_IZR, <- plus_IZR. apply below_too_large. compare_constants. }
  assert (Hxp : 0 <= x * p <= 100 * IZR (10 ^ 306)) by nra.
  cbn [Np.mul in_range].
  assert (Hr : rint (float64 (x * p)) = Fin (IZR (round_half_even (x * p)))).
  { destruct (Rle_dec (x * p) too_small) as [Hs | Hs].
    - rewrite float64_flush by (rewrite Rabs_pos_eq; lra). cbn [rint].
      rewrite !round_half_even_small; [reflexivity | |];
        rewrite Rabs_pos_eq; lra.
    - rewrite float64_normal by (rewrite Rabs_pos_eq; lra). reflexivity. }
  rewrite Hr. rewrite div_Fin by lra. cbn [in_range].
  pose proof (round_half_even_bounds (x * p)) as [Hlo Hhi].
  pose proof (round_half_even_nonneg (x * p) ltac:(lra)) as Hz.
  assert (Hip : 0 < / p <= 1 / 10).
  { split; [apply Rinv_0_lt_compat; lra|].
    replace (1 / 10) with (/ 10) by lra. apply Rinv_le_contravar; lra. }
  apply float64_keep.
  - apply IZR_le in Hz. unfold Rdiv. nra.
  - destruct (Z.eq_dec (round_half_even (x * p)) 0) as [-> | Hne].
    + left. unfold Rdiv. rewrite Rmult_0_l. reflexivity.
    + right. assert (H1 : (1 <= round_half_even (x * p))%Z) by lia.
      apply IZR_le in H1.
      assert (Hsmall : too_small < / IZR (10 ^ 306)).
      { rewrite too_small_Z. apply Rinv_lt_contravar.
        - apply Rmult_lt_0_compat; apply (IZR_lt 0); compare_constants.
        - apply IZR_lt. compare_constants. }
      assert (Hinv : / IZR (10 ^ 306) <= / p).
      { apply Rinv_le_contravar; lra. }
      unfold Rdiv. nra.
  - unfold Rdiv.
    assert (Hq : IZR (round_half_even (x * p)) * / p <= x + 1 / 2 * / p).
    { replace (x + 1 / 2 * / p) with ((x * p + 1 / 2) * / p) by (field; lra).
      apply Rmult_le_compat_r; lra. }
    assert (Hone : 1 <= IZR (10 ^ 306)) by lra.
    nra.
Qed.

(** From 309 digits on the power of ten is infinite and the rounded
    percentage is not a number. *)
Lemma round_too_many_digits (x : R) (n : Z) :
  0 <= x -> (309 <= n)%Z -> Np.round (Fin x) n = NaN.
Proof.
  intros Hx Hn. unfold Np.round.
  destruct (Z.eqb_spec n 0); [lia|]. destruct (Z.ltb_spec 0 n); [|lia].
  rewrite Z.abs_eq by lia. rewrite power_of_ten_infinite by exact Hn.
  cbn [Np.mul]. unfold scale_inf.
  destruct (Req_dec_T x 0) as [-> | Hne].
  - rewrite Reqb_true by reflexivity. reflexivity.
  - rewrite Reqb_false by exact Hne. rewrite Rltb_true by lra. reflexivity.
Qed.

Lemma half_unit (z : Z) (y p : R) :
  0 < p -> y - 1 / 2 <= IZR z <= y + 1 / 2 ->
  Rabs (IZR z / p - y / p) <= 1 / 2 * / p.
Proof.
  intros Hp Hz.
  replace (IZR z / p - y / p) with ((IZR z - y) * / p) by (field; lra).
  rewrite Rabs_mult, (Rabs_pos_eq (/ p)) by (left; apply Rinv_0_lt_compat; exact Hp).
  apply Rmult_le_compat_r; [left; apply Rinv_0_lt_compat; exact Hp|].
  unfold Rabs. destruct (Rcase_abs _); lra.
Qed.

End Rounding.

(** ** Where the events of a run come from *)

Section EventOrigins.

Lemma in_bind {A B : Type} (m : io A) (k : A -> io B) (e : event) :
  In e (fst (bind m k)) ->
  In e (fst m) \/ exists a, snd m = inr a /\ In e (fst (k a)).
Proof.
  rewrite fst_bind. intros H. apply in_app_or in H. destruct H as [H | H]; [left; exact H|].
  destruct (snd m) as [x | a]; [destruct H|]. right. exists a. split; [reflexivity | exact H].
Qed.

Lemma in_for_each {A : Type} (l : list A) (body : A -> io unit) (e : event) :
  In e (fst (for_each l body)) -> exists a, In a l /\ In e (fst (body a)).
Proof.
  induction l as [|x l IH]; [intros []|]. cbn [for_each]. intros H.
  apply in_bind in H. destruct H as [H | (u & _ & H)].
  - exists x. split; [left; reflexivity | exact H].
  - destruct (IH H) as (a & Ha & He). exists a. split; [right; exact Ha | exact He].
Qed.

Lemma getitem_In {A : Type} (l : list A) (i : nat) (a : A) :
  snd (lift (getitem l i)) = inr a -> In a l.
Proof.
  unfold getitem. cbn [lift snd]. destruct (nth_error l i) eqn:E; [|discriminate].
  intros H. inversion H. subst. apply (nth_error_In _ _ E).
Qed.

End EventOrigins.

(** Traces the event [H] of a composed action back to the action that
    emitted it. *)
Ltac event_origin H :=
  repeat (cbv beta zeta in H;
          match type of H with
          | In _ (fst (bind _ _)) =>
              let a := fresh "a" in
              let E := fresh "E" in
              apply in_bind in H; destruct H as [H | (a & E & H)]
          | In _ (fst (emit _)) => destruct H as [H | []]
          | In _ (fst (ret _)) => destruct H
          | In _ (fst (lift _)) => destruct H
          | In _ (fst (if ?b then _ else _)) => destruct b
          | In _ (fst (for_each _ _)) =>
              let a := fresh "a" in
              let Ha := fresh "Ha" in
              apply in_for_each in H; destruct H as (a & Ha & H)
          | In _ (fst (let '(_, _) := ?a in _)) => destruct a
          | In _ (fst (Mpl.scatter _ _ _)) => unfold Mpl.scatter in H
          | In _ (fst (Mpl.savefig ?p)) =>
              unfold Mpl.savefig in H; destruct (Mpl.output_file p)
          end).

Section Percentages.

(** The percentage on a report line is a ratio, times 100, rounded to six
    digits. *)
Lemma displaySaveLog_lines csvPath df dfData PCs loadings features fl_save fl_std fl_log
    (name : string) (v : npfloat) :
  In (Print (PcLine name v))
     (fst (displaySaveLog csvPath df dfData PCs loadings features fl_save fl_std fl_log)) ->
  exists pc, In pc PCs /\ v = Np.round (Np.mul (Fin 100) pc) 6.
Proof.
  unfold displaySaveLog. intros H. event_origin H; try discriminate H;
    match goal with
    | Ha : In ?x (map _ _), H : Print ?x = _ |- _ =>
        inversion H; subst;
        apply in_map_iff in Ha as ([nm pc] & Hp & Hin); inversion Hp; subst;
        exists pc; split; [apply (in_combine_r _ _ _ _ Hin) | reflexivity]
    | E : snd (lift (if ?c then _ else _)) = inr ?x, H : Print ?x = _ |- _ =>
        destruct c; inversion E; subst; discriminate H
    end.
Qed.

(** The percentage on an axis label is one of the percentages [plotPCA] was
    given. *)
Lemma plotPCA_axis_labels proj3D X_r PCs ligs colors csvPath fl_save
    (axis : string) (v : npfloat) :
  In (AxisLabel axis v) (fst (plotPCA proj3D X_r PCs ligs colors csvPath fl_save)) ->
  In v PCs.
Proof.
  unfold plotPCA. intros H. event_origin H; try discriminate H;
    inversion H; subst;
    match goal with
    | E : snd (lift (getitem PCs _)) = inr v |- _ => exact (getitem_In _ _ _ E)
    end.
Qed.

End Percentages.

(** X15. Percentages are rounded before they are printed.  For ratios
    between 0 and 1, the percentage on every report line is a whole number
    of millionths within half a millionth of 100 times a ratio.  The
    percentage handed to an axis label is rounded to [n] digits, [n] the
    [--rounded] option: for [n] from 0 to 306 it is a whole number of units
    [10^-n] within half a unit of 100 times a ratio, and from [n = 309] up
    to the largest C [int] it is not a number, the power of ten being
    infinite.  Without
    [--rounded], or with [--rounded 0], the axis labels get whole
    percentages. *)
Theorem X15_rounded_percentages :
  forall (PCs : list npfloat),
    Forall (fun pc => exists r, pc = Fin r /\ (0 <= r <= 1)%R) PCs ->
    (forall csvPath df dfData loadings features fl_save fl_std fl_log name v,
        In (Print (PcLine name v))
           (fst (displaySaveLog csvPath df dfData PCs loadings features
                   fl_save fl_std fl_log)) ->
        exists (r : R) (z : Z),
          In (Fin r) PCs
          /\ v = Fin (IZR z / powerRZ 10 6)
          /\ (Rabs (IZR z / powerRZ 10 6 - 100 * r) <= 1 / 2 * / powerRZ 10 6)%R)
    /\ (forall args proj3D X_r ligs colors csvPath fl_save axis v,
          In (AxisLabel axis v)
             (fst (plotPCA proj3D X_r
                     (map (fun pc => Np.round (Np.mul (Fin 100) pc)
                                       (snd (fst (fst (fst (fst (parsing args)))))))
                          PCs)
                     ligs colors csvPath fl_save)) ->
          ((0 <= snd (fst (fst (fst (fst (parsing args))))) <= 306)%Z ->
           exists (r : R) (z : Z),
             In (Fin r) PCs
             /\ v = Fin (IZR z / powerRZ 10 (snd (fst (fst (fst (fst (parsing args)))))))
             /\ (Rabs (IZR z / powerRZ 10 (snd (fst (fst (fst (fst (parsing args))))))
                       - 100 * r)
                 <= 1 / 2 * / powerRZ 10 (snd (fst (fst (fst (fst (parsing args)))))))%R)
          /\ ((309 <= snd (fst (fst (fst (fst (parsing args))))) < 2 ^ 31)%Z -> v = NaN)
          /\ (arg_rounded args = None \/ arg_rounded args = Some 0%Z ->
              exists (r : R) (z : Z),
                In (Fin r) PCs /\ v = Fin (IZR z) /\ (Rabs (IZR z - 100 * r) <= 1 / 2)%R)).
Proof.
  intros PCs Hunit. rewrite Forall_forall in Hunit.
  assert (Hround : forall (n : Z) (r : R),
             (0 <= r <= 1)%R -> (0 <= n <= 306)%Z ->
             exists z : Z,
               Np.round (Np.mul (Fin 100) (Fin r)) n = Fin (IZR z / powerRZ 10 n)
               /\ (Rabs (IZR z / powerRZ 10 n - 100 * r) <= 1 / 2 * / powerRZ 10 n)%R).
  { intros n r Hr Hn. cbn [Np.mul].
    assert (Hp : (0 < powerRZ 10 n)%R) by (apply powerRZ_lt; lra).
    exists (round_half_even (100 * r * powerRZ 10 n)). split.
    - destruct (Z.eq_dec n 0) as [-> | Hne].
      + rewrite round_zero_digits. cbn [powerRZ]. f_equal.
        rewrite Rmult_1_r. field.
      + apply round_digits; [lra | lia].
    - replace (100 * r)%R with (100 * r * powerRZ 10 n / powerRZ 10 n)%R at 2
        by (field; lra).
      apply half_unit; [exact Hp | apply round_half_even_bounds]. }
  split.
  - intros csvPath df dfData loadings features fl_save fl_std fl_log name v Hin.
    destruct (displaySaveLog_lines _ _ _ _ _ _ _ _ _ _ _ Hin) as (pc & Hpc & ->).
    destruct (Hunit pc Hpc) as (r & -> & Hr).
    destruct (Hround 6%Z r Hr ltac:(lia)) as (z & Hz & Hclose).
    exists r, z. repeat split; assumption.
  - intros args proj3D X_r ligs colors csvPath fl_save axis v Hin.
    apply plotPCA_axis_labels in Hin. apply in_map_iff in Hin as (pc & <- & Hpc).
    destruct (Hunit pc Hpc) as (r & -> & Hr).
    split; [|split].
    + intros Hn. destruct (Hround _ r Hr Hn) as (z & Hz & Hclose).
      exists r, z. repeat split; assumption.
    + intros [Hn _]. cbn [Np.mul]. apply round_too_many_digits; [lra | exact Hn].
    + intros Hdef.
      assert (Hn : snd (fst (fst (fst (fst (parsing args))))) = 0%Z)
        by (unfold parsing; cbn [fst snd]; destruct Hdef as [-> | ->]; reflexivity).
      rewrite Hn. destruct (Hround 0%Z r Hr ltac:(lia)) as (z & Hz & Hclose).
      exists r, z. cbn [powerRZ] in Hz, Hclose. split; [exact Hpc|]. split.
      * rewrite Hz. f_equal. field.
      * replace (IZR z - 100 * r)%R with (IZR z / 1 - 100 * r)%R by field.
        eapply Rle_trans; [exact Hclose|]. right. field.
Qed.

Lemma X15_rounded_percentages_witness :
  Forall (fun pc => exists r, pc = Fin r /\ (0 <= r <= 1)%R) [Fin (4 / 5); Fin (1 / 5)]%R
  /\ exists (v : npfloat) (r : R) (z : Z),
       In (AxisLabel "PC1" v)
          (fst (plotPCA false (Frame 2 [[1; 2]; [3; 4]]%R)
                  (map (fun pc => Np.round (Np.mul (Fin 100) pc)
                                    (snd (fst (fst (fst (fst (parsing Demo.std_save)))))))
                       [Fin (4 / 5); Fin (1 / 5)])
                  [] [] "data.csv" false))
       /\ In (Fin r) [Fin (4 / 5); Fin (1 / 5)]%R
       /\ v = Fin (IZR z) /\ (Rabs (IZR z - 100 * r) <= 1 / 2)%R.
Proof.
  assert (Hunit : Forall (fun pc => exists r, pc = Fin r /\ (0 <= r <= 1)%R)
                         [Fin (4 / 5); Fin (1 / 5)]%R).
  { repeat constructor; eexists; (split; [reflexivity | lra]). }
  split; [exact Hunit|].
  assert (Hin : In (AxisLabel "PC1"
                      (Np.round (Np.mul (Fin 100) (Fin (4 / 5)))
                         (snd (fst (fst (fst (fst (parsing Demo.std_save))))))))
                   (fst (plotPCA false (Frame 2 [[1; 2]; [3; 4]]%R)
                           (map (fun pc => Np.round (Np.mul (Fin 100) pc)
                                             (snd (fst (fst (fst (fst (parsing Demo.std_save)))))))
                                [Fin (4 / 5); Fin (1 / 5)])
                           [] [] "data.csv" false))).
  { left. reflexivity. }
  destruct (proj2 (proj2 (proj2 (X15_rounded_percentages _ Hunit) Demo.std_save false
                                   _ _ _ _ _ _ _ Hin)) (or_introl eq_refl))
    as (r & z & Hr & Hv & Hclose).
  eexists; exists r, z. split; [exact Hin|]. split; [exact Hr|].
  split; [exact Hv | exact Hclose].
Defined.
